(** * Youtube-Sbv-creator: dialogue script parsing and timeline alignment

    A shallow embedding of the three entry points of the repository

      - [phase01_data_to_json_converter.py]  (module [Phase01]),
      - [phase02_sequesce_to_sbv_converter.py] (module [Phase02]),
      - [phase_main_do_all.py] (module [PhaseMain]),

    over a small model of the Python runtime they rely on: [str] values as
    lists of Unicode code points, the [str] methods the code calls, [int()]
    on a string, the float arithmetic of the frame conversion, format
    specifications of f-strings, and insertion-ordered [dict]s. *)

From Stdlib Require Import Ascii String.
From Stdlib Require Import List ZArith NArith Lia Bool.
From Stdlib Require Import Floats.SpecFloat.
Import ListNotations.

(** ** Python values *)

(** A Python [str] is a sequence of Unicode code points; slicing, [in],
    [split] and [strip] all work on code points. *)
Definition char := N.
Definition pystr := list char.

(** ASCII literals of the source, as code points. *)
Definition lit (s : string) : pystr :=
  map N_of_ascii (list_ascii_of_string s).

Definition char_eqb (a b : char) : bool := N.eqb a b.

Fixpoint pystr_eqb (a b : pystr) : bool :=
  match a, b with
  | [], [] => true
  | x :: a', y :: b' => char_eqb x y && pystr_eqb a' b'
  | _, _ => false
  end.

(** Exceptions the modelled code can raise. *)
Inductive exn := ValueError | OverflowError | KeyError | IndexError.

Inductive pyresult (A : Type) : Type :=
| Ok (a : A)
| Raise (e : exn).
Arguments Ok {A} a.
Arguments Raise {A} e.

Definition bind {A B} (m : pyresult A) (k : A -> pyresult B) : pyresult B :=
  match m with
  | Ok a => k a
  | Raise e => Raise e
  end.

Notation "x <- m ;; k" := (bind m (fun x => k))
  (at level 61, m at next level, right associativity).

(** Truth value of a [str]: empty is false. *)
Definition truthy (s : pystr) : bool :=
  match s with [] => false | _ => true end.

(** ** [str] methods *)

(** [str.isspace] on one character ([Py_UNICODE_ISSPACE]); the same set is
    used by [str.strip()] and by [\s] in a [str] pattern of [re]. *)
Definition isspace (c : char) : bool :=
  ((9 <=? c) && (c <=? 13) || (28 <=? c) && (c <=? 32)
   || (c =? 0x85) || (c =? 0xa0) || (c =? 0x1680)
   || (0x2000 <=? c) && (c <=? 0x200a)
   || (c =? 0x2028) || (c =? 0x2029) || (c =? 0x202f)
   || (c =? 0x205f) || (c =? 0x3000))%N.

Fixpoint lstrip (s : pystr) : pystr :=
  match s with
  | [] => []
  | c :: t => if isspace c then lstrip t else s
  end.

Definition rstrip (s : pystr) : pystr := rev (lstrip (rev s)).

(** [s.strip()] *)
Definition strip (s : pystr) : pystr := rstrip (lstrip s).

(** [s.startswith(p)] *)
Fixpoint startswith (s p : pystr) : bool :=
  match p, s with
  | [], _ => true
  | x :: p', y :: s' => char_eqb x y && startswith s' p'
  | _ :: _, [] => false
  end.

(** [s.find(sub)]: index of the first occurrence. *)
Fixpoint find_sub (sub s : pystr) : option nat :=
  if startswith s sub then Some 0
  else match s with
       | [] => None
       | _ :: t => option_map S (find_sub sub t)
       end.

(** [sub in s] *)
Definition contains (sub s : pystr) : bool :=
  match find_sub sub s with Some _ => true | None => false end.

(** [s.split(sep, maxsplit)] for a non-empty [sep]: at most [maxsplit]
    cuts, at the leftmost occurrences. *)
Fixpoint split_n (maxsplit : nat) (sep s : pystr) : list pystr :=
  match maxsplit with
  | O => [s]
  | S n =>
      match find_sub sep s with
      | None => [s]
      | Some i => firstn i s :: split_n n sep (skipn (i + length sep) s)
      end
  end.

(** [s.split(sep)]: no limit on the cuts; a string of [n] characters has
    at most [n] occurrences of a non-empty separator. *)
Definition split (sep s : pystr) : list pystr :=
  split_n (length s) sep s.

(** [sep.join(parts)] *)
Fixpoint join (sep : pystr) (parts : list pystr) : pystr :=
  match parts with
  | [] => []
  | [p] => p
  | p :: rest => p ++ sep ++ join sep rest
  end.

(** [re.sub(r'\s+', '', s)]: every maximal run of whitespace is replaced
    by the empty string, so exactly the whitespace characters go. *)
Definition remove_whitespace (s : pystr) : pystr :=
  filter (fun c => negb (isspace c)) s.

(** [s[:n]] for [n >= 0] *)
Definition take (n : nat) (s : pystr) : pystr := firstn n s.

(** [xs[i:j]] on a list, for [0 <= i <= j]. *)
Definition slice {A} (xs : list A) (i j : nat) : list A :=
  firstn (j - i) (skipn i xs).

(** ** [int(s)] on a string *)

(** Whitespace [int()] skips around the number: the ASCII characters of C's
    [isspace], and every non-ASCII Unicode whitespace character (the
    ASCII separators 0x1c-0x1f are whitespace for [strip] but not here). *)
Definition int_space (c : char) : bool :=
  ((9 <=? c) && (c <=? 13) || (c =? 32) || (128 <=? c) && isspace c)%N.

(** Code points of the digit zero of every decimal digit system of Unicode
    (general category Nd); the digits 0..9 of a system are consecutive. *)
Definition decimal_zeros : list N :=
  [48; 1632; 1776; 1984; 2406; 2534; 2662; 2790; 2918; 3046; 3174; 3302;
   3430; 3558; 3664; 3792; 3872; 4160; 4240; 6112; 6160; 6470; 6608; 6784;
   6800; 6992; 7088; 7232; 7248; 42528; 43216; 43264; 43472; 43504; 43600;
   44016; 65296; 66720; 68912; 69734; 69872; 69942; 70096; 70384; 70736;
   70864; 71248; 71360; 71472; 71904; 72016; 72784; 73040; 73120; 92768;
   92864; 93008; 120782; 120792; 120802; 120812; 120822; 123200; 123632;
   125264; 130032]%N.

(** Decimal value of a character, if it is a decimal digit. *)
Definition decimal_value (c : char) : option Z :=
  match find (fun z => (z <=? c) && (c <? z + 10))%N decimal_zeros with
  | Some z => Some (Z.of_N (c - z))
  | None => None
  end.

Definition underscore : char := 95%N.
Definition plus_sign : char := 43%N.
Definition minus_sign : char := 45%N.

(** The digits of the literal: at least one digit, single underscores
    allowed between digits only. [after_digit] tells whether the previous
    character was a digit. *)
Fixpoint int_digits (s : pystr) (acc : Z) (after_digit : bool) : option Z :=
  match s with
  | [] => if after_digit then Some acc else None
  | c :: t =>
      if char_eqb c underscore then
        if after_digit then int_digits t acc false else None
      else
        match decimal_value c with
        | Some d => int_digits t (10 * acc + d) true
        | None => None
        end
  end.

(** Default of [sys.get_int_max_str_digits()]: a longer literal is refused
    with [ValueError]. *)
Definition int_max_str_digits : nat := 4300.

Definition count_digits (s : pystr) : nat :=
  length (filter (fun c => negb (char_eqb c underscore)) s).

Definition strip_int_space (s : pystr) : pystr :=
  let fix drop (s : pystr) : pystr :=
    match s with
    | [] => []
    | c :: t => if int_space c then drop t else s
    end in
  rev (drop (rev (drop s))).

(** [int(s)] for a [str] argument, base 10. *)
Definition py_int (s : pystr) : pyresult Z :=
  let body := strip_int_space s in
  let '(negative, digits) :=
    match body with
    | c :: t =>
        if char_eqb c minus_sign then (true, t)
        else if char_eqb c plus_sign then (false, t)
        else (false, body)
    | [] => (false, body)
    end in
  match int_digits digits 0 false with
  | Some v =>
      if (int_max_str_digits <? count_digits digits)%nat then Raise ValueError
      else Ok (if negative then (- v)%Z else v)
  | None => Raise ValueError
  end.

(** ** Floats *)

(** Python floats are IEEE 754 binary64 numbers. *)
Definition prec : Z := 53.
Definition emax : Z := 1024.

(** The float nearest to an integer (ties to even). *)
Definition float_of_Z (z : Z) : spec_float :=
  binary_normalize prec emax z 0 false.

(** Conversion of an [int] operand of a float operation: [OverflowError]
    when the integer is too large for a float. *)
Definition float_of_int (z : Z) : pyresult spec_float :=
  match float_of_Z z with
  | S754_infinity _ => Raise OverflowError
  | f => Ok f
  end.

(** [int(x)] for a float: truncation towards zero. *)
Definition int_of_float (x : spec_float) : pyresult Z :=
  match x with
  | S754_zero _ => Ok 0%Z
  | S754_finite s m e =>
      let a := match e with
               | Z0 => Zpos m
               | Zpos p => Z.shiftl (Zpos m) (Zpos p)
               | Zneg p => Z.shiftr (Zpos m) (Zpos p)
               end in
      Ok (if s then (- a)%Z else a)
  | S754_infinity _ => Raise OverflowError
  | S754_nan => Raise ValueError
  end.

(** ** Formatting integers *)

Fixpoint uint_digits (d : Decimal.uint) : pystr :=
  match d with
  | Decimal.Nil => []
  | Decimal.D0 r => 48%N :: uint_digits r
  | Decimal.D1 r => 49%N :: uint_digits r
  | Decimal.D2 r => 50%N :: uint_digits r
  | Decimal.D3 r => 51%N :: uint_digits r
  | Decimal.D4 r => 52%N :: uint_digits r
  | Decimal.D5 r => 53%N :: uint_digits r
  | Decimal.D6 r => 54%N :: uint_digits r
  | Decimal.D7 r => 55%N :: uint_digits r
  | Decimal.D8 r => 56%N :: uint_digits r
  | Decimal.D9 r => 57%N :: uint_digits r
  end.

(** Decimal digits of a magnitude; ["0"] for zero. *)
Definition digits_of (n : N) : pystr := uint_digits (N.to_uint n).

(** [str(z)], the replacement field [{z}] of an f-string. *)
Definition str_of_int (z : Z) : pystr :=
  (if (z <? 0)%Z then [minus_sign] else []) ++ digits_of (Z.abs_N z).

(** [format(z, "0Wd")], the replacement field [{z:0Wd}]: the sign first,
    then zeros up to a total width of [W], then the digits. *)
Definition format_0d (width : nat) (z : Z) : pystr :=
  let sign := if (z <? 0)%Z then [minus_sign] else [] in
  let digits := digits_of (Z.abs_N z) in
  sign ++ repeat 48%N (width - length sign - length digits) ++ digits.

(** ** Insertion-ordered dictionaries *)

(** A [dict] with [str] keys: the keys are distinct and iteration follows
    the order of first insertion. *)
Definition pydict (V : Type) := list (pystr * V).

Fixpoint dict_get {V} (d : pydict V) (k : pystr) : option V :=
  match d with
  | [] => None
  | (k', v) :: rest => if pystr_eqb k' k then Some v else dict_get rest k
  end.

(** [d[k] = v]: an existing key keeps its place. *)
Fixpoint dict_set {V} (d : pydict V) (k : pystr) (v : V) : pydict V :=
  match d with
  | [] => [(k, v)]
  | (k', v') :: rest =>
      if pystr_eqb k' k then (k', v) :: rest
      else (k', v') :: dict_set rest k v
  end.

(** [k in d] *)
Definition dict_mem {V} (d : pydict V) (k : pystr) : bool :=
  match dict_get d k with Some _ => true | None => false end.

(** [d[k]], raising [KeyError] for a missing key. *)
Definition dict_item {V} (d : pydict V) (k : pystr) : pyresult V :=
  match dict_get d k with Some v => Ok v | None => Raise KeyError end.

(** [xs[i]] on a list for [i >= 0], raising [IndexError] out of range. *)
Definition list_item {A} (xs : list A) (i : nat) : pyresult A :=
  match nth_error xs i with Some x => Ok x | None => Raise IndexError end.

(** ** Data model *)

(** A dialogue record: the dict [{'character': ..., 'lines': {...}}].
    ['character'] starts as [None]; the keys of ['lines'] are language
    tags. *)
Record dialogue := mk_dialogue {
  character : option pystr;
  lines : pydict pystr
}.

(** A text of a cue: the dict [{'speaker': ..., 'text': ...}]. *)
Record text_entry := mk_text_entry {
  speaker : pystr;
  text : pystr
}.

(** A cue: the dict [{'start': ..., 'end': ..., 'texts': [...]}]. *)
Record entry := mk_entry {
  start : pystr;
  end_ : pystr;
  texts : list text_entry
}.

(** [enumerate(xs)] *)
Definition enumerate {A} (xs : list A) : list (nat * A) :=
  combine (seq 0 (length xs)) xs.

(** * phase_main_do_all.py *)

Module PhaseMain.

(** ** class DialogueParser *)

Definition languages : list pystr :=
  [lit "ko"; lit "ja"; lit "ja_hiragana"; lit "en"].

(** The separator between a character name and its line. *)
Definition colon_sep : pystr := lit " : ".

(** Body of the [for idx, line in enumerate(lines[:4])] loop. *)
Definition group_body (dialogue_dict : dialogue) (idx : nat) (line : pystr)
  : dialogue :=
  let line := strip line in
  if negb (truthy line) then dialogue_dict
  else if contains colon_sep line then
    let parts := split_n 1 colon_sep line in
    let character_ := strip (nth 0 parts []) in
    let text_ := if (1 <? length parts)%nat then strip (nth 1 parts []) else [] in
    let d1 :=
      if (idx =? 0)%nat
      then mk_dialogue (Some character_) (lines dialogue_dict)
      else dialogue_dict in
    if (idx <? length languages)%nat
    then mk_dialogue (character d1)
                     (dict_set (lines d1) (nth idx languages []) text_)
    else d1
  else
    if (idx <? length languages)%nat
    then mk_dialogue (character dialogue_dict)
                     (dict_set (lines dialogue_dict) (nth idx languages []) line)
    else dialogue_dict.

(** The dictionary after the loop over the first four lines. *)
Definition scan_group (ls : list pystr) : dialogue :=
  fold_left (fun d '(idx, line) => group_body d idx line)
            (enumerate (firstn 4 ls))
            (mk_dialogue None []).

(** Truth value of [dialogue_dict['character']]. *)
Definition character_set (d : dialogue) : bool :=
  match character d with
  | Some c => truthy c
  | None => false
  end.

(** [DialogueParser._parse_dialogue_group]; the result [None] of the
    source is [None] here. *)
Definition _parse_dialogue_group (ls : list pystr) : option dialogue :=
  if (length ls <? 4)%nat then None
  else
    let dialogue_dict := scan_group ls in
    if (length (lines dialogue_dict) =? 4)%nat && character_set dialogue_dict
    then Some dialogue_dict
    else None.

(** The [while i < len(lines)] loop of [parse_file], with the lines of the
    file, the cursor [i] and [self.dialogues]. A returned group is a dict
    with two keys, so [if dialogue_group] tests for [None] only. The
    result is [None] only when the fuel is used up before the loop ends. *)
Fixpoint parse_loop (fuel : nat) (ls : list pystr) (i : nat)
         (dialogues : list dialogue) : option (list dialogue) :=
  if (i <? length ls)%nat then
    match fuel with
    | O => None
    | S fuel' =>
        if negb (truthy (strip (nth i ls []))) then
          parse_loop fuel' ls (i + 1) dialogues
        else
          let first_line := strip (nth i ls []) in
          if contains colon_sep first_line then
            match _parse_dialogue_group (slice ls i (i + 4)) with
            | Some dialogue_group =>
                parse_loop fuel' ls (i + 4) (dialogues ++ [dialogue_group])
            | None => parse_loop fuel' ls (i + 1) dialogues
            end
          else parse_loop fuel' ls (i + 1) dialogues
    end
  else Some dialogues.

(** [DialogueParser.parse_file], on the result of [f.readlines()]: every
    turn of the loop moves the cursor forward, so one unit of fuel per
    line is enough. *)
Definition parse_file (ls : list pystr) : option (list dialogue) :=
  parse_loop (length ls) ls 0 [].

(** ** class SBVConverter *)

(** The attributes of a converter that the modelled methods read or
    write. *)
Record SBVConverter := mk_SBVConverter {
  dialogue_data : list dialogue;
  dialogue_index_map : pydict nat;
  sequence_data : list entry;
  missing_translations : pydict nat
}.

(** [SBVConverter._build_dialogue_index]: the loop over
    [enumerate(self.dialogue_data)], writing [self.dialogue_index_map]. *)
Fixpoint build_index_loop (items : list (nat * dialogue)) (index : pydict nat)
  : pyresult (pydict nat) :=
  match items with
  | [] => Ok index
  | (idx, d) :: rest =>
      ja_text <- dict_item (lines d) (lit "ja") ;;
      let normalized := remove_whitespace ja_text in
      build_index_loop rest (dict_set index normalized idx)
  end.

Definition _build_dialogue_index (self : SBVConverter) : pyresult SBVConverter :=
  index <- build_index_loop (enumerate (dialogue_data self))
                            (dialogue_index_map self) ;;
  Ok (mk_SBVConverter (dialogue_data self) index
                      (sequence_data self) (missing_translations self)).

(** [SBVConverter.__init__]; the path of the sequence file is kept for
    [open] only. *)
Definition __init__ (dialogue_data_ : list dialogue) : pyresult SBVConverter :=
  _build_dialogue_index
    (mk_SBVConverter dialogue_data_ [] []
       [(lit "ko", 0); (lit "en", 0); (lit "ja", 0)]).

(** [int((frames / 30.0) * 1000)] *)
Definition frames_to_milliseconds (frames : Z) : pyresult Z :=
  f <- float_of_int frames ;;
  int_of_float
    (SFmul prec emax (SFdiv prec emax f (float_of_Z 30)) (float_of_Z 1000)).

(** [SBVConverter.convert_timecode] *)
Definition convert_timecode (premiere_time : pystr) : pyresult pystr :=
  let parts := split (lit ";") premiere_time in
  if negb (length parts =? 4)%nat then Ok premiere_time
  else
    hours <- py_int (nth 0 parts []) ;;
    minutes <- py_int (nth 1 parts []) ;;
    seconds <- py_int (nth 2 parts []) ;;
    frames <- py_int (nth 3 parts []) ;;
    milliseconds <- frames_to_milliseconds frames ;;
    Ok (str_of_int hours ++ lit ":" ++ format_0d 2 minutes ++ lit ":"
        ++ format_0d 2 seconds ++ lit "." ++ format_0d 3 milliseconds).

(** [' - ' in line and ';' in line] *)
Definition is_timecode_line (line : pystr) : bool :=
  contains (lit " - ") line && contains (lit ";") line.

(** [line.startswith('V') and ',' in line] *)
Definition is_tag_line (line : pystr) : bool :=
  startswith line (lit "V") && contains (lit ",") line.

(** The inner [while j < len(lines)] loop: [rest] is [lines[j:]]; the
    result is the final [j] and [text_lines]. *)
Fixpoint collect_text (rest : list pystr) (j : nat) (text_lines : list pystr)
  : nat * list pystr :=
  match rest with
  | [] => (j, text_lines)
  | l :: rest' =>
      let next_line := strip l in
      if negb (truthy next_line) then (j, text_lines)
      else if is_tag_line next_line then (j, text_lines)
      else if is_timecode_line next_line then (j, text_lines)
      else collect_text rest' (j + 1) (text_lines ++ [next_line])
  end.

(** The local state of [parse_sequence_file] together with
    [self.sequence_data]. *)
Record seq_state := mk_seq_state {
  cursor : nat;
  current_entry : option entry;
  emitted : list entry
}.

(** [current_entry and current_entry.get('texts')] *)
Definition has_texts (current : option entry) : bool :=
  match current with
  | Some e => match texts e with [] => false | _ => true end
  | None => false
  end.

(** [self.sequence_data.append(current_entry)] under the test above. *)
Definition flush (current : option entry) (data : list entry) : list entry :=
  match current with
  | Some e => if has_texts current then data ++ [e] else data
  | None => data
  end.

(** One turn of the outer loop of [parse_sequence_file], up to and
    including [i += 1]. *)
Definition seq_body (ls : list pystr) (st : seq_state) : pyresult seq_state :=
  let i := cursor st in
  let line := strip (nth i ls []) in
  if is_timecode_line line then
    let times := split (lit " - ") line in
    if (length times =? 2)%nat then
      start_time <- convert_timecode (nth 0 times []) ;;
      end_time <- convert_timecode (nth 1 times []) ;;
      Ok (mk_seq_state (i + 1)
            (Some (mk_entry start_time end_time []))
            (flush (current_entry st) (emitted st)))
    else Ok (mk_seq_state (i + 1) (current_entry st) (emitted st))
  else if is_tag_line line then
    let parts := split (lit ",") line in
    let speaker_type := strip (nth 0 parts []) in
    let speaker_num :=
      if (1 <? length parts)%nat then strip (nth 1 parts []) else lit "1" in
    let '(j, text_lines) := collect_text (skipn (i + 1) ls) (i + 1) [] in
    let current :=
      match text_lines, current_entry st with
      | _ :: _, Some e =>
          Some (mk_entry (start e) (end_ e)
                  (texts e ++ [mk_text_entry
                                 (speaker_type ++ lit "_" ++ speaker_num)
                                 (join (lit " ") text_lines)]))
      | _, current => current
      end in
    Ok (mk_seq_state (j - 1 + 1) current (emitted st))
  else Ok (mk_seq_state (i + 1) (current_entry st) (emitted st)).

(** The outer [while i < len(lines)] loop. The result is the state at the
    end of the loop, or the state at the turn in which [convert_timecode]
    raised, with the exception. [None] only when the fuel is used up. *)
Fixpoint seq_loop (fuel : nat) (ls : list pystr) (st : seq_state)
  : option (seq_state * option exn) :=
  if (cursor st <? length ls)%nat then
    match fuel with
    | O => None
    | S fuel' =>
        match seq_body ls st with
        | Ok st' => seq_loop fuel' ls st'
        | Raise e => Some (st, Some e)
        end
    end
  else Some (st, None).

(** [SBVConverter.parse_sequence_file], on the result of [f.readlines()]:
    the converter after the call and whether the call raised. An exception
    leaves [self.sequence_data] as the loop had built it. *)
Definition parse_sequence_file (ls : list pystr) (self : SBVConverter)
  : option (SBVConverter * pyresult unit) :=
  match seq_loop (length ls) ls (mk_seq_state 0 None (sequence_data self)) with
  | None => None
  | Some (st, Some e) =>
      Some (mk_SBVConverter (dialogue_data self) (dialogue_index_map self)
              (emitted st) (missing_translations self), Raise e)
  | Some (st, None) =>
      Some (mk_SBVConverter (dialogue_data self) (dialogue_index_map self)
              (flush (current_entry st) (emitted st))
              (missing_translations self), Ok tt)
  end.

(** The partial-match scan of [find_matching_dialogue] over
    [self.dialogue_index_map.items()]. *)
Fixpoint scan_index (data : list dialogue) (normalized : pystr)
         (items : list (pystr * nat)) : pyresult (option dialogue) :=
  match items with
  | [] => Ok None
  | (key, idx) :: rest =>
      if contains (take 50 normalized) key || contains key normalized
      then d <- list_item data idx ;; Ok (Some d)
      else scan_index data normalized rest
  end.

(** [SBVConverter.find_matching_dialogue], on [self.dialogue_data] and
    [self.dialogue_index_map]. *)
Definition find_matching_dialogue (data : list dialogue) (index : pydict nat)
           (japanese_text : pystr) : pyresult (option dialogue) :=
  let normalized := remove_whitespace japanese_text in
  if dict_mem index normalized then
    idx <- dict_item index normalized ;;
    d <- list_item data idx ;;
    Ok (Some d)
  else scan_index data normalized index.

(** The marker for a text without translation,
    [f"[번역 없음: {japanese_text[:30]}...]"]. *)
Definition placeholder (japanese_text : pystr) : pystr :=
  [0x5b; 0xbc88; 0xc5ed; 0x20; 0xc5c6; 0xc74c; 0x3a; 0x20]%N
  ++ take 30 japanese_text ++ lit "...]".

(** Body of the [for text_entry in entry['texts']] loop, on
    [caption_texts] and [missing_count]. A matched record is a dict with
    two keys, so [if matched_dialogue] tests for [None] only. *)
Definition caption_body (data : list dialogue) (index : pydict nat)
           (language : pystr) (acc : list pystr * nat) (text_entry_ : text_entry)
  : pyresult (list pystr * nat) :=
  let '(caption_texts, missing_count) := acc in
  let japanese_text := text text_entry_ in
  matched_dialogue <- find_matching_dialogue data index japanese_text ;;
  match matched_dialogue with
  | Some d =>
      if dict_mem (lines d) language then
        v <- dict_item (lines d) language ;;
        Ok (caption_texts ++ [v], missing_count)
      else Ok (caption_texts, missing_count)
  | None =>
      if pystr_eqb language (lit "ja")
      then Ok (caption_texts ++ [japanese_text], missing_count)
      else Ok (caption_texts ++ [placeholder japanese_text], missing_count + 1)
  end.

(** A [for] loop whose body may raise. *)
Fixpoint for_each {A S} (body : S -> A -> pyresult S) (xs : list A) (s : S)
  : pyresult S :=
  match xs with
  | [] => Ok s
  | x :: rest => s' <- body s x ;; for_each body rest s'
  end.

Definition newline : pystr := [10%N].

(** Body of the [for entry in self.sequence_data] loop, on [sbv_lines] and
    [missing_count]. *)
Definition entry_body (data : list dialogue) (index : pydict nat)
           (language : pystr) (acc : list pystr * nat) (e : entry)
  : pyresult (list pystr * nat) :=
  let '(sbv_lines, missing_count) := acc in
  let sbv_lines := sbv_lines ++ [start e ++ lit "," ++ end_ e] in
  r <- for_each (caption_body data index language) (texts e)
                ([], missing_count) ;;
  let '(caption_texts, missing_count) := r in
  let sbv_lines :=
    match caption_texts with
    | _ :: _ => sbv_lines ++ [join newline caption_texts]
    | [] => sbv_lines ++ [[]]
    end in
  Ok (sbv_lines ++ [[]], missing_count).

(** [SBVConverter.create_sbv_content]: the converter after the call and
    the returned text; an exception leaves the converter as it was. *)
Definition create_sbv_content (language : pystr) (self : SBVConverter)
  : SBVConverter * pyresult pystr :=
  match for_each (entry_body (dialogue_data self) (dialogue_index_map self)
                             language)
                 (sequence_data self) ([], 0) with
  | Ok (sbv_lines, missing_count) =>
      (mk_SBVConverter (dialogue_data self) (dialogue_index_map self)
         (sequence_data self)
         (dict_set (missing_translations self) language missing_count),
       Ok (join newline sbv_lines))
  | Raise e => (self, Raise e)
  end.

(** ** class MainProcessor *)

(** Equality of two values of ['character'], each a [str] or [None]. *)
Definition character_eqb (a b : option pystr) : bool :=
  match a, b with
  | Some x, Some y => pystr_eqb x y
  | None, None => true
  | _, _ => false
  end.

(** [character_counts.get(char, 0)] *)
Fixpoint counts_get (counts : list (option pystr * nat)) (char_ : option pystr)
  : nat :=
  match counts with
  | [] => 0
  | (k, v) :: rest => if character_eqb k char_ then v else counts_get rest char_
  end.

(** [character_counts[char] = v] *)
Fixpoint counts_set (counts : list (option pystr * nat)) (char_ : option pystr)
         (v : nat) : list (option pystr * nat) :=
  match counts with
  | [] => [(char_, v)]
  | (k, v') :: rest =>
      if character_eqb k char_ then (k, v) :: rest
      else (k, v') :: counts_set rest char_ v
  end.

(** The statistics loop of [process_all] (and of [print_summary] in
    phase01): [character_counts[char] = character_counts.get(char, 0) + 1]
    for every dialogue. *)
Definition character_counts (dialogue_data_ : list dialogue)
  : list (option pystr * nat) :=
  fold_left (fun counts d =>
               let char_ := character d in
               counts_set counts char_ (counts_get counts char_ + 1))
            dialogue_data_ [].





End PhaseMain.

(** * phase01_data_to_json_converter.py *)

Module Phase01.

Definition languages : list pystr :=
  [lit "ko"; lit "ja"; lit "ja_hiragana"; lit "en"].

Definition colon_sep : pystr := lit " : ".

(** Body of the [for idx, line in enumerate(lines[:4])] loop. *)
Definition group_body (dialogue_dict : dialogue) (idx : nat) (line : pystr)
  : dialogue :=
  let line := strip line in
  if negb (truthy line) then dialogue_dict
  else if contains colon_sep line then
    let parts := split_n 1 colon_sep line in
    let character_ := strip (nth 0 parts []) in
    let text_ := if (1 <? length parts)%nat then strip (nth 1 parts []) else [] in
    let d1 :=
      if (idx =? 0)%nat
      then mk_dialogue (Some character_) (lines dialogue_dict)
      else dialogue_dict in
    if (idx <? length languages)%nat
    then mk_dialogue (character d1)
                     (dict_set (lines d1) (nth idx languages []) text_)
    else d1
  else
    if (idx <? length languages)%nat
    then mk_dialogue (character dialogue_dict)
                     (dict_set (lines dialogue_dict) (nth idx languages []) line)
    else dialogue_dict.

Definition scan_group (ls : list pystr) : dialogue :=
  fold_left (fun d '(idx, line) => group_body d idx line)
            (enumerate (firstn 4 ls))
            (mk_dialogue None []).

Definition character_set (d : dialogue) : bool :=
  match character d with
  | Some c => truthy c
  | None => false
  end.

(** [DialogueParser._parse_dialogue_group] *)
Definition _parse_dialogue_group (ls : list pystr) : option dialogue :=
  if (length ls <? 4)%nat then None
  else
    let dialogue_dict := scan_group ls in
    if (length (lines dialogue_dict) =? 4)%nat && character_set dialogue_dict
    then Some dialogue_dict
    else None.

(** The [while i < len(lines)] loop of [parse_file]. *)
Fixpoint parse_loop (fuel : nat) (ls : list pystr) (i : nat)
         (dialogues : list dialogue) : option (list dialogue) :=
  if (i <? length ls)%nat then
    match fuel with
    | O => None
    | S fuel' =>
        if negb (truthy (strip (nth i ls []))) then
          parse_loop fuel' ls (i + 1) dialogues
        else
          let first_line := strip (nth i ls []) in
          if contains colon_sep first_line then
            match _parse_dialogue_group (slice ls i (i + 4)) with
            | Some dialogue_group =>
                parse_loop fuel' ls (i + 4) (dialogues ++ [dialogue_group])
            | None => parse_loop fuel' ls (i + 1) dialogues
            end
          else parse_loop fuel' ls (i + 1) dialogues
    end
  else Some dialogues.

(** [DialogueParser.parse_file] *)
Definition parse_file (ls : list pystr) : option (list dialogue) :=
  parse_loop (length ls) ls 0 [].

(** The statistics loop of [print_summary]. *)
Definition character_counts (dialogues : list dialogue)
  : list (option pystr * nat) :=
  fold_left (fun counts d =>
               let char_ := character d in
               PhaseMain.counts_set counts char_
                 (PhaseMain.counts_get counts char_ + 1))
            dialogues [].

End Phase01.

(** * phase02_sequesce_to_sbv_converter.py *)

Module Phase02.

(** [int((frames / 30.0) * 1000)] *)
Definition frames_to_milliseconds (frames : Z) : pyresult Z :=
  f <- float_of_int frames ;;
  int_of_float
    (SFmul prec emax (SFdiv prec emax f (float_of_Z 30)) (float_of_Z 1000)).

(** [SBVConverter.convert_timecode] *)
Definition convert_timecode (premiere_time : pystr) : pyresult pystr :=
  let parts := split (lit ";") premiere_time in
  if negb (length parts =? 4)%nat then Ok premiere_time
  else
    hours <- py_int (nth 0 parts []) ;;
    minutes <- py_int (nth 1 parts []) ;;
    seconds <- py_int (nth 2 parts []) ;;
    frames <- py_int (nth 3 parts []) ;;
    milliseconds <- frames_to_milliseconds frames ;;
    Ok (str_of_int hours ++ lit ":" ++ format_0d 2 minutes ++ lit ":"
        ++ format_0d 2 seconds ++ lit "." ++ format_0d 3 milliseconds).

(** The loop of [load_dialogue_json] that fills
    [self.dialogue_index_map]. *)
Fixpoint index_loop (items : list (nat * dialogue)) (index : pydict nat)
  : pyresult (pydict nat) :=
  match items with
  | [] => Ok index
  | (idx, d) :: rest =>
      ja_text <- dict_item (lines d) (lit "ja") ;;
      let normalized := remove_whitespace ja_text in
      index_loop rest (dict_set index normalized idx)
  end.

(** The partial-match scan of [find_matching_dialogue]. *)
Fixpoint scan_index (data : list dialogue) (normalized : pystr)
         (items : list (pystr * nat)) : pyresult (option dialogue) :=
  match items with
  | [] => Ok None
  | (key, idx) :: rest =>
      if contains (take 50 normalized) key || contains key normalized
      then d <- list_item data idx ;; Ok (Some d)
      else scan_index data normalized rest
  end.

(** [SBVConverter.find_matching_dialogue] *)
Definition find_matching_dialogue (data : list dialogue) (index : pydict nat)
           (japanese_text : pystr) : pyresult (option dialogue) :=
  let normalized := remove_whitespace japanese_text in
  if dict_mem index normalized then
    idx <- dict_item index normalized ;;
    d <- list_item data idx ;;
    Ok (Some d)
  else scan_index data normalized index.

(** The attributes of a converter of phase02 that the modelled methods
    read or write. *)
Record SBVConverter := mk_SBVConverter {
  sequence_data : list entry;
  dialogue_data : list dialogue;
  dialogue_index_map : pydict nat
}.

Definition is_timecode_line (line : pystr) : bool :=
  contains (lit " - ") line && contains (lit ";") line.

Definition is_tag_line (line : pystr) : bool :=
  startswith line (lit "V") && contains (lit ",") line.

(** The inner [while j < len(lines)] loop. *)
Fixpoint collect_text (rest : list pystr) (j : nat) (text_lines : list pystr)
  : nat * list pystr :=
  match rest with
  | [] => (j, text_lines)
  | l :: rest' =>
      let next_line := strip l in
      if negb (truthy next_line) then (j, text_lines)
      else if is_tag_line next_line then (j, text_lines)
      else if is_timecode_line next_line then (j, text_lines)
      else collect_text rest' (j + 1) (text_lines ++ [next_line])
  end.

Definition has_texts (current : option entry) : bool :=
  match current with
  | Some e => match texts e with [] => false | _ => true end
  | None => false
  end.

Definition flush (current : option entry) (data : list entry) : list entry :=
  match current with
  | Some e => if has_texts current then data ++ [e] else data
  | None => data
  end.

(** One turn of the outer loop of [parse_sequence_file]; the state is the
    one of phase_main. *)
Definition seq_body (ls : list pystr) (st : PhaseMain.seq_state)
  : pyresult PhaseMain.seq_state :=
  let i := PhaseMain.cursor st in
  let line := strip (nth i ls []) in
  if is_timecode_line line then
    let times := split (lit " - ") line in
    if (length times =? 2)%nat then
      start_time <- convert_timecode (nth 0 times []) ;;
      end_time <- convert_timecode (nth 1 times []) ;;
      Ok (PhaseMain.mk_seq_state (i + 1)
            (Some (mk_entry start_time end_time []))
            (flush (PhaseMain.current_entry st) (PhaseMain.emitted st)))
    else Ok (PhaseMain.mk_seq_state (i + 1) (PhaseMain.current_entry st)
                                    (PhaseMain.emitted st))
  else if is_tag_line line then
    let parts := split (lit ",") line in
    let speaker_type := strip (nth 0 parts []) in
    let speaker_num :=
      if (1 <? length parts)%nat then strip (nth 1 parts []) else lit "1" in
    let '(j, text_lines) := collect_text (skipn (i + 1) ls) (i + 1) [] in
    let current :=
      match text_lines, PhaseMain.current_entry st with
      | _ :: _, Some e =>
          Some (mk_entry (start e) (end_ e)
                  (texts e ++ [mk_text_entry
                                 (speaker_type ++ lit "_" ++ speaker_num)
                                 (join (lit " ") text_lines)]))
      | _, current => current
      end in
    Ok (PhaseMain.mk_seq_state (j - 1 + 1) current (PhaseMain.emitted st))
  else Ok (PhaseMain.mk_seq_state (i + 1) (PhaseMain.current_entry st)
                                  (PhaseMain.emitted st)).

Fixpoint seq_loop (fuel : nat) (ls : list pystr) (st : PhaseMain.seq_state)
  : option (PhaseMain.seq_state * option exn) :=
  if (PhaseMain.cursor st <? length ls)%nat then
    match fuel with
    | O => None
    | S fuel' =>
        match seq_body ls st with
        | Ok st' => seq_loop fuel' ls st'
        | Raise e => Some (st, Some e)
        end
    end
  else Some (st, None).

(** [SBVConverter.parse_sequence_file]; the count printed at the end is
    left out. *)
Definition parse_sequence_file (ls : list pystr) (self : SBVConverter)
  : option (SBVConverter * pyresult unit) :=
  match seq_loop (length ls) ls
                 (PhaseMain.mk_seq_state 0 None (sequence_data self)) with
  | None => None
  | Some (st, Some e) =>
      Some (mk_SBVConverter (PhaseMain.emitted st) (dialogue_data self)
                            (dialogue_index_map self), Raise e)
  | Some (st, None) =>
      Some (mk_SBVConverter
              (flush (PhaseMain.current_entry st) (PhaseMain.emitted st))
              (dialogue_data self) (dialogue_index_map self), Ok tt)
  end.

(** [SBVConverter.load_dialogue_json], on the value of [data['dialogues']]
    of the document read. *)
Definition load_dialogue_json (dialogues : list dialogue) (self : SBVConverter)
  : pyresult SBVConverter :=
  index <- index_loop (enumerate dialogues) (dialogue_index_map self) ;;
  Ok (mk_SBVConverter (sequence_data self) dialogues index).

Definition placeholder (japanese_text : pystr) : pystr :=
  [0x5b; 0xbc88; 0xc5ed; 0x20; 0xc5c6; 0xc74c; 0x3a; 0x20]%N
  ++ take 30 japanese_text ++ lit "...]".

(** Body of the [for text_entry in entry['texts']] loop, on
    [caption_texts]. *)
Definition caption_body (data : list dialogue) (index : pydict nat)
           (language : pystr) (caption_texts : list pystr)
           (text_entry_ : text_entry) : pyresult (list pystr) :=
  let japanese_text := text text_entry_ in
  matched_dialogue <- find_matching_dialogue data index japanese_text ;;
  match matched_dialogue with
  | Some d =>
      if dict_mem (lines d) language then
        v <- dict_item (lines d) language ;;
        Ok (caption_texts ++ [v])
      else Ok caption_texts
  | None =>
      if pystr_eqb language (lit "ja")
      then Ok (caption_texts ++ [japanese_text])
      else Ok (caption_texts ++ [placeholder japanese_text])
  end.

(** Body of the [for entry in self.sequence_data] loop, on [sbv_lines]. *)
Definition entry_body (data : list dialogue) (index : pydict nat)
           (language : pystr) (sbv_lines : list pystr) (e : entry)
  : pyresult (list pystr) :=
  let sbv_lines := sbv_lines ++ [start e ++ lit "," ++ end_ e] in
  caption_texts <- PhaseMain.for_each (caption_body data index language)
                                      (texts e) [] ;;
  let sbv_lines :=
    match caption_texts with
    | _ :: _ => sbv_lines ++ [join PhaseMain.newline caption_texts]
    | [] => sbv_lines ++ [[]]
    end in
  Ok (sbv_lines ++ [[]]).

(** [SBVConverter.create_sbv_content] *)
Definition create_sbv_content (language : pystr) (self : SBVConverter)
  : pyresult pystr :=
  sbv_lines <- PhaseMain.for_each
                 (entry_body (dialogue_data self) (dialogue_index_map self)
                             language)
                 (sequence_data self) [] ;;
  Ok (join PhaseMain.newline sbv_lines).

End Phase02.

(** * Vocabulary of the properties *)

(** The test of the partial-match scan,
    [normalized[:50] in key or key in normalized]. *)
Definition partial_match (normalized key : pystr) : bool :=
  contains (take 50 normalized) key || contains key normalized.

(** An index over [data]: distinct keys, every position inside [data]. *)
Definition index_ok (data : list dialogue) (index : pydict nat) : Prop :=
  NoDup (map fst index)
  /\ forall key idx, In (key, idx) index -> idx < length data.



(** A string of whitespace only (or empty). *)
Definition blank (s : pystr) : bool := forallb isspace s.

(** A line of a dialogue group as the script format has it: a name, the
    separator and a text, or a bare text. *)
Inductive line_form :=
| Tagged (name text_ : pystr)
| Bare (text_ : pystr).

(** The line of the file. *)
Definition raw_line (f : line_form) : pystr :=
  match f with
  | Tagged name text_ => name ++ PhaseMain.colon_sep ++ text_
  | Bare text_ => text_
  end.

(** The text of the line, without the surrounding whitespace. *)
Definition variant (f : line_form) : pystr :=
  match f with
  | Tagged _ text_ => strip text_
  | Bare text_ => strip text_
  end.

(** Well-formed lines: name and text are not blank; the separator after
    the name is the first one of the line (the name neither contains the
    separator nor ends in [" :"]); a bare text has no separator. *)
Definition line_ok (f : line_form) : Prop :=
  match f with
  | Tagged name text_ =>
      strip name <> [] /\ strip text_ <> []
      /\ contains PhaseMain.colon_sep (name ++ lit " ") = false
  | Bare text_ =>
      strip text_ <> [] /\ contains PhaseMain.colon_sep (strip text_) = false
  end.

(** A dialogue group: the first line carries the name of the speaker. *)
Record group := mk_group {
  name0 : pystr;
  text0 : pystr;
  line1 : line_form;
  line2 : line_form;
  line3 : line_form
}.

Definition group_lines (g : group) : list pystr :=
  [raw_line (Tagged (name0 g) (text0 g)); raw_line (line1 g);
   raw_line (line2 g); raw_line (line3 g)].

Definition group_ok (g : group) : Prop :=
  line_ok (Tagged (name0 g) (text0 g)) /\ line_ok (line1 g)
  /\ line_ok (line2 g) /\ line_ok (line3 g).

(** The record a group stands for. *)
Definition record_of (g : group) : dialogue :=
  mk_dialogue (Some (strip (name0 g)))
    [(lit "ko", strip (text0 g)); (lit "ja", variant (line1 g));
     (lit "ja_hiragana", variant (line2 g)); (lit "en", variant (line3 g))].

(** A script: groups, and between them lines without the separator (blank
    lines among them). *)
Inductive item :=
| Skipped (l : pystr)
| Group (g : group).

Definition item_ok (it : item) : Prop :=
  match it with
  | Skipped l => contains PhaseMain.colon_sep (strip l) = false
  | Group g => group_ok g
  end.

Definition item_lines (it : item) : list pystr :=
  match it with
  | Skipped l => [l]
  | Group g => group_lines g
  end.

Definition script_lines (doc : list item) : list pystr :=
  flat_map item_lines doc.

Definition script_records (doc : list item) : list dialogue :=
  flat_map (fun it => match it with
                      | Skipped _ => []
                      | Group g => [record_of g]
                      end) doc.

(** One turn of the [while] loop of [parse_file] at line [i]: the record
    it appends, if any, and the next value of [i]. *)
Definition turn (ls : list pystr) (i : nat) : list dialogue * nat :=
  if negb (truthy (strip (nth i ls []))) then ([], i + 1)
  else
    let first_line := strip (nth i ls []) in
    if contains PhaseMain.colon_sep first_line then
      match PhaseMain._parse_dialogue_group (slice ls i (i + 4)) with
      | Some dialogue_group => ([dialogue_group], i + 4)
      | None => ([], i + 1)
      end
    else ([], i + 1).

Definition appended (ls : list pystr) (i : nat) : list dialogue :=
  fst (turn ls i).

Definition next_cursor (ls : list pystr) (i : nat) : nat :=
  snd (turn ls i).

(** The values of [i] at which the turns of the loop start, from [i] on. *)
Fixpoint cursors_from (fuel : nat) (ls : list pystr) (i : nat) : list nat :=
  if (i <? length ls)%nat then
    match fuel with
    | O => []
    | S fuel' => i :: cursors_from fuel' ls (next_cursor ls i)
    end
  else [].

(** The lines at which the loop of [parse_file] starts a turn: line 0,
    and after a turn the line four on when the turn appended a record,
    the next line otherwise. *)
Definition cursors (ls : list pystr) : list nat :=
  cursors_from (length ls) ls 0.

(** A record as the parser may emit it: a non-empty speaker and a text
    that is not blank for each of the four language tags, and no other
    tag. *)
Definition valid_record (d : dialogue) : Prop :=
  (exists c, character d = Some c /\ c <> [])
  /\ length (lines d) = 4
  /\ forall tag, In tag PhaseMain.languages ->
                 exists v, dict_get (lines d) tag = Some v /\ blank v = false.

(** The key under which a record is indexed: its Japanese line without
    whitespace; [None] for a record without the tag [ja]. *)
Definition ja_key (d : dialogue) : option pystr :=
  option_map remove_whitespace (dict_get (lines d) (lit "ja")).

Definition has_key (k : pystr) (d : dialogue) : bool :=
  match ja_key d with
  | Some k' => pystr_eqb k' k
  | None => false
  end.

(** The position of the last record with a given key. *)
Fixpoint last_pos (xs : list dialogue) (k : pystr) : option nat :=
  match xs with
  | [] => None
  | d :: rest =>
      match last_pos rest k with
      | Some p => Some (S p)
      | None => if has_key k d then Some 0 else None
      end
  end.

(** The timecode [HH;MM;SS;FF] of the editor, two digits a field. *)
Definition editor_timecode (hh mm ss ff : nat) : pystr :=
  format_0d 2 (Z.of_nat hh) ++ lit ";" ++ format_0d 2 (Z.of_nat mm) ++ lit ";"
  ++ format_0d 2 (Z.of_nat ss) ++ lit ";" ++ format_0d 2 (Z.of_nat ff).

(** Positions of groups that do not overlap: each at least four lines
    after the one before, the first one not before [lo]. *)
Fixpoint spaced (lo : nat) (js : list nat) : Prop :=
  match js with
  | [] => True
  | j :: rest => lo <= j /\ spaced (j + 4) rest
  end.

(** A line that opens a cue: a timecode marker with exactly two time
    tokens. *)
Definition opens_cue (l : pystr) : bool :=
  PhaseMain.is_timecode_line (strip l)
  && (length (split (lit " - ") (strip l)) =? 2).

(** A cue all of whose texts have something to show. *)
Definition cue_texts_ok (e : entry) : Prop :=
  Forall (fun t => blank (text t) = false) (texts e).

(** The caption lines one cue text gives in a language: the text of the
    matching record, if the record has the language; without a matching
    record the source text for [ja] and otherwise the marker
    [[번역 없음: ] (code points 5B BC88 C5ED 20 C5C6 C74C 3A 20), the first
    30 characters of the source text and [...]]. *)
Definition captions_for (data : list dialogue) (index : pydict nat)
           (language : pystr) (t : text_entry) : list pystr :=
  match PhaseMain.find_matching_dialogue data index (text t) with
  | Ok (Some d) =>
      match dict_get (lines d) language with
      | Some v => [v]
      | None => []
      end
  | Ok None =>
      if pystr_eqb language (lit "ja") then [text t]
      else [[0x5b; 0xbc88; 0xc5ed; 0x20; 0xc5c6; 0xc74c; 0x3a; 0x20]%N
              ++ take 30 (text t) ++ lit "...]"]
  | Raise _ => []
  end.

(** The three lines of a cue in a subtitle file: timecodes, captions and
    an empty line. *)
Definition cue_block (data : list dialogue) (index : pydict nat)
           (language : pystr) (e : entry) : list pystr :=
  [start e ++ lit "," ++ end_ e;
   join PhaseMain.newline (flat_map (captions_for data index language) (texts e));
   []].

(** *** Timeline exports *)

(** A line that is neither a timecode marker nor a speaker tag. *)
Definition inert (l : pystr) : Prop :=
  PhaseMain.is_timecode_line (strip l) = false
  /\ PhaseMain.is_tag_line (strip l) = false.

(** A line of text under a speaker tag. *)
Definition text_line_ok (l : pystr) : Prop :=
  strip l <> [] /\ inert l.

(** A speaker block: the tag line, its lines of text, and the lines up to
    the next block or marker. *)
Record speaker_block := mk_speaker_block {
  tag_line : pystr;
  block_texts : list pystr;
  gap : list pystr
}.

(** The gap after a block is empty or starts with a blank line; its other
    lines are inert. *)
Definition gap_ok (g : list pystr) : Prop :=
  match g with
  | [] => True
  | l :: rest => strip l = [] /\ Forall inert rest
  end.

(** What ends the lines of text of a block: the end of the file, a blank
    line, a speaker tag or a timecode marker. *)
Definition stops_text (rest : list pystr) : Prop :=
  match rest with
  | [] => True
  | l :: _ =>
      strip l = [] \/ PhaseMain.is_tag_line (strip l) = true
      \/ PhaseMain.is_timecode_line (strip l) = true
  end.

Definition speaker_block_ok (b : speaker_block) : Prop :=
  PhaseMain.is_timecode_line (strip (tag_line b)) = false
  /\ PhaseMain.is_tag_line (strip (tag_line b)) = true
  /\ block_texts b <> []
  /\ Forall text_line_ok (block_texts b)
  /\ gap_ok (gap b).

Definition speaker_block_lines (b : speaker_block) : list pystr :=
  tag_line b :: block_texts b ++ gap b.

(** The speaker of a tag line, [f"{speaker_type}_{speaker_num}"]. *)
Definition speaker_id (tag : pystr) : pystr :=
  let parts := split (lit ",") (strip tag) in
  strip (nth 0 parts []) ++ lit "_"
  ++ (if (1 <? length parts)%nat then strip (nth 1 parts []) else lit "1").

(** The text entry a block stands for. *)
Definition block_entry (b : speaker_block) : text_entry :=
  mk_text_entry (speaker_id (tag_line b))
                (join (lit " ") (map strip (block_texts b))).

(** A cue in the export: the marker line, inert lines after it, and the
    speaker blocks. *)
Record cue_source := mk_cue_source {
  marker_line : pystr;
  lead : list pystr;
  blocks : list speaker_block
}.

(** The converted times of a marker line, when both convert. *)
Definition marker_times (m : pystr) : option (pystr * pystr) :=
  match split (lit " - ") (strip m) with
  | [a; b] =>
      match PhaseMain.convert_timecode a, PhaseMain.convert_timecode b with
      | Ok s, Ok e => Some (s, e)
      | _, _ => None
      end
  | _ => None
  end.

Definition cue_source_ok (c : cue_source) : Prop :=
  PhaseMain.is_timecode_line (strip (marker_line c)) = true
  /\ marker_times (marker_line c) <> None
  /\ Forall inert (lead c)
  /\ Forall speaker_block_ok (blocks c).

Definition cue_source_lines (c : cue_source) : list pystr :=
  marker_line c :: lead c ++ flat_map speaker_block_lines (blocks c).

(** The cue a source stands for. *)
Definition cue_entry (c : cue_source) : entry :=
  let '(s, e) := match marker_times (marker_line c) with
                 | Some p => p
                 | None => ([], [])
                 end in
  mk_entry s e (map block_entry (blocks c)).

(** The cues of an export: those of the sources with at least one block. *)
Definition export_cues (cues : list cue_source) : list entry :=
  map cue_entry
      (filter (fun c => match blocks c with [] => false | _ => true end) cues).

(** ** Sample data *)

(** [こんにちは。] *)
Definition konnichiwa : pystr :=
  [0x3053; 0x3093; 0x306b; 0x3061; 0x306f; 0x3002]%N.

(** [はじめまして。] *)
Definition hajimemashite : pystr :=
  [0x306f; 0x3058; 0x3081; 0x307e; 0x3057; 0x3066; 0x3002]%N.

(** Two records as [parse_file] produces them. *)
Definition sample_dialogues : list dialogue :=
  [ mk_dialogue (Some (lit "arona"))
      [(lit "ko", lit "annyeonghaseyo."); (lit "ja", konnichiwa);
       (lit "ja_hiragana", konnichiwa); (lit "en", lit "Hello.")];
    mk_dialogue (Some (lit "plana"))
      [(lit "ko", lit "annyeonghasimnikka."); (lit "ja", hajimemashite);
       (lit "ja_hiragana", hajimemashite); (lit "en", lit "Nice to meet you.")] ].

Definition sample_index : pydict nat :=
  [(konnichiwa, 0); (hajimemashite, 1)].

(** [こん にちは。] with an ideographic space inside and a line break at
    the end. *)
Definition konnichiwa_spaced : pystr :=
  [0x3053; 0x3093; 0x3000; 0x306b; 0x3061; 0x306f; 0x3002; 10]%N.

(** Records as a JSON document can hold them: the Japanese line of the
    second one is a single space. *)
Definition blank_ja_dialogues : list dialogue :=
  [ mk_dialogue (Some (lit "a")) [(lit "ja", lit "x")];
    mk_dialogue (Some (lit "b")) [(lit "ja", lit " ")] ].

(** A timeline export with one marker and one speaker block, in ASCII. *)
Definition sample_sequence : list pystr :=
  [ lit "00;00;24;17 - 00;00;29;15" ++ PhaseMain.newline;
    lit "V5, 1" ++ PhaseMain.newline;
    lit "konnichiwa" ++ PhaseMain.newline;
    PhaseMain.newline;
    lit "00;00;29;15 - 00;00;36;09" ++ PhaseMain.newline ].

Definition empty_converter : PhaseMain.SBVConverter :=
  PhaseMain.mk_SBVConverter [] [] [] [(lit "ko", 0); (lit "en", 0); (lit "ja", 0)].

(** A converter without dialogue records and with one cue of one text. *)
Definition unmatched_converter : PhaseMain.SBVConverter :=
  PhaseMain.mk_SBVConverter [] []
    [mk_entry (lit "0:00:24.566") (lit "0:00:29.500")
       [mk_text_entry (lit "V5_1") (lit "konnichiwa")]]
    [(lit "ko", 0); (lit "en", 0); (lit "ja", 0)].

(** The script of the module docstring of phase01, in ASCII, as
    [readlines] returns it. *)
Definition sample_script : list item :=
  [ Group (mk_group (lit "arona") (lit "annyeonghaseyo." ++ PhaseMain.newline)
             (Tagged (lit "arona") (lit "konnichiwa." ++ PhaseMain.newline))
             (Bare (lit "konnichiwa, hiragana." ++ PhaseMain.newline))
             (Tagged (lit "arona") (lit "Hello. I'm Arona." ++ PhaseMain.newline)));
    Skipped PhaseMain.newline;
    Group (mk_group (lit "plana") (lit "annyeonghasimnikka." ++ PhaseMain.newline)
             (Tagged (lit "plana") (lit "hajimemashite." ++ PhaseMain.newline))
             (Tagged (lit "plana") (lit "hajimemashite, hiragana." ++ PhaseMain.newline))
             (Tagged (lit "plana") (lit "Nice to meet you."))) ].

(** The first group of the sample script. *)
Definition sample_group : group :=
  mk_group (lit "arona") (lit "annyeonghaseyo." ++ PhaseMain.newline)
    (Tagged (lit "arona") (lit "konnichiwa." ++ PhaseMain.newline))
    (Bare (lit "konnichiwa, hiragana." ++ PhaseMain.newline))
    (Tagged (lit "arona") (lit "Hello. I'm Arona." ++ PhaseMain.newline)).

(** A heading with the separator and an empty line before the group; an
    empty line and a group cut short after two lines behind it. *)
Definition sample_heading : list pystr :=
  [ lit "title : intro" ++ PhaseMain.newline; PhaseMain.newline ].

Definition sample_short_group : list pystr :=
  [ PhaseMain.newline;
    lit "plana : annyeonghasimnikka." ++ PhaseMain.newline;
    lit "plana : hajimemashite." ].

(** A line with the separator directly before the group. *)
Definition sample_stray_line : list pystr :=
  [ lit "x : 1" ++ PhaseMain.newline ].

(** ** Proof automation *)

(** Well-formedness of an explicit index, by enumeration of its items. *)
Ltac explicit_index_ok :=
  split;
  [ repeat constructor; simpl; intuition discriminate
  | intros ? ? I; simpl in I;
    repeat (destruct I as [I|I]; [injection I as <- <-; simpl; lia|]);
    destruct I ].

(** The export of the module docstring of phase02, in ASCII. *)
Definition sample_export : list cue_source :=
  [ mk_cue_source (lit "00;00;00;00 - 00;00;24;17" ++ PhaseMain.newline) []
      [ mk_speaker_block (lit "V7, 1" ++ PhaseMain.newline)
          [lit "ver 0.7.0 out!" ++ PhaseMain.newline] [PhaseMain.newline] ];
    mk_cue_source (lit "00;00;24;17 - 00;00;29;15" ++ PhaseMain.newline) []
      [ mk_speaker_block (lit "V5, 1" ++ PhaseMain.newline)
          [lit "konnichiwa." ++ PhaseMain.newline] [PhaseMain.newline] ];
    mk_cue_source (lit "00;00;29;15 - 00;00;36;09" ++ PhaseMain.newline) []
      [ mk_speaker_block (lit "V5, 1" ++ PhaseMain.newline)
          [lit "konnichiwa." ++ PhaseMain.newline] [];
        mk_speaker_block (lit "V5, 2" ++ PhaseMain.newline)
          [lit "hajimemashite." ++ PhaseMain.newline;
           lit "yoroshiku." ++ PhaseMain.newline] [] ];
    mk_cue_source (lit "00;00;36;09 - 00;00;40;00" ++ PhaseMain.newline)
      [PhaseMain.newline] [] ].

(** * Properties *)

(** ** The runtime model *)

(** The runtime model on a few literals. *)
Example py_int_examples :
  map py_int [lit "17"; lit " 5 "; lit "-05"; lit "1_0"; lit "+7"]
    = [Ok 17%Z; Ok 5%Z; Ok (-5)%Z; Ok 10%Z; Ok 7%Z]
  /\ map py_int [lit ""; lit "aa"; lit "_1"; lit "1_"; lit "1__0"; lit "+-5";
                 lit "- 5"; lit "0x10"; lit "1.0"; [28; 53]%N]
     = repeat (Raise ValueError) 10
  /\ py_int [0x3000; 0x665; 0xa0]%N = Ok 5%Z.
Proof. repeat split; vm_compute; reflexivity. Qed.

Example format_examples :
  map (format_0d 2) [5; 123; -5; 0]%Z
    = [lit "05"; lit "123"; lit "-5"; lit "00"]
  /\ format_0d 3 (-5) = lit "-05"
  /\ map str_of_int [0; -12; 340]%Z = [lit "0"; lit "-12"; lit "340"].
Proof. repeat split; vm_compute; reflexivity. Qed.


Import PhaseMain.


(** ** Strings *)

Lemma char_eqb_eq (a b : char) : char_eqb a b = true <-> a = b.
Proof. apply N.eqb_eq. Qed.

Lemma pystr_eqb_eq (a b : pystr) : pystr_eqb a b = true <-> a = b.
Proof.
  revert b; induction a as [|x a IH]; intros [|y b]; simpl;
    try (split; congruence).
  rewrite andb_true_iff, char_eqb_eq, IH. split.
  - intros [-> ->]; reflexivity.
  - intros H; injection H; auto.
Qed.

Lemma pystr_eqb_refl (a : pystr) : pystr_eqb a a = true.
Proof. apply pystr_eqb_eq; reflexivity. Qed.

Lemma pystr_eqb_neq (a b : pystr) : pystr_eqb a b = false <-> a <> b.
Proof.
  rewrite <- pystr_eqb_eq. destruct (pystr_eqb a b); split; congruence.
Qed.

Lemma startswith_iff (s p : pystr) :
  startswith s p = true <-> exists t, s = p ++ t.
Proof.
  revert s; induction p as [|x p IH]; intros s.
  - destruct s; simpl; split; eauto.
  - simpl. destruct s as [|y s].
    + split; [discriminate | intros [t H]; discriminate].
    + simpl. rewrite andb_true_iff, char_eqb_eq, IH. split.
      * intros [-> [t ->]]; eauto.
      * intros [t H]; injection H as -> ->; eauto.
Qed.

Lemma startswith_app (p t : pystr) : startswith (p ++ t) p = true.
Proof. apply startswith_iff; eauto. Qed.

(** [find_sub] returns the position of the leftmost occurrence. *)
Lemma find_sub_Some (sub s : pystr) (i : nat) :
  find_sub sub s = Some i ->
  exists pre post,
    s = pre ++ sub ++ post /\ length pre = i
    /\ forall j, j < i -> startswith (skipn j s) sub = false.
Proof.
  revert i; induction s as [|c s IH]; intros i.
  - cbn [find_sub]. destruct (startswith [] sub) eqn:E; [|discriminate].
    intros [= <-]. apply startswith_iff in E as [t E].
    exists [], t. repeat split; auto. lia.
  - cbn [find_sub]. destruct (startswith (c :: s) sub) eqn:E.
    + intros [= <-]. apply startswith_iff in E as [t E].
      exists [], t. repeat split; auto. lia.
    + destruct (find_sub sub s) as [k|] eqn:F; [|discriminate].
      intros [= <-]. destruct (IH k eq_refl) as (pre & post & -> & L & N).
      exists (c :: pre), post. repeat split; simpl; auto.
      intros [|j] Hj; simpl; auto. apply N; lia.
Qed.

Lemma find_sub_None (sub s : pystr) :
  find_sub sub s = None -> forall pre post, s <> pre ++ sub ++ post.
Proof.
  induction s as [|c s IH]; cbn [find_sub].
  - destruct (startswith [] sub) eqn:E; [discriminate|].
    intros _ pre post H. destruct pre; [|discriminate].
    simpl in H. rewrite H, startswith_app in E. discriminate.
  - destruct (startswith (c :: s) sub) eqn:E; [discriminate|].
    destruct (find_sub sub s) eqn:F; [discriminate|].
    intros _ [|x pre] post H.
    + simpl in H. rewrite H, startswith_app in E. discriminate.
    + injection H as _ H. exact (IH eq_refl _ _ H).
Qed.

Lemma contains_iff (sub s : pystr) :
  contains sub s = true <-> exists pre post, s = pre ++ sub ++ post.
Proof.
  unfold contains. destruct (find_sub sub s) as [i|] eqn:F.
  - split; auto. intros _.
    destruct (find_sub_Some _ _ _ F) as (pre & post & H & _); eauto.
  - split; [discriminate|]. intros (pre & post & H).
    exfalso; exact (find_sub_None _ _ F _ _ H).
Qed.

Lemma contains_false (sub s : pystr) :
  contains sub s = false <-> forall pre post, s <> pre ++ sub ++ post.
Proof.
  split.
  - intros H pre post E.
    assert (contains sub s = true) by (apply contains_iff; eauto). congruence.
  - intros H. destruct (contains sub s) eqn:E; auto.
    apply contains_iff in E as (pre & post & E). destruct (H _ _ E).
Qed.

(** The leftmost occurrence, from a decomposition with no occurrence
    starting inside the part before. *)
Lemma find_sub_first (sub pre post : pystr) :
  (forall j, j < length pre -> startswith (skipn j (pre ++ sub ++ post)) sub = false) ->
  find_sub sub (pre ++ sub ++ post) = Some (length pre).
Proof.
  induction pre as [|c pre IH]; intros H.
  - simpl. destruct (sub ++ post) eqn:E;
      cbn [find_sub]; rewrite <- E, startswith_app; reflexivity.
  - pose proof (H 0 ltac:(simpl; lia)) as H0. cbn [skipn app] in H0.
    cbn [app find_sub length]. rewrite H0, IH; auto.
    intros j Hj. apply (H (S j)). simpl; lia.
Qed.

(** Splitting at a one-character separator gives one field more than
    there are separators. *)
Lemma find_sub_char (c : char) (s : pystr) :
  find_sub [c] s =
  match s with
  | [] => None
  | x :: t => if char_eqb c x then Some 0 else option_map S (find_sub [c] t)
  end.
Proof.
  destruct s as [|x t]; cbn [find_sub startswith]; auto.
  destruct t; rewrite andb_true_r; reflexivity.
Qed.

Lemma find_sub_char_None (c : char) (s : pystr) :
  find_sub [c] s = None -> count_occ N.eq_dec s c = 0.
Proof.
  induction s as [|x t IH]; rewrite find_sub_char; auto.
  destruct (char_eqb c x) eqn:E; [discriminate|].
  destruct (find_sub [c] t); [discriminate|]. intros _.
  simpl. destruct (N.eq_dec x c) as [->|]; auto.
  unfold char_eqb in E. rewrite N.eqb_refl in E. discriminate.
Qed.

Lemma find_sub_char_Some (c : char) (s : pystr) (i : nat) :
  find_sub [c] s = Some i ->
  count_occ N.eq_dec s c = S (count_occ N.eq_dec (skipn (i + 1) s) c).
Proof.
  revert i; induction s as [|x t IH]; intros i; rewrite find_sub_char.
  - discriminate.
  - destruct (char_eqb c x) eqn:E.
    + intros [= <-]. apply char_eqb_eq in E as ->. simpl.
      destruct (N.eq_dec x x); congruence.
    + destruct (find_sub [c] t) as [k|]; [|discriminate].
      intros [= <-]. cbn [Nat.add skipn]. simpl count_occ at 1.
      destruct (N.eq_dec x c) as [->|]; auto.
      unfold char_eqb in E. rewrite N.eqb_refl in E. discriminate.
Qed.

Lemma split_n_char_length (c : char) (n : nat) (s : pystr) :
  count_occ N.eq_dec s c <= n ->
  length (split_n n [c] s) = S (count_occ N.eq_dec s c).
Proof.
  revert s; induction n as [|n IH]; intros s H; cbn [split_n].
  - simpl. lia.
  - destruct (find_sub [c] s) as [i|] eqn:F.
    + pose proof (find_sub_char_Some _ _ _ F) as E.
      cbn [length]. rewrite IH; cbn [length] in *; lia.
    + rewrite (find_sub_char_None _ _ F). reflexivity.
Qed.

Lemma split_char_length (c : char) (s : pystr) :
  length (split [c] s) = S (count_occ N.eq_dec s c).
Proof. apply split_n_char_length, count_occ_bound. Qed.

(** [split]: cuts beyond the length of the string never happen, so the
    limit that [split] passes to [split_n] is no limit. *)
Lemma find_sub_nil (sep : pystr) : sep <> [] -> find_sub sep [] = None.
Proof. destruct sep; [congruence | reflexivity]. Qed.

Lemma split_n_enough (sep : pystr) (n m : nat) (s : pystr) :
  sep <> [] -> length s <= n -> length s <= m ->
  split_n n sep s = split_n m sep s.
Proof.
  intros Hsep. revert m s; induction n as [|n IH]; intros m s Hn Hm.
  - destruct s; [|cbn in Hn; lia].
    destruct m; cbn [split_n]; rewrite ?find_sub_nil; auto.
  - destruct m as [|m].
    + destruct s; [|cbn in Hm; lia].
      cbn [split_n]. rewrite find_sub_nil; auto.
    + cbn [split_n]. destruct (find_sub sep s) as [i|]; auto.
      f_equal. assert (0 < length sep) by (destruct sep; [congruence | cbn; lia]).
      apply IH; rewrite length_skipn; lia.
Qed.

(** ** Stripping *)

Lemma lstrip_nil (s : pystr) : lstrip s = [] <-> blank s = true.
Proof.
  induction s as [|c s IH]; simpl; [tauto|].
  destruct (isspace c); simpl; [exact IH|]. split; discriminate.
Qed.

Lemma lstrip_head (s : pystr) (c : char) (r : pystr) :
  lstrip s = c :: r -> isspace c = false.
Proof.
  induction s as [|x s IH]; simpl; [discriminate|].
  destruct (isspace x) eqn:E; auto. intros [= <- _]. exact E.
Qed.

Lemma lstrip_suffix (s : pystr) : exists ws, s = ws ++ lstrip s.
Proof.
  induction s as [|c s [ws IH]]; simpl.
  - exists []. reflexivity.
  - destruct (isspace c).
    + exists (c :: ws). simpl. f_equal. exact IH.
    + exists []. reflexivity.
Qed.

Lemma lstrip_app (a b : pystr) :
  lstrip a <> [] -> lstrip (a ++ b) = lstrip a ++ b.
Proof.
  induction a as [|c a IH]; simpl; [tauto|].
  destruct (isspace c); auto.
Qed.

Lemma lstrip_blank_app (a b : pystr) :
  blank a = true -> lstrip (a ++ b) = lstrip b.
Proof.
  induction a as [|c a IH]; simpl; auto.
  destruct (isspace c); simpl; [auto | discriminate].
Qed.

Lemma lstrip_fixed (c : char) (r : pystr) :
  isspace c = false -> lstrip (c :: r) = c :: r.
Proof. intros H. simpl. rewrite H. reflexivity. Qed.

Lemma lstrip_idem (s : pystr) : lstrip (lstrip s) = lstrip s.
Proof.
  destruct (lstrip s) as [|c r] eqn:E; auto.
  apply lstrip_fixed. exact (lstrip_head _ _ _ E).
Qed.

Lemma blank_rev (s : pystr) : blank (rev s) = blank s.
Proof.
  unfold blank. induction s as [|c s IH]; simpl; auto.
  rewrite forallb_app, IH. simpl. rewrite andb_true_r, andb_comm. reflexivity.
Qed.

Lemma rstrip_nil (s : pystr) : rstrip s = [] <-> blank s = true.
Proof.
  unfold rstrip. rewrite <- blank_rev, <- lstrip_nil.
  split; intros H.
  - apply (f_equal (@rev _)) in H. rewrite rev_involutive in H. exact H.
  - rewrite H. reflexivity.
Qed.

Lemma rstrip_app (a b : pystr) :
  rstrip b <> [] -> rstrip (a ++ b) = a ++ rstrip b.
Proof.
  unfold rstrip. intros H. rewrite rev_app_distr, lstrip_app.
  - rewrite rev_app_distr, rev_involutive. reflexivity.
  - intros E. rewrite E in H. apply H. reflexivity.
Qed.

Lemma rstrip_cons (c : char) (s : pystr) :
  rstrip (c :: s)
  = if blank s then (if isspace c then [] else [c]) else c :: rstrip s.
Proof.
  destruct (blank s) eqn:B.
  - unfold rstrip. simpl rev. rewrite lstrip_blank_app
      by (rewrite blank_rev; exact B).
    simpl. destruct (isspace c); reflexivity.
  - change (c :: s) with ([c] ++ s). apply rstrip_app.
    rewrite rstrip_nil. congruence.
Qed.

Lemma rstrip_idem (s : pystr) : rstrip (rstrip s) = rstrip s.
Proof.
  unfold rstrip. rewrite rev_involutive, lstrip_idem. reflexivity.
Qed.

Lemma lstrip_rstrip (s : pystr) : lstrip (rstrip s) = rstrip (lstrip s).
Proof.
  induction s as [|c s IH]; auto.
  rewrite rstrip_cons. simpl lstrip at 2.
  destruct (isspace c) eqn:C.
  - destruct (blank s) eqn:B.
    + apply lstrip_nil in B. rewrite B. reflexivity.
    + simpl. rewrite C. exact IH.
  - rewrite rstrip_cons. destruct (blank s); rewrite ?C; simpl; rewrite C; auto.
Qed.

Lemma strip_nil (s : pystr) : strip s = [] <-> blank s = true.
Proof.
  unfold strip. rewrite <- lstrip_rstrip, lstrip_nil.
  split; intros H.
  - apply rstrip_nil in H. rewrite rstrip_idem in H.
    apply rstrip_nil. exact H.
  - apply rstrip_nil in H. rewrite H. reflexivity.
Qed.

Lemma truthy_strip (s : pystr) : truthy (strip s) = negb (blank s).
Proof.
  destruct (blank s) eqn:B.
  - apply strip_nil in B. rewrite B. reflexivity.
  - destruct (strip s) eqn:E; auto.
    apply strip_nil in E. congruence.
Qed.

Lemma strip_lstrip (s : pystr) : strip (lstrip s) = strip s.
Proof. unfold strip. rewrite lstrip_idem. reflexivity. Qed.

Lemma strip_rstrip (s : pystr) : strip (rstrip s) = strip s.
Proof. unfold strip. rewrite lstrip_rstrip, rstrip_idem. reflexivity. Qed.

(** A stripped string is empty or starts with a character that is not
    whitespace. *)
Lemma strip_head (s : pystr) (c : char) (r : pystr) :
  strip s = c :: r -> isspace c = false.
Proof.
  unfold strip. rewrite <- lstrip_rstrip. apply lstrip_head.
Qed.

(** Stripping a line [name : text] whose two parts are not blank only
    touches the outer ends. *)
Lemma strip_tagged (n sep t : pystr) :
  blank n = false -> blank t = false ->
  strip (n ++ sep ++ t) = lstrip n ++ sep ++ rstrip t.
Proof.
  intros Bn Bt. unfold strip. rewrite lstrip_app.
  - rewrite app_assoc, rstrip_app, <- app_assoc; auto.
    rewrite rstrip_nil. congruence.
  - rewrite lstrip_nil. congruence.
Qed.

Lemma rstrip_app_blank (a b : pystr) :
  blank b = true -> rstrip (a ++ b) = rstrip a.
Proof.
  intros B. unfold rstrip. rewrite rev_app_distr, lstrip_blank_app; auto.
  rewrite blank_rev. exact B.
Qed.

Lemma lstrip_length (s : pystr) : length (lstrip s) <= length s.
Proof.
  destruct (lstrip_suffix s) as [ws E]. rewrite E at 2.
  rewrite length_app. lia.
Qed.

Lemma rstrip_length (s : pystr) : length (rstrip s) <= length s.
Proof.
  unfold rstrip. rewrite length_rev.
  etransitivity; [apply lstrip_length|]. rewrite length_rev. lia.
Qed.

Lemma rstrip_strip (s : pystr) : rstrip (strip s) = strip s.
Proof. unfold strip. apply rstrip_idem. Qed.

(** A stripped string that is not empty is not blank. *)
Lemma strip_not_blank (s : pystr) : strip s <> [] -> blank (strip s) = false.
Proof.
  destruct (strip s) as [|c r] eqn:E; [congruence|]. intros _.
  apply strip_head in E. cbn. rewrite E. reflexivity.
Qed.

(** A stripped string does not end in whitespace: what follows its last
    character that is not whitespace is empty. *)
Lemma strip_tail_not_blank (s a b : pystr) :
  strip s = a ++ b -> b <> [] -> blank b = false.
Proof.
  intros E Nb. destruct (blank b) eqn:B; auto. exfalso.
  pose proof (rstrip_strip s) as R. rewrite E in R.
  rewrite rstrip_app_blank in R by exact B.
  pose proof (rstrip_length a) as L. rewrite R, length_app in L.
  destruct b; [congruence | cbn in L; lia].
Qed.

(** ** Timecode conversion *)

(** On the frame numbers of a 30 fps timecode (and up to 968) the float
    computation is the integer quotient [frames * 1000 / 30]. *)
Lemma frames_to_milliseconds_30fps (n : nat) :
  n < 969 ->
  frames_to_milliseconds (Z.of_nat n) = Ok (Z.of_nat n * 1000 / 30)%Z.
Proof.
  intros H.
  assert (A : forallb
    (fun k => match frames_to_milliseconds (Z.of_nat k) with
              | Ok v => (v =? Z.of_nat k * 1000 / 30)%Z
              | Raise _ => false
              end) (seq 0 969) = true) by (vm_compute; reflexivity).
  rewrite forallb_forall in A. specialize (A n).
  destruct (frames_to_milliseconds (Z.of_nat n)).
  - f_equal. apply Z.eqb_eq, A, in_seq. lia.
  - discriminate A. apply in_seq. lia.
Qed.

(** Beyond that the rounding of the division shows: 969 frames give
    32299 and not 32300. *)
Lemma frames_to_milliseconds_969 :
  frames_to_milliseconds 969 = Ok 32299%Z /\ (969 * 1000 / 30 = 32300)%Z.
Proof. split; vm_compute; reflexivity. Qed.

Lemma py_int_raises_ValueError (s : pystr) (e : exn) :
  py_int s = Raise e -> e = ValueError.
Proof.
  unfold py_int.
  destruct (match strip_int_space s with
            | [] => (false, strip_int_space s)
            | c :: t =>
                if char_eqb c minus_sign then (true, t)
                else if char_eqb c plus_sign then (false, t)
                else (false, strip_int_space s)
            end) as [negative digits].
  destruct (int_digits digits 0 false); [|congruence].
  destruct (int_max_str_digits <? count_digits digits); congruence.
Qed.

(** C1, as stated, fails: 17 frames are 566 milliseconds at 30 frames per
    second, so ["00;00;24;17"] is not converted to ["0:00:24.170"]. *)
Lemma convert_timecode_claimed_examples_fail :
  ~ (convert_timecode (lit "00;00;24;17") = Ok (lit "0:00:24.170")
     /\ convert_timecode (lit "00;01;05;15") = Ok (lit "0:01:05.500")).
Proof. intros [H _]. vm_compute in H. discriminate H. Qed.

(** C1, amended: [convert_timecode] maps ["00;00;24;17"] to
    ["0:00:24.566"] and ["00;01;05;15"] to ["0:01:05.500"]. *)
Theorem convert_timecode_examples :
  convert_timecode (lit "00;00;24;17") = Ok (lit "0:00:24.566")
  /\ convert_timecode (lit "00;01;05;15") = Ok (lit "0:01:05.500").
Proof. split; vm_compute; reflexivity. Qed.

(** C5: a string that does not split into exactly four [;]-delimited
    fields is returned unchanged, and no exception is raised. *)
Theorem convert_timecode_passthrough (s : pystr) :
  length (split (lit ";") s) <> 4 -> convert_timecode s = Ok s.
Proof.
  intros H. unfold convert_timecode.
  destruct (length (split (lit ";") s) =? 4) eqn:E; auto.
  apply Nat.eqb_eq in E. contradiction.
Qed.

Lemma convert_timecode_passthrough_witness :
  length (split (lit ";") (lit "00;00;24")) <> 4
  /\ convert_timecode (lit "00;00;24") = Ok (lit "00;00;24").
Proof.
  assert (H : length (split (lit ";") (lit "00;00;24")) <> 4)
    by (vm_compute; discriminate).
  split; [exact H | exact (convert_timecode_passthrough _ H)].
Defined.

(** C10: with exactly four fields, a field that [int()] does not accept
    makes [convert_timecode] raise [ValueError]; the input is not passed
    through. *)
Theorem convert_timecode_bad_field (s : pystr) (k : nat) :
  length (split (lit ";") s) = 4 ->
  k < 4 ->
  (forall z, py_int (nth k (split (lit ";") s) []) <> Ok z) ->
  convert_timecode s = Raise ValueError.
Proof.
  intros L Hk Bad. unfold convert_timecode. rewrite L. cbn [Nat.eqb negb].
  assert (R : forall f, (forall z, py_int f <> Ok z) -> py_int f = Raise ValueError).
  { intros f Hf. destruct (py_int f) as [z|e] eqn:E.
    - destruct (Hf z eq_refl).
    - rewrite (py_int_raises_ValueError _ _ E). reflexivity. }
  assert (V : forall f (K : Z -> pyresult pystr),
             (forall z, K z = Raise ValueError) ->
             (z <- py_int f ;; K z) = Raise ValueError).
  { intros f K HK. destruct (py_int f) as [z|e] eqn:E; cbn [bind]; auto.
    rewrite (py_int_raises_ValueError _ _ E). reflexivity. }
  destruct k as [|[|[|[|k]]]]; [ | | | | lia].
  - rewrite (R _ Bad). reflexivity.
  - apply V; intros h. rewrite (R _ Bad). reflexivity.
  - apply V; intros h. apply V; intros m. rewrite (R _ Bad). reflexivity.
  - apply V; intros h. apply V; intros m. apply V; intros sec.
    rewrite (R _ Bad). reflexivity.
Qed.

Lemma convert_timecode_bad_field_witness :
  length (split (lit ";") (lit "aa;bb;cc;dd")) = 4
  /\ convert_timecode (lit "aa;bb;cc;dd") = Raise ValueError
  /\ convert_timecode (lit "aa;bb;cc;dd") <> Ok (lit "aa;bb;cc;dd").
Proof.
  assert (L : length (split (lit ";") (lit "aa;bb;cc;dd")) = 4)
    by (vm_compute; reflexivity).
  assert (B : forall z, py_int (nth 0 (split (lit ";") (lit "aa;bb;cc;dd")) []) <> Ok z)
    by (intros z; vm_compute; discriminate).
  assert (C : convert_timecode (lit "aa;bb;cc;dd") = Raise ValueError)
    by exact (convert_timecode_bad_field (lit "aa;bb;cc;dd") 0 L ltac:(lia) B).
  repeat split; auto. rewrite C. discriminate.
Defined.

(** ** The copies of the core logic *)

(** C8: the copies of [_parse_dialogue_group] in phase01 and in
    phase_main, and of [convert_timecode] and [find_matching_dialogue] in
    phase02 and in phase_main, return the same results on every input. *)
Theorem duplicated_logic_agrees :
  (forall ls, Phase01._parse_dialogue_group ls = PhaseMain._parse_dialogue_group ls)
  /\ (forall premiere_time,
        Phase02.convert_timecode premiere_time
        = PhaseMain.convert_timecode premiere_time)
  /\ (forall data index japanese_text,
        Phase02.find_matching_dialogue data index japanese_text
        = PhaseMain.find_matching_dialogue data index japanese_text).
Proof. repeat split; intros; reflexivity. Qed.

(** The two loops that build the index are the same function as well. *)
Lemma index_loops_agree (items : list (nat * dialogue)) (index : pydict nat) :
  Phase02.index_loop items index = PhaseMain.build_index_loop items index.
Proof. reflexivity. Qed.

(** ** Dictionaries *)

Lemma dict_get_In {V} (d : pydict V) (k : pystr) (v : V) :
  dict_get d k = Some v -> In (k, v) d.
Proof.
  induction d as [|[k' v'] d IH]; simpl; [discriminate|].
  destruct (pystr_eqb k' k) eqn:E.
  - apply pystr_eqb_eq in E as ->. intros [= ->]. auto.
  - auto.
Qed.

Lemma dict_get_None {V} (d : pydict V) (k : pystr) :
  dict_get d k = None <-> ~ In k (map fst d).
Proof.
  induction d as [|[k' v'] d IH]; simpl; [tauto|].
  destruct (pystr_eqb k' k) eqn:E.
  - apply pystr_eqb_eq in E as ->. split; [discriminate | tauto].
  - apply pystr_eqb_neq in E. rewrite IH. tauto.
Qed.

Lemma dict_get_NoDup {V} (d : pydict V) (k : pystr) (v : V) :
  NoDup (map fst d) -> In (k, v) d -> dict_get d k = Some v.
Proof.
  induction d as [|[k' v'] d IH]; simpl; [tauto|].
  intros N [E|I].
  - injection E as -> ->. rewrite pystr_eqb_refl. reflexivity.
  - inversion N as [|? ? N1 N2]; subst.
    destruct (pystr_eqb k' k) eqn:E; auto.
    apply pystr_eqb_eq in E as ->. destruct N1.
    apply (in_map fst) in I. exact I.
Qed.

Lemma dict_set_In {V} (d : pydict V) (k k' : pystr) (v v' : V) :
  In (k', v') (dict_set d k v) -> (k' = k /\ v' = v) \/ In (k', v') d.
Proof.
  induction d as [|[k0 v0] d IH]; simpl.
  - intros [[= <- <-]|[]]; auto.
  - destruct (pystr_eqb k0 k) eqn:E; simpl.
    + apply pystr_eqb_eq in E as ->. intros [[= <- <-]|I]; auto.
    + intros [E'|I]; auto. destruct (IH I); auto.
Qed.

Lemma dict_set_keys {V} (d : pydict V) (k : pystr) (v : V) (k' : pystr) :
  In k' (map fst (dict_set d k v)) <-> k' = k \/ In k' (map fst d).
Proof.
  induction d as [|[k0 v0] d IH]; simpl.
  - intuition congruence.
  - destruct (pystr_eqb k0 k) eqn:E; simpl.
    + apply pystr_eqb_eq in E as ->. intuition congruence.
    + rewrite IH. tauto.
Qed.

Lemma dict_set_NoDup {V} (d : pydict V) (k : pystr) (v : V) :
  NoDup (map fst d) -> NoDup (map fst (dict_set d k v)).
Proof.
  induction d as [|[k0 v0] d IH]; simpl; intros N.
  - constructor; [simpl; tauto | constructor].
  - inversion N as [|? ? N1 N2]; subst.
    destruct (pystr_eqb k0 k) eqn:E; simpl.
    + constructor; auto.
    + constructor; auto. rewrite dict_set_keys. intros [->|I]; auto.
      rewrite pystr_eqb_refl in E. discriminate.
Qed.

Lemma dict_get_set_same {V} (d : pydict V) (k : pystr) (v : V) :
  dict_get (dict_set d k v) k = Some v.
Proof.
  induction d as [|[k0 v0] d IH]; simpl.
  - rewrite pystr_eqb_refl. reflexivity.
  - destruct (pystr_eqb k0 k) eqn:E; simpl; rewrite ?E; auto.
Qed.

(** ** The index of a converter *)

Lemma enumerate_bound {A} (xs : list A) (i : nat) (x : A) :
  In (i, x) (enumerate xs) -> i < length xs.
Proof.
  unfold enumerate. intros H. apply in_combine_l in H.
  apply in_seq in H. lia.
Qed.

Lemma build_index_loop_ok (data : list dialogue) (items : list (nat * dialogue))
      (index index' : pydict nat) :
  (forall i d, In (i, d) items -> i < length data) ->
  index_ok data index ->
  build_index_loop items index = Ok index' ->
  index_ok data index'.
Proof.
  revert index; induction items as [|[i d] items IH]; intros index B [N R]; simpl.
  - intros [= <-]. split; auto.
  - destruct (dict_item (lines d) (lit "ja")) as [ja_text|e]; cbn [bind];
      [|discriminate].
    apply IH.
    + intros; apply (B i0 d0); simpl; auto.
    + split.
      * apply dict_set_NoDup, N.
      * intros key idx I. apply dict_set_In in I as [[_ ->]|I].
        -- apply (B i d); simpl; auto.
        -- eapply R; eauto.
Qed.

(** Every converter that [__init__] builds has a well-formed index. *)
Lemma init_index_ok (data : list dialogue) (self : SBVConverter) :
  __init__ data = Ok self ->
  index_ok (dialogue_data self) (dialogue_index_map self)
  /\ dialogue_data self = data /\ sequence_data self = [].
Proof.
  unfold __init__, _build_dialogue_index. cbn [dialogue_data dialogue_index_map].
  destruct (build_index_loop (enumerate data) []) as [index|e] eqn:E;
    cbn [bind]; [|discriminate].
  intros [= <-]. cbn.
  assert (O : index_ok data index).
  { apply (build_index_loop_ok data (enumerate data) [] index); auto.
    - intros i d I. eapply enumerate_bound; eauto.
    - split; [constructor | intros ? ? []]. }
  destruct O. repeat split; auto.
Qed.

(** ** Matching *)

Lemma scan_index_first (data : list dialogue) (normalized : pystr)
      (before after : list (pystr * nat)) (key : pystr) (idx : nat) :
  (forall k, In k (map fst before) -> partial_match normalized k = false) ->
  partial_match normalized key = true ->
  scan_index data normalized (before ++ (key, idx) :: after)
  = (d <- list_item data idx ;; Ok (Some d)).
Proof.
  intros B K. induction before as [|[k i] before IH]; cbn [app scan_index].
  - unfold partial_match in K. rewrite K. reflexivity.
  - pose proof (B k (or_introl eq_refl)) as Bk. unfold partial_match in Bk.
    rewrite Bk. apply IH. intros k' I. apply B. simpl; auto.
Qed.

Lemma scan_index_none (data : list dialogue) (normalized : pystr)
      (items : list (pystr * nat)) :
  (forall k, In k (map fst items) -> partial_match normalized k = false) ->
  scan_index data normalized items = Ok None.
Proof.
  induction items as [|[k i] items IH]; intros B; cbn [scan_index]; auto.
  pose proof (B k (or_introl eq_refl)) as Bk. unfold partial_match in Bk.
  rewrite Bk. apply IH. intros k' I. apply B. simpl; auto.
Qed.

Lemma list_item_in_range {A} (xs : list A) (i : nat) :
  i < length xs -> exists x, nth_error xs i = Some x /\ list_item xs i = Ok x.
Proof.
  intros H. unfold list_item. destruct (nth_error xs i) as [x|] eqn:E; eauto.
  apply nth_error_None in E. lia.
Qed.

(** A key equal to the normalized query wins. *)
Lemma find_exact_match
      (data : list dialogue) (index : pydict nat) (japanese_text : pystr)
      (idx : nat) :
  index_ok data index ->
  In (remove_whitespace japanese_text, idx) index ->
  exists d, nth_error data idx = Some d
    /\ find_matching_dialogue data index japanese_text = Ok (Some d).
Proof.
  intros [N R] I. unfold find_matching_dialogue, dict_mem, dict_item.
  rewrite (dict_get_NoDup _ _ _ N I). cbn [bind].
  destruct (list_item_in_range data idx (R _ _ I)) as (d & E1 & E2).
  exists d. rewrite E2. auto.
Qed.

(** Without an equal key, the first key passing the partial-match test
    wins. *)
Lemma find_partial_match
      (data : list dialogue) (index : pydict nat) (japanese_text : pystr)
      (before after : list (pystr * nat)) (key : pystr) (idx : nat) :
  index_ok data index ->
  ~ In (remove_whitespace japanese_text) (map fst index) ->
  index = before ++ (key, idx) :: after ->
  (forall k, In k (map fst before) ->
             partial_match (remove_whitespace japanese_text) k = false) ->
  partial_match (remove_whitespace japanese_text) key = true ->
  exists d, nth_error data idx = Some d
    /\ find_matching_dialogue data index japanese_text = Ok (Some d).
Proof.
  intros [N R] NI -> B K. unfold find_matching_dialogue, dict_mem, dict_item.
  apply dict_get_None in NI. rewrite NI.
  rewrite scan_index_first by assumption.
  destruct (list_item_in_range data idx) as (d & E1 & E2).
  { apply (R key). apply in_or_app. simpl; auto. }
  exists d. rewrite E2. auto.
Qed.

Lemma find_no_match
      (data : list dialogue) (index : pydict nat) (japanese_text : pystr) :
  ~ In (remove_whitespace japanese_text) (map fst index) ->
  (forall k, In k (map fst index) ->
             partial_match (remove_whitespace japanese_text) k = false) ->
  find_matching_dialogue data index japanese_text = Ok None.
Proof.
  intros NI B. unfold find_matching_dialogue, dict_mem, dict_item.
  apply dict_get_None in NI. rewrite NI.
  apply scan_index_none, B.
Qed.

(** C4: [find_matching_dialogue] removes the whitespace of the query; a
    key equal to the normalized query gives the record stored for it;
    with no equal key, the first key of the index, in iteration order,
    that passes the partial-match test gives its record; with no equal key
    and no key passing the test the result is [None]. *)
Theorem find_matching_dialogue_spec
        (data : list dialogue) (index : pydict nat) (japanese_text : pystr) :
  index_ok data index ->
  let normalized := remove_whitespace japanese_text in
  (forall idx, In (normalized, idx) index ->
     exists d, nth_error data idx = Some d
       /\ find_matching_dialogue data index japanese_text = Ok (Some d))
  /\ (~ In normalized (map fst index) ->
      (forall before key idx after,
          index = before ++ (key, idx) :: after ->
          (forall k, In k (map fst before) -> partial_match normalized k = false) ->
          partial_match normalized key = true ->
          exists d, nth_error data idx = Some d
            /\ find_matching_dialogue data index japanese_text = Ok (Some d))
      /\ ((forall k, In k (map fst index) -> partial_match normalized k = false) ->
          find_matching_dialogue data index japanese_text = Ok None)).
Proof.
  intros O normalized. split.
  - intros idx I. exact (find_exact_match data index japanese_text idx O I).
  - intros NI. split.
    + intros before key idx after E B K.
      exact (find_partial_match data index japanese_text before after key idx
               O NI E B K).
    + intros B. exact (find_no_match data index japanese_text NI B).
Qed.

Lemma sample_index_built :
  __init__ sample_dialogues
  = Ok (mk_SBVConverter sample_dialogues sample_index []
          [(lit "ko", 0); (lit "en", 0); (lit "ja", 0)]).
Proof. vm_compute. reflexivity. Qed.

Lemma find_matching_dialogue_spec_witness :
  index_ok sample_dialogues sample_index
  /\ In (remove_whitespace konnichiwa_spaced, 0) sample_index
  /\ exists d, nth_error sample_dialogues 0 = Some d
       /\ find_matching_dialogue sample_dialogues sample_index konnichiwa_spaced
          = Ok (Some d).
Proof.
  assert (O : index_ok sample_dialogues sample_index)
    by explicit_index_ok.
  assert (I : In (remove_whitespace konnichiwa_spaced, 0) sample_index)
    by (left; reflexivity).
  split; [exact O|]. split; [exact I|].
  exact (proj1 (find_matching_dialogue_spec sample_dialogues sample_index
                  konnichiwa_spaced O) 0 I).
Defined.

(** C9, as stated, fails: when the empty string is itself a key, an empty
    query is an exact match and gives the record of that key, which need
    not be the first key of the index. *)
Lemma empty_query_first_key_fails :
  ~ (forall self,
        __init__ blank_ja_dialogues = Ok self ->
        forall japanese_text key0 idx0 rest,
          remove_whitespace japanese_text = [] ->
          dialogue_index_map self = (key0, idx0) :: rest ->
          find_matching_dialogue (dialogue_data self) (dialogue_index_map self)
                                 japanese_text
          = (d <- list_item (dialogue_data self) idx0 ;; Ok (Some d))).
Proof.
  intros H.
  specialize (H (mk_SBVConverter blank_ja_dialogues [(lit "x", 0); ([], 1)] []
                   [(lit "ko", 0); (lit "en", 0); (lit "ja", 0)])
                ltac:(vm_compute; reflexivity)
                (lit "") (lit "x") 0 [([], 1)] eq_refl eq_refl).
  vm_compute in H. discriminate H.
Qed.

(** C9, amended: for a query whose normalization is empty and an index
    with at least one key, [find_matching_dialogue] returns the record of
    the first key of the index when no key is the empty string, and the
    record stored under the empty key when there is one; it never returns
    [None]. *)
Theorem find_matching_dialogue_empty_query
        (data : list dialogue) (index : pydict nat) (japanese_text : pystr)
        (key0 : pystr) (idx0 : nat) (rest : list (pystr * nat)) :
  index_ok data index ->
  remove_whitespace japanese_text = [] ->
  index = (key0, idx0) :: rest ->
  (~ In [] (map fst index) ->
   exists d, nth_error data idx0 = Some d
     /\ find_matching_dialogue data index japanese_text = Ok (Some d))
  /\ (forall idx, In ([], idx) index ->
      exists d, nth_error data idx = Some d
        /\ find_matching_dialogue data index japanese_text = Ok (Some d)).
Proof.
  intros O E ->. split.
  - intros NI.
    apply (find_partial_match data ((key0, idx0) :: rest) japanese_text
             [] rest key0 idx0 O); rewrite ?E; auto.
    + intros k [].
    + unfold partial_match. cbn [take firstn]. destruct key0; reflexivity.
  - intros idx I.
    apply (find_exact_match data ((key0, idx0) :: rest) japanese_text idx O).
    rewrite E. exact I.
Qed.

Lemma find_matching_dialogue_empty_query_witness :
  index_ok sample_dialogues sample_index
  /\ remove_whitespace (lit "  ") = []
  /\ exists d, nth_error sample_dialogues 0 = Some d
       /\ find_matching_dialogue sample_dialogues sample_index (lit "  ")
          = Ok (Some d).
Proof.
  assert (O : index_ok sample_dialogues sample_index)
    by explicit_index_ok.
  assert (N : ~ In [] (map fst sample_index))
    by (simpl; intuition discriminate).
  split; [exact O|]. split; [reflexivity|].
  exact (proj1 (find_matching_dialogue_empty_query sample_dialogues sample_index
                  (lit "  ") konnichiwa 0 [(hajimemashite, 1)]
                  O eq_refl eq_refl) N).
Defined.

(** ** Timeline parsing *)

Lemma collect_text_cursor (rest : list pystr) (j : nat) (acc : list pystr) :
  j <= fst (collect_text rest j acc).
Proof.
  revert j acc; induction rest as [|l rest IH]; intros j acc; simpl; auto.
  destruct (negb (truthy (strip l))); simpl; auto.
  destruct (is_tag_line (strip l)); simpl; auto.
  destruct (is_timecode_line (strip l)); simpl; auto.
  specialize (IH (j + 1) (acc ++ [strip l])). lia.
Qed.

(** A cue goes to [self.sequence_data] only with a non-empty [texts]. *)
Lemma flush_only_with_texts (current : option entry) (data : list entry) :
  exists new, flush current data = data ++ new
    /\ Forall (fun e => texts e <> []) new
    /\ (new = [] \/ exists e, current = Some e /\ new = [e]).
Proof.
  destruct current as [e|]; simpl.
  - destruct (texts e) eqn:T.
    + exists []. rewrite app_nil_r. auto.
    + exists [e]. repeat split; eauto. constructor; auto. congruence.
  - exists []. rewrite app_nil_r. auto.
Qed.

Lemma seq_body_step (ls : list pystr) (st st' : seq_state) :
  seq_body ls st = Ok st' ->
  cursor st < cursor st'
  /\ exists new, emitted st' = emitted st ++ new
       /\ Forall (fun e => texts e <> []) new.
Proof.
  unfold seq_body.
  assert (Z : exists new, emitted st = emitted st ++ new
                /\ Forall (fun e => texts e <> []) new)
    by (exists []; rewrite app_nil_r; auto).
  destruct (is_timecode_line _).
  - destruct (length _ =? 2).
    + destruct (convert_timecode _); cbn [bind]; [|discriminate].
      destruct (convert_timecode _); cbn [bind]; [|discriminate].
      intros [= <-]. cbn. split; [lia|].
      destruct (flush_only_with_texts (current_entry st) (emitted st))
        as (new & E & F & _). eauto.
    + intros [= <-]. cbn. split; [lia | exact Z].
  - destruct (is_tag_line _).
    + pose proof (collect_text_cursor (skipn (cursor st + 1) ls)
                    (cursor st + 1) []) as C.
      destruct (collect_text _ _ _) as [j text_lines]. cbn [fst] in C.
      intros [= <-]. cbn. split; [lia | exact Z].
    + intros [= <-]. cbn. split; [lia | exact Z].
Qed.

Lemma seq_loop_total (ls : list pystr) (fuel : nat) (st : seq_state) :
  length ls - cursor st <= fuel ->
  exists st' r new,
    seq_loop fuel ls st = Some (st', r)
    /\ emitted st' = emitted st ++ new
    /\ Forall (fun e => texts e <> []) new.
Proof.
  revert st; induction fuel as [|fuel IH]; intros st H.
  - cbn [seq_loop]. destruct (cursor st <? length ls) eqn:C.
    + apply Nat.ltb_lt in C. lia.
    + exists st, None, []. rewrite app_nil_r. auto.
  - cbn [seq_loop]. destruct (cursor st <? length ls) eqn:C.
    + destruct (seq_body ls st) as [st1|e] eqn:B.
      * destruct (seq_body_step _ _ _ B) as (Lt & new1 & E1 & F1).
        destruct (IH st1 ltac:(lia)) as (st' & r & new & L & E & F).
        exists st', r, (new1 ++ new). rewrite L, E, E1, app_assoc.
        repeat split; auto. apply Forall_app; auto.
      * exists st, (Some e), []. rewrite app_nil_r. auto.
    + exists st, None, []. rewrite app_nil_r. auto.
Qed.

(** A turn of the loop emits nothing, or emits the cue in progress; the
    latter happens only at a timecode marker and only when the cue has
    texts, and the marker then opens a cue without texts. *)
Lemma seq_body_emits (ls : list pystr) (st st' : seq_state) :
  seq_body ls st = Ok st' ->
  emitted st' = emitted st
  \/ exists e,
      current_entry st = Some e /\ texts e <> []
      /\ emitted st' = emitted st ++ [e]
      /\ is_timecode_line (strip (nth (cursor st) ls [])) = true
      /\ exists start_time end_time,
          current_entry st' = Some (mk_entry start_time end_time []).
Proof.
  unfold seq_body.
  destruct (is_timecode_line _) eqn:M.
  - destruct (length _ =? 2).
    + destruct (convert_timecode _) as [s|]; cbn [bind]; [|discriminate].
      destruct (convert_timecode _) as [t|]; cbn [bind]; [|discriminate].
      intros [= <-]. cbn [emitted current_entry].
      destruct (flush_only_with_texts (current_entry st) (emitted st))
        as (new & E & F & [->|(e & C & ->)]).
      * left. rewrite E. apply app_nil_r.
      * right. exists e. inversion F; subst. repeat split; eauto.
    + intros [= <-]. left. reflexivity.
  - destruct (is_tag_line _).
    + destruct (collect_text _ _ _) as [j text_lines].
      intros [= <-]. left. reflexivity.
    + intros [= <-]. left. reflexivity.
Qed.

(** C6: [parse_sequence_file] always ends, and every cue it adds to
    [self.sequence_data] has at least one entry in [texts] (also when a
    timecode conversion raises): a turn of the loop emits the cue in
    progress only at a timecode marker and only when its [texts] is not
    empty, and so does the end of the input. *)
Theorem parse_sequence_file_cues_have_texts
        (ls : list pystr) (self : SBVConverter) :
  (exists self' r new,
      parse_sequence_file ls self = Some (self', r)
      /\ sequence_data self' = sequence_data self ++ new
      /\ Forall (fun e => texts e <> []) new)
  /\ (forall st st',
         seq_body ls st = Ok st' ->
         emitted st' = emitted st
         \/ exists e,
             current_entry st = Some e /\ texts e <> []
             /\ emitted st' = emitted st ++ [e]
             /\ is_timecode_line (strip (nth (cursor st) ls [])) = true
             /\ exists start_time end_time,
                 current_entry st' = Some (mk_entry start_time end_time []))
  /\ (forall current data,
         flush current data = data
         \/ exists e, current = Some e /\ texts e <> []
                      /\ flush current data = data ++ [e]).
Proof.
  split; [|split].
  - unfold parse_sequence_file.
    destruct (seq_loop_total ls (length ls)
                (mk_seq_state 0 None (sequence_data self)))
      as (st & r & new & L & E & F); [cbn; lia|].
    rewrite L. cbn [emitted] in E. destruct r as [e|].
    + eexists _, _, new. split; [reflexivity|]. cbn. auto.
    + destruct (flush_only_with_texts (current_entry st) (emitted st))
        as (new2 & E2 & F2 & _).
      eexists _, _, (new ++ new2). split; [reflexivity|]. cbn.
      rewrite E2, E, app_assoc. split; auto. apply Forall_app; auto.
  - exact (seq_body_emits ls).
  - intros current data.
    destruct (flush_only_with_texts current data)
      as (new & E & F & [->|(e & C & ->)]).
    + left. rewrite E. apply app_nil_r.
    + right. exists e. inversion F; subst. auto.
Qed.

(** On the sample export: one cue with one text; the marker at the end
    opens a cue that is never emitted. *)
Lemma parse_sequence_file_sample :
  parse_sequence_file sample_sequence empty_converter
  = Some (mk_SBVConverter [] []
            [mk_entry (lit "0:00:24.566") (lit "0:00:29.500")
               [mk_text_entry (lit "V5_1") (lit "konnichiwa")]]
            [(lit "ko", 0); (lit "en", 0); (lit "ja", 0)], Ok tt).
Proof. vm_compute. reflexivity. Qed.

(** ** Rendering *)

Section Rendering.

Variables (data : list dialogue) (index : pydict nat) (language : pystr).
Hypothesis index_wf : index_ok data index.

Lemma scan_index_total (normalized : pystr) (items : list (pystr * nat)) :
  (forall key idx, In (key, idx) items -> idx < length data) ->
  exists r, scan_index data normalized items = Ok r.
Proof.
  induction items as [|[k i] items IH]; intros R; cbn [scan_index]; eauto.
  destruct (_ || _).
  - destruct (list_item_in_range data i) as (d & _ & E).
    { apply (R k). simpl; auto. }
    rewrite E. cbn [bind]. eauto.
  - apply IH. intros key idx I. apply (R key). simpl; auto.
Qed.

(** With a well-formed index [find_matching_dialogue] does not raise. *)
Lemma find_matching_dialogue_total (japanese_text : pystr) :
  exists r, find_matching_dialogue data index japanese_text = Ok r.
Proof.
  destruct index_wf as [N R].
  unfold find_matching_dialogue, dict_mem, dict_item.
  destruct (dict_get index (remove_whitespace japanese_text)) as [idx|] eqn:G.
  - cbn [bind]. apply dict_get_In in G.
    destruct (list_item_in_range data idx (R _ _ G)) as (d & _ & E).
    rewrite E. cbn [bind]. eauto.
  - apply scan_index_total, R.
Qed.




End Rendering.




(** The three renderings of the sample cue without dialogue records. *)
Lemma create_sbv_content_sample :
  snd (create_sbv_content (lit "ja") unmatched_converter)
  = Ok (lit "0:00:24.566,0:00:29.500" ++ newline ++ lit "konnichiwa" ++ newline)
  /\ snd (create_sbv_content (lit "en") unmatched_converter)
     = Ok (lit "0:00:24.566,0:00:29.500" ++ newline
           ++ placeholder (lit "konnichiwa") ++ newline).
Proof. split; vm_compute; reflexivity. Qed.

(** ** Dialogue groups *)

Lemma colon_sep_chars : colon_sep = [32; 58; 32]%N.
Proof. reflexivity. Qed.

Lemma strip_not_nil (s : pystr) : strip s <> [] <-> blank s = false.
Proof.
  rewrite strip_nil. destruct (blank s); split; congruence.
Qed.

(** In [name : text] no separator starts inside the name. *)
Lemma no_early_sep (n t : pystr) :
  contains colon_sep (n ++ lit " ") = false ->
  forall j, j < length (lstrip n) ->
       startswith (skipn j (lstrip n ++ colon_sep ++ t)) colon_sep = false.
Proof.
  intros H j Hj.
  destruct (startswith _ _) eqn:E; auto. exfalso.
  apply startswith_iff in E as [r E].
  rewrite skipn_app in E.
  replace (j - length (lstrip n)) with 0 in E by lia. cbn [skipn] in E.
  destruct (lstrip_suffix n) as [ws W].
  pose proof (firstn_skipn j (lstrip n)) as FS.
  rewrite contains_false in H.
  assert (L : length (skipn j (lstrip n)) <> 0) by (rewrite length_skipn; lia).
  rewrite colon_sep_chars in *.
  destruct (skipn j (lstrip n)) as [|x [|y [|z a]]]; cbn in E.
  - simpl in L. lia.
  - injection E as -> E _. discriminate E.
  - injection E as -> -> _.
    apply (H (ws ++ firstn j (lstrip n)) []).
    rewrite W at 1. rewrite <- FS at 1.
    rewrite <- !app_assoc. reflexivity.
  - injection E as -> -> -> _.
    apply (H (ws ++ firstn j (lstrip n)) (a ++ lit " ")).
    rewrite W at 1. rewrite <- FS at 1.
    rewrite <- !app_assoc. reflexivity.
Qed.

Lemma split_tagged (n t : pystr) :
  contains colon_sep (n ++ lit " ") = false ->
  split_n 1 colon_sep (lstrip n ++ colon_sep ++ t) = [lstrip n; t].
Proof.
  intros H. cbn [split_n].
  rewrite find_sub_first by (apply no_early_sep; exact H).
  rewrite firstn_app, Nat.sub_diag, firstn_all. cbn [firstn].
  rewrite app_nil_r. f_equal.
  rewrite skipn_app, skipn_all2 by lia.
  replace (length (lstrip n) + length colon_sep - length (lstrip n))
    with (length colon_sep) by lia.
  rewrite skipn_app, skipn_all, Nat.sub_diag. reflexivity.
Qed.

(** The loop body on a well-formed line. *)
Lemma group_body_line (d : dialogue) (idx : nat) (f : line_form) :
  line_ok f -> idx < 4 ->
  group_body d idx (raw_line f)
  = mk_dialogue
      (match f with
       | Tagged n _ => if idx =? 0 then Some (strip n) else character d
       | Bare _ => character d
       end)
      (dict_set (lines d) (nth idx languages []) (variant f)).
Proof.
  intros Ok Hidx.
  assert (I : (idx <? length languages) = true) by (apply Nat.ltb_lt; exact Hidx).
  destruct f as [n t|t]; cbn [line_ok raw_line variant] in *.
  - destruct Ok as (Hn & Ht & Hs).
    apply strip_not_nil in Hn, Ht.
    unfold group_body. rewrite strip_tagged by assumption.
    assert (T : truthy (lstrip n ++ colon_sep ++ rstrip t) = true).
    { destruct (lstrip n) eqn:E; [|reflexivity].
      apply lstrip_nil in E. congruence. }
    rewrite T. cbn [negb].
    assert (C : contains colon_sep (lstrip n ++ colon_sep ++ rstrip t) = true)
      by (apply contains_iff; eauto).
    rewrite C. rewrite split_tagged by exact Hs. rewrite !I.
    cbn [nth length Nat.ltb Nat.leb].
    rewrite strip_lstrip, strip_rstrip.
    destruct (idx =? 0); reflexivity.
  - destruct Ok as (Ht & Hs). unfold group_body.
    rewrite truthy_strip. apply strip_not_nil in Ht. rewrite Ht. cbn [negb].
    rewrite Hs, I. destruct d; reflexivity.
Qed.

(** A well-formed group is parsed into its record. *)
Lemma parse_group_ok (g : group) :
  group_ok g -> _parse_dialogue_group (group_lines g) = Some (record_of g).
Proof.
  intros (O0 & O1 & O2 & O3).
  unfold _parse_dialogue_group, scan_group, group_lines.
  cbn [length Nat.ltb Nat.leb firstn enumerate seq combine fold_left].
  rewrite (group_body_line _ 0 _ O0) by lia.
  rewrite (group_body_line _ 1 _ O1) by lia.
  rewrite (group_body_line _ 2 _ O2) by lia.
  rewrite (group_body_line _ 3 _ O3) by lia.
  destruct O0 as (Hn & _).
  unfold record_of, character_set.
  destruct (line1 g) as [n1 t1|t1], (line2 g) as [n2 t2|t2],
           (line3 g) as [n3 t3|t3];
    cbn -[strip]; destruct (strip (name0 g)); try congruence; reflexivity.
Qed.

Lemma parse_loop_unfold (fuel : nat) (ls : list pystr) (i : nat)
      (dialogues : list dialogue) :
  parse_loop fuel ls i dialogues =
  if (i <? length ls)%nat then
    match fuel with
    | O => None
    | S fuel' =>
        if negb (truthy (strip (nth i ls []))) then
          parse_loop fuel' ls (i + 1) dialogues
        else
          if contains colon_sep (strip (nth i ls [])) then
            match _parse_dialogue_group (slice ls i (i + 4)) with
            | Some dialogue_group =>
                parse_loop fuel' ls (i + 4) (dialogues ++ [dialogue_group])
            | None => parse_loop fuel' ls (i + 1) dialogues
            end
          else parse_loop fuel' ls (i + 1) dialogues
    end
  else Some dialogues.
Proof. destruct fuel; reflexivity. Qed.

Lemma nth_middle_here {A} (pre : list A) (x : A) (rest : list A) (d : A) :
  nth (length pre) (pre ++ x :: rest) d = x.
Proof. rewrite app_nth2, Nat.sub_diag by lia. reflexivity. Qed.

Lemma slice_here {A} (pre xs rest : list A) :
  slice (pre ++ xs ++ rest) (length pre) (length pre + length xs) = xs.
Proof.
  unfold slice. rewrite skipn_app, skipn_all, Nat.sub_diag. cbn [skipn app].
  replace (length pre + length xs - length pre) with (length xs) by lia.
  rewrite firstn_app, Nat.sub_diag, firstn_all. cbn [firstn].
  apply app_nil_r.
Qed.

Lemma tagged_line_seen (n t : pystr) :
  line_ok (Tagged n t) ->
  truthy (strip (n ++ colon_sep ++ t)) = true
  /\ contains colon_sep (strip (n ++ colon_sep ++ t)) = true.
Proof.
  intros (Hn & Ht & _). apply strip_not_nil in Hn, Ht.
  rewrite strip_tagged by assumption. split.
  - destruct (lstrip n) eqn:E; [|reflexivity].
    apply lstrip_nil in E. congruence.
  - apply contains_iff; eauto.
Qed.

(** The loop of [parse_file] on a well-formed script, from any position
    between two items. *)
Lemma parse_loop_script (doc : list item) :
  Forall item_ok doc ->
  forall (pre : list pystr) (acc : list dialogue) (fuel : nat),
    length (script_lines doc) <= fuel ->
    parse_loop fuel (pre ++ script_lines doc) (length pre) acc
    = Some (acc ++ script_records doc).
Proof.
  induction 1 as [|it doc Oit _ IH]; intros pre acc fuel Hf.
  - rewrite parse_loop_unfold. cbn [script_lines flat_map script_records].
    rewrite !app_nil_r, Nat.ltb_irrefl. reflexivity.
  - rewrite parse_loop_unfold.
    assert (Lt : (length pre <? length (pre ++ script_lines (it :: doc))) = true).
    { apply Nat.ltb_lt. rewrite length_app. cbn [script_lines flat_map].
      rewrite length_app. destruct it; cbn; lia. }
    rewrite Lt. clear Lt.
    change (script_lines (it :: doc)) with (item_lines it ++ script_lines doc) in *.
    rewrite length_app in Hf.
    destruct it as [l|g]; cbn [item_lines item_ok] in *.
    + destruct fuel as [|fuel]; [cbn in Hf; lia|].
      cbn [app]. rewrite nth_middle_here.
      assert (Next : parse_loop fuel (pre ++ l :: script_lines doc)
                                (length pre + 1) acc
                     = Some (acc ++ script_records (Skipped l :: doc))).
      { replace (pre ++ l :: script_lines doc)
          with ((pre ++ [l]) ++ script_lines doc)
          by (rewrite <- app_assoc; reflexivity).
        replace (length pre + 1) with (length (pre ++ [l]))
          by (rewrite length_app; reflexivity).
        apply IH. cbn in Hf. lia. }
      rewrite Oit. destruct (negb _); exact Next.
    + destruct fuel as [|fuel]; [cbn in Hf; lia|].
      pose proof Oit as (O0 & _).
      destruct (tagged_line_seen _ _ O0) as [T C].
      assert (N : nth (length pre) (pre ++ group_lines g ++ script_lines doc) []
                  = name0 g ++ colon_sep ++ text0 g)
        by (unfold group_lines; cbn [app]; apply nth_middle_here).
      rewrite !N, T, C. cbn [negb].
      change (length pre + 4) with (length pre + length (group_lines g)).
      rewrite slice_here, parse_group_ok by exact Oit.
      rewrite app_assoc.
      replace (length pre + length (group_lines g))
        with (length (pre ++ group_lines g)) by (rewrite length_app; reflexivity).
      rewrite IH by (cbn in Hf; lia).
      rewrite <- app_assoc. reflexivity.
Qed.

(** X20: on a script made of well-formed four-line groups (and of lines
    without the separator between them) [parse_file] gives exactly one
    record for each group, in the order of the groups; the speaker of a
    record is the stripped name of line 0 and its four texts are the
    stripped texts of lines 0 to 3 under the tags [ko], [ja],
    [ja_hiragana] and [en]. *)
Theorem parse_file_well_formed (doc : list item) :
  Forall item_ok doc ->
  parse_file (script_lines doc) = Some (script_records doc).
Proof.
  intros O. unfold parse_file.
  exact (parse_loop_script doc O [] [] _ (Nat.le_refl _)).
Qed.

Lemma parse_file_well_formed_witness :
  Forall item_ok sample_script
  /\ parse_file (script_lines sample_script)
     = Some [ mk_dialogue (Some (lit "arona"))
                [(lit "ko", lit "annyeonghaseyo."); (lit "ja", lit "konnichiwa.");
                 (lit "ja_hiragana", lit "konnichiwa, hiragana.");
                 (lit "en", lit "Hello. I'm Arona.")];
              mk_dialogue (Some (lit "plana"))
                [(lit "ko", lit "annyeonghasimnikka.");
                 (lit "ja", lit "hajimemashite.");
                 (lit "ja_hiragana", lit "hajimemashite, hiragana.");
                 (lit "en", lit "Nice to meet you.")] ].
Proof.
  assert (O : Forall item_ok sample_script).
  { repeat constructor; try discriminate; vm_compute; reflexivity. }
  split; [exact O|].
  exact (parse_file_well_formed sample_script O).
Defined.

(** ** A group in any file *)

(** The loop of [parse_file], turn by turn. *)
Lemma next_cursor_gt (ls : list pystr) (i : nat) : i < next_cursor ls i.
Proof.
  unfold next_cursor, turn.
  destruct (negb _); [cbn; lia|].
  destruct (contains _ _); [|cbn; lia].
  destruct (_parse_dialogue_group _); cbn; lia.
Qed.

Lemma parse_loop_turn (fuel : nat) (ls : list pystr) (i : nat)
      (dialogues : list dialogue) :
  i < length ls ->
  parse_loop (S fuel) ls i dialogues
  = parse_loop fuel ls (next_cursor ls i) (dialogues ++ appended ls i).
Proof.
  intros L. rewrite parse_loop_unfold.
  apply Nat.ltb_lt in L. rewrite L.
  unfold next_cursor, appended, turn.
  destruct (negb _); [cbn [fst snd]; rewrite app_nil_r; reflexivity|].
  destruct (contains _ _); [|cbn [fst snd]; rewrite app_nil_r; reflexivity].
  destruct (_parse_dialogue_group _); cbn [fst snd];
    [|rewrite app_nil_r]; reflexivity.
Qed.

Lemma parse_loop_cursors (fuel : nat) :
  forall (ls : list pystr) (i : nat) (dialogues : list dialogue),
    length ls - i <= fuel ->
    parse_loop fuel ls i dialogues
    = Some (dialogues ++ flat_map (appended ls) (cursors_from fuel ls i)).
Proof.
  induction fuel as [|fuel IH]; intros ls i dialogues Hf.
  - rewrite parse_loop_unfold. cbn [cursors_from].
    destruct (i <? length ls) eqn:L.
    + apply Nat.ltb_lt in L. lia.
    + cbn [flat_map]. rewrite app_nil_r. reflexivity.
  - destruct (i <? length ls) eqn:L.
    + apply Nat.ltb_lt in L. rewrite parse_loop_turn by exact L.
      cbn [cursors_from]. apply Nat.ltb_lt in L. rewrite L.
      apply Nat.ltb_lt in L.
      rewrite IH by (pose proof (next_cursor_gt ls i); lia).
      cbn [flat_map]. rewrite <- app_assoc. reflexivity.
    + rewrite parse_loop_unfold. cbn [cursors_from]. rewrite L.
      cbn [flat_map]. rewrite app_nil_r. reflexivity.
Qed.

Lemma parse_file_cursors (ls : list pystr) :
  parse_file ls = Some (flat_map (appended ls) (cursors ls)).
Proof.
  unfold parse_file, cursors.
  rewrite parse_loop_cursors by lia. reflexivity.
Qed.

Lemma cursors_from_ge (fuel : nat) :
  forall (ls : list pystr) (i : nat),
    Forall (fun k => i <= k) (cursors_from fuel ls i).
Proof.
  induction fuel as [|fuel IH]; intros ls i; cbn [cursors_from];
    destruct (i <? length ls); constructor; [lia|].
  pose proof (next_cursor_gt ls i) as G.
  eapply Forall_impl; [|apply IH].
  cbn beta. intros k Hk. lia.
Qed.

Lemma cursors_from_split (fuel : nat) :
  forall (ls : list pystr) (i j : nat),
    In j (cursors_from fuel ls i) ->
    exists before fuel',
      cursors_from fuel ls i
      = before ++ j :: cursors_from fuel' ls (next_cursor ls j)
      /\ Forall (fun k => k < j) before.
Proof.
  induction fuel as [|fuel IH]; intros ls i j; cbn [cursors_from];
    destruct (i <? length ls); try (intros []).
  - subst j. exists [], fuel. split; [reflexivity|constructor].
  - pose proof (cursors_from_ge fuel ls (next_cursor ls i)) as G.
    rewrite Forall_forall in G. pose proof (G _ H) as Gj.
    pose proof (next_cursor_gt ls i) as Gi.
    destruct (IH _ _ _ H) as (before & fuel' & E & B).
    exists (i :: before), fuel'. split.
    + rewrite E. reflexivity.
    + constructor; [lia|exact B].
Qed.

(** The turn at the first line of a well-formed group. *)
Lemma turn_at_group (pre : list pystr) (g : group) (post : list pystr) :
  group_ok g ->
  turn (pre ++ group_lines g ++ post) (length pre)
  = ([record_of g], length pre + 4).
Proof.
  intros Og. pose proof Og as (O0 & _).
  destruct (tagged_line_seen _ _ O0) as [T C].
  assert (N : nth (length pre) (pre ++ group_lines g ++ post) []
              = name0 g ++ colon_sep ++ text0 g)
    by (unfold group_lines; cbn [app]; apply nth_middle_here).
  unfold turn. rewrite !N, T, C. cbn [negb].
  change (length pre + 4) with (length pre + length (group_lines g)).
  rewrite slice_here, parse_group_ok by exact Og. reflexivity.
Qed.

(** C2, as stated, fails: a line with the separator directly before a
    well-formed group starts the window of four lines, so the record that
    is emitted has the speaker and the first text of that line and the
    texts of the group moved on by one tag, and the record of the group
    is nowhere in the result. *)
Lemma parse_file_group_anywhere_fails :
  ~ (forall pre g post,
        group_ok g ->
        exists before after,
          parse_file (pre ++ group_lines g ++ post)
          = Some (before ++ record_of g :: after)).
Proof.
  intros H.
  destruct (H sample_stray_line sample_group []) as (before & after & E).
  { repeat split; try discriminate; vm_compute; reflexivity. }
  assert (R : parse_file (sample_stray_line ++ group_lines sample_group ++ [])
              = Some [ mk_dialogue (Some (lit "x"))
                         [(lit "ko", lit "1"); (lit "ja", lit "annyeonghaseyo.");
                          (lit "ja_hiragana", lit "konnichiwa.");
                          (lit "en", lit "konnichiwa, hiragana.")] ])
    by (vm_compute; reflexivity).
  rewrite R in E. injection E as E.
  destruct before as [|b [|b' before]]; cbn [app] in E.
  - injection E as E _. vm_compute in E. discriminate E.
  - discriminate E.
  - discriminate E.
Qed.

(** C2, amended: for every well-formed four-line group at whose first
    line a turn of the loop starts, whatever the lines before and after
    it: the turns split into those that start before the group, the one
    at its first line and those that start behind its last line, and
    [parse_file] returns the records of the turns before, then exactly
    one record for the group (the speaker is the stripped name of line 0,
    the four texts are the stripped texts of lines 0 to 3 under [ko],
    [ja], [ja_hiragana] and [en]), then the records of the turns behind:
    the records keep the order of the lines they come from. *)
Theorem parse_file_group_reached
        (pre : list pystr) (g : group) (post : list pystr) :
  group_ok g ->
  In (length pre) (cursors (pre ++ group_lines g ++ post)) ->
  exists before after,
    cursors (pre ++ group_lines g ++ post) = before ++ length pre :: after
    /\ Forall (fun i => i < length pre) before
    /\ Forall (fun i => length pre + 4 <= i) after
    /\ parse_file (pre ++ group_lines g ++ post)
       = Some (flat_map (appended (pre ++ group_lines g ++ post)) before
               ++ record_of g
               :: flat_map (appended (pre ++ group_lines g ++ post)) after).
Proof.
  intros Og Hin.
  set (ls := pre ++ group_lines g ++ post) in *.
  pose proof (turn_at_group pre g post Og) as T. fold ls in T.
  destruct (cursors_from_split _ _ _ _ Hin) as (before & fuel' & E & B).
  fold (cursors ls) in E.
  assert (Nx : next_cursor ls (length pre) = length pre + 4)
    by (unfold next_cursor; rewrite T; reflexivity).
  assert (Em : appended ls (length pre) = [record_of g])
    by (unfold appended; rewrite T; reflexivity).
  rewrite Nx in E.
  exists before, (cursors_from fuel' ls (length pre + 4)).
  split; [exact E|]. split; [exact B|].
  split; [apply cursors_from_ge|].
  rewrite parse_file_cursors, E, flat_map_app.
  cbn [flat_map]. rewrite Em. reflexivity.
Qed.

Lemma parse_file_group_reached_witness :
  group_ok sample_group
  /\ cursors (sample_heading ++ group_lines sample_group ++ sample_short_group)
     = [0; 1; 2; 6; 7; 8]
  /\ parse_file (sample_heading ++ group_lines sample_group ++ sample_short_group)
     = Some [record_of sample_group].
Proof.
  assert (O : group_ok sample_group)
    by (repeat split; try discriminate; vm_compute; reflexivity).
  assert (C : cursors (sample_heading ++ group_lines sample_group
                       ++ sample_short_group) = [0; 1; 2; 6; 7; 8])
    by (vm_compute; reflexivity).
  split; [exact O|]. split; [exact C|].
  destruct (parse_file_group_reached sample_heading sample_group
              sample_short_group O ltac:(vm_compute; tauto))
    as (before & after & E1 & B & _ & E).
  rewrite C in E1. rewrite E. clear E.
  destruct before as [|b0 [|b1 [|b2 before]]]; cbn [app] in E1.
  - discriminate E1.
  - discriminate E1.
  - injection E1 as <- <- <-. vm_compute. reflexivity.
  - injection E1 as _ _ <- _.
    apply Forall_inv_tail, Forall_inv_tail, Forall_inv in B.
    cbn in B. lia.
Defined.

(** ** Validity of the emitted records *)

(** The tags written by the loop body are language tags, each once. *)
Lemma group_body_keys (d : dialogue) (idx : nat) (line : pystr) :
  NoDup (map fst (lines d)) /\ incl (map fst (lines d)) languages ->
  NoDup (map fst (lines (group_body d idx line)))
  /\ incl (map fst (lines (group_body d idx line))) languages.
Proof.
  intros [N I].
  assert (S : forall c v, idx < length languages ->
    NoDup (map fst (lines (mk_dialogue c (dict_set (lines d) (nth idx languages []) v))))
    /\ incl (map fst (lines (mk_dialogue c (dict_set (lines d) (nth idx languages []) v))))
            languages).
  { intros c v H. cbn [lines]. split.
    - apply dict_set_NoDup, N.
    - intros k K. apply dict_set_keys in K as [->|K]; auto.
      apply nth_In, H. }
  unfold group_body.
  destruct (negb _); [auto|].
  destruct (contains _ _).
  - destruct (idx <? length languages) eqn:L.
    + apply Nat.ltb_lt in L. destruct (idx =? 0); apply S, L.
    + destruct (idx =? 0); cbn [lines]; auto.
  - destruct (idx <? length languages) eqn:L; auto.
    apply Nat.ltb_lt in L. apply S, L.
Qed.

Lemma scan_group_keys (ls : list pystr) :
  NoDup (map fst (lines (scan_group ls)))
  /\ incl (map fst (lines (scan_group ls))) languages.
Proof.
  unfold scan_group.
  generalize (enumerate (firstn 4 ls)).
  assert (B : NoDup (map fst (lines (mk_dialogue None [])))
              /\ incl (map fst (lines (mk_dialogue None []))) languages).
  { split; [constructor | intros ? []]. }
  revert B. generalize (mk_dialogue None []).
  intros d B l. revert d B.
  induction l as [|[idx line] l IH]; intros d B; cbn [fold_left]; auto.
  apply IH, group_body_keys, B.
Qed.

(** The text after the separator of a stripped line is not blank. *)
Lemma text_after_sep (u : pystr) (s : pystr) :
  u = strip s ->
  contains colon_sep u = true ->
  exists a b, split_n 1 colon_sep u = [a; b] /\ blank (strip b) = false.
Proof.
  intros U. unfold contains. cbn [split_n].
  destruct (find_sub colon_sep u) as [i|] eqn:F; [|discriminate].
  intros _. do 2 eexists. split; [reflexivity|].
  destruct (find_sub_Some _ _ _ F) as (pre & post & E & L & _).
  rewrite E, <- L, skipn_app, skipn_all2 by lia.
  replace (length pre + length colon_sep - length pre)
    with (length colon_sep) by lia.
  rewrite skipn_app, skipn_all, Nat.sub_diag. cbn [skipn app].
  apply strip_not_blank, strip_not_nil.
  destruct post as [|c post].
  - exfalso. rewrite U, colon_sep_chars, app_nil_r in E.
    assert (B : blank [32%N] = false).
    { apply (strip_tail_not_blank s (pre ++ [32; 58]%N) [32%N]).
      - rewrite E, <- app_assoc. reflexivity.
      - discriminate. }
    discriminate B.
  - apply (strip_tail_not_blank s (pre ++ colon_sep) (c :: post)).
    + rewrite <- U, E, <- app_assoc. reflexivity.
    + discriminate.
Qed.

(** The loop body leaves the texts as they are or writes one text that is
    not blank. *)
Lemma group_body_lines (d : dialogue) (idx : nat) (l : pystr) :
  lines (group_body d idx l) = lines d
  \/ exists v, blank v = false
       /\ lines (group_body d idx l)
          = dict_set (lines d) (nth idx languages []) v.
Proof.
  unfold group_body.
  destruct (strip l) as [|c r] eqn:E; cbn [truthy negb]; [left; reflexivity|].
  destruct (idx <? length languages) eqn:I;
    destruct (contains colon_sep (c :: r)) eqn:C.
  - destruct (text_after_sep (c :: r) l (eq_sym E) C) as (a & b & S & B).
    rewrite S. right. exists (strip b). split; [exact B|].
    destruct (idx =? 0); reflexivity.
  - right. exists (c :: r). split; [|reflexivity].
    rewrite <- E. apply strip_not_blank. rewrite E. discriminate.
  - left. destruct (idx =? 0); reflexivity.
  - left. reflexivity.
Qed.

Lemma scan_group_values (ls : list pystr) (k v : pystr) :
  In (k, v) (lines (scan_group ls)) -> blank v = false.
Proof.
  unfold scan_group. revert k v.
  generalize (enumerate (firstn 4 ls)).
  assert (B : forall k v, In (k, v) (lines (mk_dialogue None [])) -> blank v = false)
    by (intros ? ? []).
  revert B. generalize (mk_dialogue None []).
  intros d B l. revert d B.
  induction l as [|[idx line] l IH]; intros d B; cbn [fold_left]; auto.
  apply IH. intros k v I.
  destruct (group_body_lines d idx line) as [E|(w & W & E)]; rewrite E in I.
  - eapply B; eauto.
  - apply dict_set_In in I as [[_ ->]|I]; [exact W | eapply B; eauto].
Qed.

(** Whatever [_parse_dialogue_group] returns is a valid record. *)
Lemma parse_group_valid (ls : list pystr) (d : dialogue) :
  _parse_dialogue_group ls = Some d -> valid_record d.
Proof.
  unfold _parse_dialogue_group.
  destruct (length ls <? 4); [discriminate|].
  destruct (length (lines (scan_group ls)) =? 4) eqn:L; [|discriminate].
  destruct (character_set (scan_group ls)) eqn:C; [|discriminate].
  intros [= <-]. apply Nat.eqb_eq in L.
  destruct (scan_group_keys ls) as [N I].
  repeat split.
  - unfold character_set in C.
    destruct (character (scan_group ls)) as [c|]; [|discriminate].
    exists c. split; auto. intros ->. discriminate.
  - exact L.
  - intros tag T.
    assert (K : In tag (map fst (lines (scan_group ls)))).
    { refine (NoDup_length_incl N _ I tag T).
      rewrite length_map, L. reflexivity. }
    destruct (dict_get (lines (scan_group ls)) tag) as [v|] eqn:G.
    + exists v. split; [reflexivity|].
      apply dict_get_In in G. exact (scan_group_values ls tag v G).
    + apply dict_get_None in G. contradiction.
Qed.

(** [parse_file] always ends, and its records are results of
    [_parse_dialogue_group] on four-line slices of the input. *)
Lemma parse_loop_total (ls : list pystr) (fuel : nat) :
  forall (i : nat) (acc : list dialogue),
    length ls - i <= fuel ->
    exists new,
      parse_loop fuel ls i acc = Some (acc ++ new)
      /\ Forall (fun d => exists j, j < length ls /\
                   _parse_dialogue_group (slice ls j (j + 4)) = Some d) new.
Proof.
  induction fuel as [|fuel IH]; intros i acc H; rewrite parse_loop_unfold.
  - destruct (i <? length ls) eqn:C.
    + apply Nat.ltb_lt in C. lia.
    + exists []. rewrite app_nil_r. auto.
  - destruct (i <? length ls) eqn:C.
    + apply Nat.ltb_lt in C.
      assert (Next : exists new,
                 parse_loop fuel ls (i + 1) acc = Some (acc ++ new)
                 /\ Forall (fun d => exists j, j < length ls /\
                       _parse_dialogue_group (slice ls j (j + 4)) = Some d) new)
        by (apply IH; lia).
      destruct (negb _); [exact Next|].
      destruct (contains _ _); [|exact Next].
      destruct (_parse_dialogue_group (slice ls i (i + 4))) as [d|] eqn:G;
        [|exact Next].
      destruct (IH (i + 4) (acc ++ [d]) ltac:(lia)) as (new & E & F).
      exists (d :: new). rewrite E, <- app_assoc. split; [reflexivity|].
      constructor; eauto.
    + exists []. rewrite app_nil_r. auto.
Qed.

(** The name before the separator of a stripped line is not blank. *)
Lemma speaker_nonempty (s : pystr) :
  contains colon_sep (strip s) = true ->
  truthy (strip (nth 0 (split_n 1 colon_sep (strip s)) [])) = true.
Proof.
  unfold contains. cbn [split_n].
  destruct (find_sub colon_sep (strip s)) as [i|] eqn:F; [|discriminate].
  intros _. cbn [nth].
  destruct (find_sub_Some _ _ _ F) as (pre & post & E & L & _).
  rewrite E, <- L, firstn_app, Nat.sub_diag, firstn_all. cbn [firstn].
  rewrite app_nil_r, truthy_strip.
  destruct pre as [|c pre].
  - rewrite colon_sep_chars in E. cbn in E.
    apply strip_head in E. discriminate E.
  - cbn in E. apply strip_head in E. cbn. rewrite E. reflexivity.
Qed.

(** The loop body either skips a blank line or writes the tag of its
    position; only position 0 can set the speaker. *)
Lemma group_body_cases (d : dialogue) (idx : nat) (l : pystr) :
  idx < 4 ->
  (strip l = [] /\ group_body d idx l = d)
  \/ (strip l <> []
      /\ exists v,
          lines (group_body d idx l)
          = dict_set (lines d) (nth idx languages []) v
          /\ character (group_body d idx l)
             = if (idx =? 0) && contains colon_sep (strip l)
               then Some (strip (nth 0 (split_n 1 colon_sep (strip l)) []))
               else character d).
Proof.
  intros H.
  assert (I : (idx <? length languages) = true) by (apply Nat.ltb_lt; exact H).
  unfold group_body. rewrite I.
  destruct (strip l) as [|c r] eqn:E; cbn [truthy negb]; [left; auto|].
  right. split; [discriminate|].
  destruct (contains colon_sep (c :: r)).
  - eexists. cbn [lines character].
    destruct (idx =? 0); cbn [lines character andb]; split; reflexivity.
  - eexists. cbn [lines character]. rewrite andb_false_r.
    split; reflexivity.
Qed.

(** [_parse_dialogue_group] gives no record exactly for fewer than four
    lines, a blank line among the first four, or a first line without the
    separator. *)
Lemma parse_group_None_iff (g : list pystr) :
  _parse_dialogue_group g = None
  <-> (length g < 4
       \/ (exists k, k < 4 /\ strip (nth k g []) = [])
       \/ contains colon_sep (strip (nth 0 g [])) = false).
Proof.
  unfold _parse_dialogue_group.
  destruct (length g <? 4) eqn:L4.
  - apply Nat.ltb_lt in L4. tauto.
  - apply Nat.ltb_ge in L4.
    destruct g as [|l0 [|l1 [|l2 [|l3 rest]]]]; try (cbn in L4; lia).
    unfold scan_group.
    cbn [firstn enumerate length seq combine fold_left nth].
    set (d0 := mk_dialogue None []).
    destruct (group_body_cases d0 0 l0 ltac:(lia))
      as [[B0 E0]|[B0 [v0 [E0 C0]]]];
    set (d1 := group_body d0 0 l0) in *;
    (destruct (group_body_cases d1 1 l1 ltac:(lia))
      as [[B1 E1]|[B1 [v1 [E1 C1]]]]);
    set (d2 := group_body d1 1 l1) in *;
    (destruct (group_body_cases d2 2 l2 ltac:(lia))
      as [[B2 E2]|[B2 [v2 [E2 C2]]]]);
    set (d3 := group_body d2 2 l2) in *;
    (destruct (group_body_cases d3 3 l3 ltac:(lia))
      as [[B3 E3]|[B3 [v3 [E3 C3]]]]);
    set (d4 := group_body d3 3 l3) in *;
    try (assert (Blank : exists k, k < 4 /\ strip (nth k (l0 :: l1 :: l2 :: l3 :: rest) []) = [])
           by (first [ exists 0; split; [lia | exact B0]
                     | exists 1; split; [lia | exact B1]
                     | exists 2; split; [lia | exact B2]
                     | exists 3; split; [lia | exact B3] ]);
         assert (Len : (length (lines d4) =? 4) = false)
           by (rewrite ?E3, ?E2, ?E1, ?E0; reflexivity);
         rewrite Len; cbn [andb]; tauto).
    assert (Len : (length (lines d4) =? 4) = true)
      by (rewrite E3, E2, E1, E0; reflexivity).
    rewrite Len. cbn [andb]. unfold character_set.
    rewrite C3, C2, C1, C0. cbn [Nat.eqb andb character d0].
    destruct (contains colon_sep (strip l0)) eqn:C.
    + rewrite speaker_nonempty by exact C. split; [discriminate|].
      intros [H|[(k & Hk & Bk)|H]]; [cbn in H; lia | | discriminate].
      destruct k as [|[|[|[|k]]]]; cbn [nth] in Bk; try contradiction. lia.
    + tauto.
Qed.

(** C3: [parse_file] always returns, without an exception; every record
    it returns has a non-empty speaker and a text under each of the four
    language tags, and is the result of [_parse_dialogue_group] on four
    consecutive lines; a group with fewer than four lines, with a blank
    line, or without the separator in its first line gives no record, and
    the loop then moves on by one line with the records unchanged. *)
Theorem parse_file_only_valid_records (ls : list pystr) :
  (exists ds,
      parse_file ls = Some ds
      /\ Forall valid_record ds
      /\ Forall (fun d => exists i, i < length ls /\
                   _parse_dialogue_group (slice ls i (i + 4)) = Some d) ds)
  /\ (forall g,
         _parse_dialogue_group g = None
         <-> (length g < 4
              \/ (exists k, k < 4 /\ strip (nth k g []) = [])
              \/ contains colon_sep (strip (nth 0 g [])) = false))
  /\ (forall fuel i dialogues,
         i < length ls ->
         _parse_dialogue_group (slice ls i (i + 4)) = None ->
         parse_loop (S fuel) ls i dialogues
         = parse_loop fuel ls (i + 1) dialogues).
Proof.
  split; [|split].
  - destruct (parse_loop_total ls (length ls) 0 [] ltac:(lia)) as (new & E & F).
    exists new. split; [exact E|]. split; [|exact F].
    apply Forall_forall. intros d D.
    rewrite Forall_forall in F. destruct (F d D) as (j & _ & G).
    exact (parse_group_valid _ _ G).
  - exact parse_group_None_iff.
  - intros fuel i dialogues Hi G. rewrite parse_loop_unfold.
    apply Nat.ltb_lt in Hi. rewrite Hi, G.
    destruct (negb _); [reflexivity|]. destruct (contains _ _); reflexivity.
Qed.

(** A script whose second group has a blank third line: the group is
    dropped, and so are its lines, one by one. *)
Lemma parse_file_drops_sample :
  parse_file [lit "a : 1"; lit "a : 2"; lit "a : 3"; lit "a : 4";
              lit "b : 1"; lit "b : 2"; lit "  "; lit "b : 4"]
  = Some [mk_dialogue (Some (lit "a"))
            [(lit "ko", lit "1"); (lit "ja", lit "2");
             (lit "ja_hiragana", lit "3"); (lit "en", lit "4")]].
Proof. vm_compute. reflexivity. Qed.

(** ** From the parser to the index *)

Lemma remove_whitespace_nil (v : pystr) :
  remove_whitespace v = [] <-> blank v = true.
Proof.
  unfold remove_whitespace, blank.
  induction v as [|c v IH]; cbn; [tauto|].
  destruct (isspace c); cbn; [exact IH|]. split; discriminate.
Qed.

Lemma build_index_loop_valid (items : list (nat * dialogue)) :
  (forall i d, In (i, d) items -> valid_record d) ->
  forall index,
    ~ In [] (map fst index) ->
    exists index',
      build_index_loop items index = Ok index'
      /\ ~ In [] (map fst index').
Proof.
  induction items as [|[i d] items IH]; intros V index NI; cbn [build_index_loop].
  - eauto.
  - destruct (V i d (or_introl eq_refl)) as (_ & _ & T).
    destruct (T (lit "ja")) as (v & G & B); [cbn; auto|].
    unfold dict_item. rewrite G. cbn [bind].
    apply IH.
    + intros j e I. apply (V j e). right. exact I.
    + rewrite dict_set_keys. intros [E|I]; [|contradiction].
      symmetry in E. apply remove_whitespace_nil in E. congruence.
Qed.

(** In phase_main the converter is built from the records of
    [parse_file]: the construction does not raise and no key of the index
    is the empty string. *)
Lemma parsed_index_keys (ls : list pystr) :
  exists ds self,
    parse_file ls = Some ds
    /\ __init__ ds = Ok self
    /\ ~ In [] (map fst (dialogue_index_map self)).
Proof.
  destruct (parse_loop_total ls (length ls) 0 [] ltac:(lia)) as (ds & E & F).
  cbn [app] in E.
  destruct (build_index_loop_valid (enumerate ds)) with (index := @nil (pystr * nat))
    as (index & B & NI).
  - intros i d I. apply in_combine_r in I.
    rewrite Forall_forall in F. destruct (F d I) as (j & _ & G).
    exact (parse_group_valid _ _ G).
  - intros [].
  - exists ds. eexists. split; [exact E|].
    unfold __init__, _build_dialogue_index.
    cbn [dialogue_data dialogue_index_map sequence_data missing_translations].
    rewrite B. cbn [bind]. split; [reflexivity | exact NI].
Qed.

(** So there an empty query gets the record of the first key. *)
Lemma parsed_index_empty_query
      (ls : list pystr) (ds : list dialogue) (self : SBVConverter)
      (japanese_text key0 : pystr) (idx0 : nat) (rest : list (pystr * nat)) :
  parse_file ls = Some ds ->
  __init__ ds = Ok self ->
  remove_whitespace japanese_text = [] ->
  dialogue_index_map self = (key0, idx0) :: rest ->
  exists d, nth_error ds idx0 = Some d
    /\ find_matching_dialogue (dialogue_data self) (dialogue_index_map self)
                              japanese_text = Ok (Some d).
Proof.
  intros P I E M.
  destruct (parsed_index_keys ls) as (ds' & self' & P' & I' & NI).
  rewrite P in P'. injection P' as <-. rewrite I in I'. injection I' as <-.
  destruct (init_index_ok ds self I) as (O & D & _).
  rewrite D in *.
  apply (find_partial_match ds (dialogue_index_map self) japanese_text
           [] rest key0 idx0 O); rewrite ?E; auto.
  - intros k [].
  - unfold partial_match. cbn [take firstn]. destruct key0; reflexivity.
Qed.

(** * Further properties *)

(** ** Building and reading the index *)

Lemma dict_get_set_other {V} (d : pydict V) (k k' : pystr) (v : V) :
  k <> k' -> dict_get (dict_set d k v) k' = dict_get d k'.
Proof.
  intros Hk. induction d as [|[k0 v0] d IH]; simpl.
  - apply pystr_eqb_neq in Hk. rewrite Hk. reflexivity.
  - destruct (pystr_eqb k0 k) eqn:E; simpl.
    + apply pystr_eqb_eq in E as ->.
      apply pystr_eqb_neq in Hk. rewrite Hk. reflexivity.
    + destruct (pystr_eqb k0 k'); auto.
Qed.

Lemma has_key_iff (k : pystr) (d : dialogue) :
  has_key k d = true <-> ja_key d = Some k.
Proof.
  unfold has_key. destruct (ja_key d) as [k'|].
  - rewrite pystr_eqb_eq. split; congruence.
  - split; discriminate.
Qed.

Lemma last_pos_Some (xs : list dialogue) (k : pystr) (p : nat) :
  last_pos xs k = Some p ->
  exists d, nth_error xs p = Some d /\ ja_key d = Some k
    /\ forall p' d', p < p' -> nth_error xs p' = Some d' -> ja_key d' <> Some k.
Proof.
  revert p; induction xs as [|x xs IH]; intros p; cbn [last_pos]; [discriminate|].
  destruct (last_pos xs k) as [q|] eqn:L.
  - intros [= <-]. destruct (IH q eq_refl) as (d & N & K & Last).
    exists d. repeat split; auto.
    intros [|p'] d' Hp; [lia|]. cbn. apply Last. lia.
  - destruct (has_key k x) eqn:H; [|discriminate].
    intros [= <-]. exists x. apply has_key_iff in H. repeat split; auto.
    intros [|p'] d' Hp N K; [lia|]. cbn in N.
    assert (G : forall ys q e, last_pos ys k = None ->
                  nth_error ys q = Some e -> ja_key e <> Some k).
    { clear. induction ys as [|y ys IHy]; intros q e; cbn [last_pos].
      - destruct q; discriminate.
      - destruct (last_pos ys k) eqn:L; [discriminate|].
        destruct (has_key k y) eqn:H; [discriminate|]. intros _.
        destruct q as [|q]; cbn.
        + intros [= <-] K. apply has_key_iff in K. congruence.
        + apply IHy. reflexivity. }
    exact (G xs p' d' L N K).
Qed.

Lemma last_pos_exists (xs : list dialogue) (k : pystr) (i : nat) (d : dialogue) :
  nth_error xs i = Some d -> ja_key d = Some k ->
  exists p, last_pos xs k = Some p /\ i <= p.
Proof.
  revert i; induction xs as [|x xs IH]; intros i N K.
  - destruct i; discriminate.
  - cbn [last_pos]. destruct i as [|i]; cbn in N.
    + injection N as ->. apply has_key_iff in K.
      destruct (last_pos xs k) as [q|]; [exists (S q) | exists 0; rewrite K];
        split; auto; lia.
    + destruct (IH i N K) as (p & L & Hp). rewrite L.
      exists (S p). split; auto. lia.
Qed.

(** The index after the loop: a key present among the records points to
    the last of them, any other key is as before. *)
Lemma build_index_loop_get (xs : list dialogue) :
  forall (a : nat) (index index' : pydict nat),
    build_index_loop (combine (seq a (length xs)) xs) index = Ok index' ->
    forall k,
      dict_get index' k
      = match last_pos xs k with
        | Some p => Some (a + p)
        | None => dict_get index k
        end.
Proof.
  induction xs as [|x xs IH]; intros a index index';
    cbn [length seq combine build_index_loop last_pos].
  - intros [= <-] k. reflexivity.
  - unfold dict_item. unfold has_key, ja_key.
    destruct (dict_get (lines x) (lit "ja")) as [ja|]; cbn [bind option_map];
      [|discriminate].
    intros B k. rewrite (IH _ _ _ B k).
    destruct (last_pos xs k) as [p|]; [f_equal; lia|].
    destruct (pystr_eqb (remove_whitespace ja) k) eqn:E.
    + apply pystr_eqb_eq in E as <-.
      rewrite dict_get_set_same. f_equal. lia.
    + apply pystr_eqb_neq in E. apply dict_get_set_other. exact E.
Qed.

Lemma index_lookup_last
      (data : list dialogue) (self : SBVConverter)
      (i : nat) (d : dialogue) (k : pystr) :
  __init__ data = Ok self ->
  nth_error data i = Some d ->
  ja_key d = Some k ->
  exists j d',
    i <= j /\ nth_error data j = Some d' /\ ja_key d' = Some k
    /\ (forall j' d'', j < j' -> nth_error data j' = Some d'' ->
                       ja_key d'' <> Some k)
    /\ dict_get (dialogue_index_map self) k = Some j
    /\ forall japanese_text,
        remove_whitespace japanese_text = k ->
        find_matching_dialogue (dialogue_data self) (dialogue_index_map self)
                               japanese_text
        = Ok (Some d').
Proof.
  intros I N K.
  destruct (last_pos_exists data k i d N K) as (j & L & Hj).
  destruct (last_pos_Some data k j L) as (d' & N' & K' & Last).
  exists j, d'. repeat split; auto.
  - unfold __init__, _build_dialogue_index in I.
    cbn [dialogue_data dialogue_index_map] in I.
    destruct (build_index_loop (enumerate data) []) as [index|] eqn:B;
      cbn [bind] in I; [|discriminate].
    injection I as <-. cbn [dialogue_index_map].
    unfold enumerate in B. rewrite (build_index_loop_get data 0 [] index B k), L.
    reflexivity.
  - intros japanese_text E.
    unfold __init__, _build_dialogue_index in I.
    cbn [dialogue_data dialogue_index_map] in I.
    destruct (build_index_loop (enumerate data) []) as [index|] eqn:B;
      cbn [bind] in I; [|discriminate].
    injection I as <-. cbn [dialogue_index_map dialogue_data].
    unfold find_matching_dialogue, dict_mem, dict_item. rewrite E.
    unfold enumerate in B. rewrite (build_index_loop_get data 0 [] index B k), L.
    cbn [bind Nat.add]. unfold list_item. rewrite N'. reflexivity.
Qed.

(** X6: A record can always be found again through its own Japanese line,
    whatever the whitespace of the query; when several records share the
    normalized line, the last of them is found. *)
Theorem index_lookup_last_wins
        (data : list dialogue) (self : SBVConverter)
        (i : nat) (d : dialogue) (k : pystr) :
  __init__ data = Ok self ->
  nth_error data i = Some d ->
  ja_key d = Some k ->
  exists j d',
    i <= j /\ nth_error data j = Some d' /\ ja_key d' = Some k
    /\ (forall j' d'', j < j' -> nth_error data j' = Some d'' ->
                       ja_key d'' <> Some k)
    /\ dict_get (dialogue_index_map self) k = Some j
    /\ forall japanese_text,
        remove_whitespace japanese_text = k ->
        find_matching_dialogue (dialogue_data self) (dialogue_index_map self)
                               japanese_text
        = Ok (Some d').
Proof. exact (index_lookup_last data self i d k). Qed.

Lemma index_lookup_last_wins_witness :
  __init__ sample_dialogues
  = Ok (mk_SBVConverter sample_dialogues sample_index []
          [(lit "ko", 0); (lit "en", 0); (lit "ja", 0)])
  /\ exists j d',
      nth_error sample_dialogues j = Some d'
      /\ find_matching_dialogue sample_dialogues sample_index konnichiwa_spaced
         = Ok (Some d').
Proof.
  assert (I : __init__ sample_dialogues
              = Ok (mk_SBVConverter sample_dialogues sample_index []
                      [(lit "ko", 0); (lit "en", 0); (lit "ja", 0)]))
    by (vm_compute; reflexivity).
  split; [exact I|].
  destruct (index_lookup_last_wins sample_dialogues _ 0
              (mk_dialogue (Some (lit "arona"))
                 [(lit "ko", lit "annyeonghaseyo."); (lit "ja", konnichiwa);
                  (lit "ja_hiragana", konnichiwa); (lit "en", lit "Hello.")])
              konnichiwa I eq_refl eq_refl)
    as (j & d' & _ & N & _ & _ & _ & F).
  exists j, d'. split; [exact N|].
  exact (F konnichiwa_spaced eq_refl).
Defined.

Lemma build_index_loop_keys (items : list (nat * dialogue)) :
  forall (index index' : pydict nat),
    build_index_loop items index = Ok index' ->
    forall k,
      In k (map fst index')
      <-> In k (map fst index)
          \/ exists i d, In (i, d) items /\ ja_key d = Some k.
Proof.
  induction items as [|[i d] items IH]; intros index index'; cbn [build_index_loop].
  - intros [= <-] k. split; [auto | intros [H|(i & d & [] & _)]; exact H].
  - unfold dict_item.
    destruct (dict_get (lines d) (lit "ja")) as [ja|] eqn:G; cbn [bind];
      [|discriminate].
    intros B k. rewrite (IH _ _ B k), dict_set_keys.
    assert (K : ja_key d = Some (remove_whitespace ja))
      by (unfold ja_key; rewrite G; reflexivity).
    split.
    + intros [[->|H]|(j & e & I & E)]; auto.
      * right. exists i, d. split; [left; reflexivity | exact K].
      * right. exists j, e. split; [right; exact I | exact E].
    + intros [H|(j & e & [I|I] & E)]; auto.
      * injection I as <- <-. left. left. congruence.
      * right. eauto.
Qed.

Lemma build_index_loop_raises (items : list (nat * dialogue)) :
  forall index,
    (Forall (fun p => ja_key (snd p) <> None) items
     /\ exists index', build_index_loop items index = Ok index')
    \/ (Exists (fun p => ja_key (snd p) = None) items
        /\ build_index_loop items index = Raise KeyError).
Proof.
  induction items as [|[i d] items IH]; intros index; cbn [build_index_loop].
  - left. split; [constructor | eauto].
  - unfold dict_item.
    destruct (dict_get (lines d) (lit "ja")) as [ja|] eqn:G; cbn [bind].
    + assert (K : ja_key d <> None) by (unfold ja_key; rewrite G; discriminate).
      destruct (IH (dict_set index (remove_whitespace ja) i))
        as [[F E]|[X E]].
      * left. split; [constructor; auto | exact E].
      * right. split; [apply Exists_cons_tl; exact X | exact E].
    + right. split; [|reflexivity].
      apply Exists_cons_hd. unfold ja_key. cbn [snd]. rewrite G. reflexivity.
Qed.

Lemma combine_seq_nth {A} (xs : list A) :
  forall (a i : nat) (x : A),
    nth_error xs i = Some x -> In (a + i, x) (combine (seq a (length xs)) xs).
Proof.
  induction xs as [|y xs IH]; intros a [|i] x N; cbn in *; try discriminate.
  - injection N as ->. left. f_equal. lia.
  - right. replace (a + S i) with (S a + i) by lia. apply IH, N.
Qed.

Lemma enumerate_In {A} (xs : list A) (x : A) :
  In x xs -> exists i, In (i, x) (enumerate xs).
Proof.
  intros D. destruct (In_nth_error _ _ D) as [i N].
  exists (0 + i). apply combine_seq_nth, N.
Qed.

(** X5: The constructor of a converter raises exactly when a record has no
    Japanese line, and then it is [KeyError]; otherwise the keys of the
    index are the normalized Japanese lines of the records. *)
Theorem init_key_error (data : list dialogue) :
  (Forall (fun d => ja_key d <> None) data
   /\ exists self,
       __init__ data = Ok self
       /\ dialogue_data self = data
       /\ forall k, In k (map fst (dialogue_index_map self))
                    <-> exists d, In d data /\ ja_key d = Some k)
  \/ (Exists (fun d => ja_key d = None) data
      /\ __init__ data = Raise KeyError).
Proof.
  unfold __init__, _build_dialogue_index.
  cbn [dialogue_data dialogue_index_map sequence_data missing_translations].
  destruct (build_index_loop_raises (enumerate data) []) as [[F [index E]]|[X E]].
  - left. split.
    + apply Forall_forall. intros d D.
      destruct (enumerate_In data d D) as [i I].
      rewrite Forall_forall in F. exact (F (i, d) I).
    + rewrite E. cbn [bind]. eexists. split; [reflexivity|].
      cbn [dialogue_data dialogue_index_map]. split; [reflexivity|].
      intros k. rewrite (build_index_loop_keys _ _ _ E k). cbn [map].
      split.
      * intros [[]|(i & d & I & K)]. exists d. split; auto.
        unfold enumerate in I. apply in_combine_r in I. exact I.
      * intros (d & D & K). right.
        destruct (enumerate_In data d D) as [i I]. eauto.
  - right. split; [|rewrite E; reflexivity].
    apply Exists_exists in X as ([i d] & I & K). apply Exists_exists.
    exists d. split; [|exact K]. unfold enumerate in I.
    apply in_combine_r in I. exact I.
Qed.

Lemma list_item_In {A} (xs : list A) (i : nat) (x : A) :
  list_item xs i = Ok x -> In x xs.
Proof.
  unfold list_item. destruct (nth_error xs i) eqn:E; [|discriminate].
  intros [= <-]. exact (nth_error_In _ _ E).
Qed.

Lemma scan_index_In (data : list dialogue) (normalized : pystr)
      (items : list (pystr * nat)) (d : dialogue) :
  scan_index data normalized items = Ok (Some d) -> In d data.
Proof.
  induction items as [|[k i] items IH]; cbn [scan_index]; [discriminate|].
  destruct (_ || _); auto.
  destruct (list_item data i) as [x|] eqn:E; cbn [bind]; [|discriminate].
  intros [= <-]. exact (list_item_In _ _ _ E).
Qed.

(** X8: Matching on a converter as [__init__] builds it never raises, and a
    record it returns is one of the records of the converter. *)
Theorem find_matching_dialogue_safe
        (data : list dialogue) (self : SBVConverter) (japanese_text : pystr) :
  __init__ data = Ok self ->
  exists r,
    find_matching_dialogue (dialogue_data self) (dialogue_index_map self)
                           japanese_text = Ok r
    /\ forall d, r = Some d -> In d data.
Proof.
  intros I. destruct (init_index_ok data self I) as (O & D & _).
  destruct (find_matching_dialogue_total _ _ O japanese_text) as [r E].
  exists r. split; [exact E|]. intros d ->. rewrite <- D.
  revert E. unfold find_matching_dialogue, dict_mem, dict_item.
  destruct (dict_get _ _) as [idx|]; cbn [bind].
  - destruct (list_item (dialogue_data self) idx) as [x|] eqn:L; cbn [bind];
      [|discriminate].
    intros [= <-]. exact (list_item_In _ _ _ L).
  - apply scan_index_In.
Qed.

Lemma find_matching_dialogue_safe_witness :
  exists self r,
    __init__ sample_dialogues = Ok self
    /\ find_matching_dialogue (dialogue_data self) (dialogue_index_map self)
                              (lit "no such line") = Ok r
    /\ forall d, r = Some d -> In d sample_dialogues.
Proof.
  assert (I : __init__ sample_dialogues
              = Ok (mk_SBVConverter sample_dialogues sample_index []
                      [(lit "ko", 0); (lit "en", 0); (lit "ja", 0)]))
    by (vm_compute; reflexivity).
  destruct (find_matching_dialogue_safe sample_dialogues _ (lit "no such line") I)
    as (r & E & S).
  eexists _, r. split; [exact I|]. split; [exact E | exact S].
Defined.

(** ** Timecodes, field by field *)

Lemma find_sub_char_absent (c : char) (a : pystr) :
  ~ In c a -> find_sub [c] a = None.
Proof.
  induction a as [|x a IH]; intros H; rewrite find_sub_char; auto.
  destruct (char_eqb c x) eqn:E.
  - apply char_eqb_eq in E as ->. destruct H. left. reflexivity.
  - rewrite IH; auto. intros I. apply H. right. exact I.
Qed.

Lemma find_sub_char_at (c : char) (a rest : pystr) :
  ~ In c a -> find_sub [c] (a ++ c :: rest) = Some (length a).
Proof.
  induction a as [|x a IH]; intros H; rewrite find_sub_char; cbn [app length].
  - unfold char_eqb. rewrite N.eqb_refl. reflexivity.
  - destruct (char_eqb c x) eqn:E.
    + apply char_eqb_eq in E as ->. destruct H. left. reflexivity.
    + rewrite IH; auto. intros I. apply H. right. exact I.
Qed.

Lemma split_char_last (c : char) (a : pystr) :
  ~ In c a -> split [c] a = [a].
Proof.
  intros H. unfold split. destruct (length a); cbn [split_n]; auto.
  rewrite find_sub_char_absent; auto.
Qed.

Lemma split_char_field (c : char) (a rest : pystr) :
  ~ In c a -> split [c] (a ++ c :: rest) = a :: split [c] rest.
Proof.
  intros H. unfold split. rewrite length_app. cbn [length].
  replace (length a + S (length rest)) with (S (length a + length rest)) by lia.
  cbn [split_n]. rewrite find_sub_char_at by exact H.
  rewrite firstn_app, Nat.sub_diag, firstn_all. cbn [firstn]. rewrite app_nil_r.
  f_equal. cbn [length].
  rewrite skipn_app, skipn_all2 by lia.
  replace (length a + 1 - length a) with 1 by lia. cbn [skipn app].
  apply split_n_enough; [discriminate | lia | lia].
Qed.

Lemma convert_timecode_four_fields (a b c d : pystr) :
  ~ In 59%N a -> ~ In 59%N b -> ~ In 59%N c -> ~ In 59%N d ->
  convert_timecode (a ++ lit ";" ++ b ++ lit ";" ++ c ++ lit ";" ++ d)
  = (hours <- py_int a ;;
     minutes <- py_int b ;;
     seconds <- py_int c ;;
     frames <- py_int d ;;
     milliseconds <- frames_to_milliseconds frames ;;
     Ok (str_of_int hours ++ lit ":" ++ format_0d 2 minutes ++ lit ":"
         ++ format_0d 2 seconds ++ lit "." ++ format_0d 3 milliseconds)).
Proof.
  intros Ha Hb Hc Hd. unfold convert_timecode.
  change (lit ";") with [59%N]. cbn [app].
  rewrite !split_char_field, split_char_last by assumption.
  reflexivity.
Qed.

(** X1: Four fields without [;] that [int()] accepts, the last one a frame
    number below 969: the result is the hours as they are, minutes and
    seconds padded to two digits and [frames * 1000 / 30] padded to
    three. Whitespace around a field and a sign are accepted with the
    number. *)
Theorem convert_timecode_fields
        (a b c d : pystr) (hours minutes seconds : Z) (frames : nat) :
  ~ In 59%N a -> ~ In 59%N b -> ~ In 59%N c -> ~ In 59%N d ->
  py_int a = Ok hours -> py_int b = Ok minutes -> py_int c = Ok seconds ->
  py_int d = Ok (Z.of_nat frames) ->
  frames < 969 ->
  convert_timecode (a ++ lit ";" ++ b ++ lit ";" ++ c ++ lit ";" ++ d)
  = Ok (str_of_int hours ++ lit ":" ++ format_0d 2 minutes ++ lit ":"
        ++ format_0d 2 seconds ++ lit "."
        ++ format_0d 3 (Z.of_nat frames * 1000 / 30)).
Proof.
  intros Ha Hb Hc Hd Pa Pb Pc Pd F.
  rewrite convert_timecode_four_fields by assumption.
  rewrite Pa, Pb, Pc, Pd. cbn [bind].
  rewrite frames_to_milliseconds_30fps by exact F. reflexivity.
Qed.

Lemma convert_timecode_fields_witness :
  convert_timecode (lit " 1" ++ lit ";" ++ lit "-2" ++ lit ";" ++ lit "3 "
                    ++ lit ";" ++ lit "+15")
  = Ok (lit "1:-2:03.500").
Proof.
  exact (convert_timecode_fields (lit " 1") (lit "-2") (lit "3 ") (lit "+15")
           1 (-2) 3 15
           ltac:(vm_compute; intuition discriminate)
           ltac:(vm_compute; intuition discriminate)
           ltac:(vm_compute; intuition discriminate)
           ltac:(vm_compute; intuition discriminate)
           eq_refl eq_refl eq_refl eq_refl ltac:(lia)).
Defined.

Lemma two_digits_field (n : nat) :
  n < 100 ->
  ~ In 59%N (format_0d 2 (Z.of_nat n))
  /\ py_int (format_0d 2 (Z.of_nat n)) = Ok (Z.of_nat n)
  /\ length (format_0d 2 (Z.of_nat n)) = 2.
Proof.
  intros H.
  assert (A : forallb
    (fun k =>
       let s := format_0d 2 (Z.of_nat k) in
       negb (existsb (N.eqb 59) s)
       && match py_int s with Ok v => (v =? Z.of_nat k)%Z | Raise _ => false end
       && (length s =? 2)) (seq 0 100) = true) by (vm_compute; reflexivity).
  rewrite forallb_forall in A. specialize (A n ltac:(apply in_seq; lia)).
  cbv zeta in A. apply andb_true_iff in A as [A L].
  apply andb_true_iff in A as [S P]. repeat split.
  - intros I. apply negb_true_iff in S.
    assert (X : existsb (N.eqb 59) (format_0d 2 (Z.of_nat n)) = true).
    { apply existsb_exists. exists 59%N. split; [exact I | apply N.eqb_refl]. }
    congruence.
  - destruct (py_int _); [|discriminate]. apply Z.eqb_eq in P. congruence.
  - apply Nat.eqb_eq, L.
Qed.

(** X2: An editor timecode [HH;MM;SS;FF] with a frame number below 30 becomes
    [H:MM:SS.mmm]: the hours without padding, two digits for minutes and
    for seconds, and exactly three digits for the milliseconds, which are
    [FF * 1000 / 30] rounded down. *)
Theorem convert_timecode_editor (hh mm ss ff : nat) :
  hh < 100 -> mm < 100 -> ss < 100 -> ff < 30 ->
  convert_timecode (editor_timecode hh mm ss ff)
  = Ok (str_of_int (Z.of_nat hh) ++ lit ":" ++ format_0d 2 (Z.of_nat mm)
        ++ lit ":" ++ format_0d 2 (Z.of_nat ss) ++ lit "."
        ++ format_0d 3 (Z.of_nat ff * 1000 / 30))
  /\ length (format_0d 2 (Z.of_nat mm)) = 2
  /\ length (format_0d 2 (Z.of_nat ss)) = 2
  /\ length (format_0d 3 (Z.of_nat ff * 1000 / 30)) = 3.
Proof.
  intros Hh Hm Hs Hf.
  destruct (two_digits_field hh Hh) as (Na & Pa & _).
  destruct (two_digits_field mm Hm) as (Nb & Pb & Lb).
  destruct (two_digits_field ss Hs) as (Nc & Pc & Lc).
  destruct (two_digits_field ff ltac:(lia)) as (Nd & Pd & _).
  split; [|split; [exact Lb | split; [exact Lc|]]].
  - unfold editor_timecode.
    rewrite convert_timecode_four_fields by assumption.
    rewrite Pa, Pb, Pc, Pd. cbn [bind].
    rewrite frames_to_milliseconds_30fps by lia. reflexivity.
  - assert (A : forallb
      (fun k => length (format_0d 3 (Z.of_nat k * 1000 / 30)) =? 3)
      (seq 0 30) = true) by (vm_compute; reflexivity).
    rewrite forallb_forall in A.
    apply Nat.eqb_eq, A, in_seq. lia.
Qed.

Lemma convert_timecode_editor_witness :
  convert_timecode (editor_timecode 0 1 5 15) = Ok (lit "0:01:05.500").
Proof.
  exact (proj1 (convert_timecode_editor 0 1 5 15
                  ltac:(lia) ltac:(lia) ltac:(lia) ltac:(lia))).
Defined.

(** ** The groups behind the records *)

Lemma parse_group_length (g : list pystr) (d : dialogue) :
  _parse_dialogue_group g = Some d -> 4 <= length g.
Proof.
  unfold _parse_dialogue_group. destruct (length g <? 4) eqn:L; [discriminate|].
  apply Nat.ltb_ge in L. auto.
Qed.

Lemma slice_length_le {A} (xs : list A) (i j : nat) :
  length (slice xs i j) <= length xs - i.
Proof.
  unfold slice. rewrite length_firstn, length_skipn. lia.
Qed.

Lemma spaced_weaken (lo lo' : nat) (js : list nat) :
  lo' <= lo -> spaced lo js -> spaced lo' js.
Proof. destruct js; cbn; [auto | intros H [L S]; split; [lia | exact S]]. Qed.

Lemma parse_loop_positions (ls : list pystr) (fuel : nat) :
  forall (i : nat) (acc : list dialogue),
    length ls - i <= fuel ->
    exists js ds,
      parse_loop fuel ls i acc = Some (acc ++ ds)
      /\ Forall2 (fun j d => _parse_dialogue_group (slice ls j (j + 4)) = Some d)
                 js ds
      /\ spaced i js
      /\ Forall (fun j => j + 4 <= length ls) js
      /\ 4 * length js <= length ls - i.
Proof.
  induction fuel as [|fuel IH]; intros i acc H; rewrite parse_loop_unfold.
  - destruct (i <? length ls) eqn:C.
    + apply Nat.ltb_lt in C. lia.
    + exists [], []. rewrite app_nil_r. cbn. repeat split; auto. lia.
  - destruct (i <? length ls) eqn:C.
    + apply Nat.ltb_lt in C.
      assert (Next : exists js ds,
        parse_loop fuel ls (i + 1) acc = Some (acc ++ ds)
        /\ Forall2 (fun j d => _parse_dialogue_group (slice ls j (j + 4)) = Some d)
                   js ds
        /\ spaced i js
        /\ Forall (fun j => j + 4 <= length ls) js
        /\ 4 * length js <= length ls - i).
      { destruct (IH (i + 1) acc ltac:(lia)) as (js & ds & E & F & S & B & L).
        exists js, ds. repeat split; auto; [|lia].
        apply (spaced_weaken (i + 1)); [lia | exact S]. }
      destruct (negb _); [exact Next|].
      destruct (contains _ _); [|exact Next].
      destruct (_parse_dialogue_group (slice ls i (i + 4))) as [d|] eqn:G;
        [|exact Next].
      pose proof (parse_group_length _ _ G) as L4.
      pose proof (slice_length_le ls i (i + 4)) as L5.
      destruct (IH (i + 4) (acc ++ [d]) ltac:(lia)) as (js & ds & E & F & S & B & L).
      exists (i :: js), (d :: ds). rewrite E, <- app_assoc.
      repeat split; auto; cbn [length]; try lia.
      constructor; [lia | exact B].
    + exists [], []. rewrite app_nil_r. cbn. repeat split; auto. lia.
Qed.

(** X3: The records of [parse_file] are the groups at positions that go up
    through the file without overlapping: every record uses up four lines
    of its own, so there are at most a quarter as many records as
    lines. *)
Theorem parse_file_groups_disjoint (ls : list pystr) :
  exists js ds,
    parse_file ls = Some ds
    /\ Forall2 (fun j d => _parse_dialogue_group (slice ls j (j + 4)) = Some d)
               js ds
    /\ spaced 0 js
    /\ Forall (fun j => j + 4 <= length ls) js
    /\ 4 * length ds <= length ls.
Proof.
  destruct (parse_loop_positions ls (length ls) 0 [] ltac:(lia))
    as (js & ds & E & F & S & B & L).
  exists js, ds. repeat split; auto.
  rewrite <- (Forall2_length F). lia.
Qed.

(** X4: Without the separator in any line there are no records. *)
Theorem parse_file_no_separator (ls : list pystr) :
  (forall l, In l ls -> contains colon_sep (strip l) = false) ->
  parse_file ls = Some [].
Proof.
  intros H.
  assert (L : script_lines (map Skipped ls) = ls).
  { unfold script_lines. induction ls as [|l ls IH]; cbn; auto.
    f_equal. apply IH. intros x I. apply H. right. exact I. }
  assert (R : script_records (map Skipped ls) = []).
  { unfold script_records. clear. induction ls; cbn; auto. }
  assert (O : Forall item_ok (map Skipped ls)).
  { apply Forall_forall. intros it I. apply in_map_iff in I as (l & <- & I).
    cbn. apply H, I. }
  pose proof (parse_loop_script (map Skipped ls) O [] [] (length ls)) as P.
  rewrite L, R in P. apply P. lia.
Qed.

Lemma parse_file_no_separator_witness :
  parse_file [lit "arona: hello"; lit ""; lit "plana :bye"] = Some [].
Proof.
  apply parse_file_no_separator.
  intros l [<-|[<-|[<-|[]]]]; vm_compute; reflexivity.
Defined.

(** ** More on timeline parsing *)

(** Invariants of the outer loop of [parse_sequence_file]. *)
Lemma seq_loop_invariant (ls : list pystr) (Inv : seq_state -> Prop) :
  (forall st st', cursor st < length ls -> Inv st ->
                  seq_body ls st = Ok st' -> Inv st') ->
  forall fuel st,
    length ls - cursor st <= fuel -> Inv st ->
    exists st' r,
      seq_loop fuel ls st = Some (st', r)
      /\ Inv st'
      /\ match r with
         | None => length ls <= cursor st'
         | Some e => cursor st' < length ls /\ seq_body ls st' = Raise e
         end.
Proof.
  intros Step. induction fuel as [|fuel IH]; intros st H I; cbn [seq_loop].
  - destruct (cursor st <? length ls) eqn:C.
    + apply Nat.ltb_lt in C. lia.
    + apply Nat.ltb_ge in C. exists st, None. auto.
  - destruct (cursor st <? length ls) eqn:C.
    + apply Nat.ltb_lt in C.
      destruct (seq_body ls st) as [st1|e] eqn:B.
      * destruct (seq_body_step _ _ _ B) as (Lt & _).
        apply IH; [lia | eapply Step; eauto].
      * exists st, (Some e). auto.
    + apply Nat.ltb_ge in C. exists st, None. auto.
Qed.

Lemma int_of_float_raises (x : spec_float) (e : exn) :
  int_of_float x = Raise e -> e = ValueError \/ e = OverflowError.
Proof.
  destruct x; cbn [int_of_float]; intros X; try discriminate X;
    injection X as <-; auto.
Qed.

Lemma float_of_int_raises (z : Z) (e : exn) :
  float_of_int z = Raise e -> e = OverflowError.
Proof.
  unfold float_of_int. destruct (float_of_Z z); intros X;
    try discriminate X; injection X as <-; auto.
Qed.

Lemma frames_to_milliseconds_raises (frames : Z) (e : exn) :
  frames_to_milliseconds frames = Raise e ->
  e = ValueError \/ e = OverflowError.
Proof.
  unfold frames_to_milliseconds.
  destruct (float_of_int frames) as [f|x] eqn:F; cbn [bind].
  - apply int_of_float_raises.
  - intros X. injection X as <-. right. exact (float_of_int_raises _ _ F).
Qed.

Lemma convert_timecode_raises (premiere_time : pystr) (e : exn) :
  convert_timecode premiere_time = Raise e ->
  e = ValueError \/ e = OverflowError.
Proof.
  unfold convert_timecode.
  set (parts := split (lit ";") premiere_time).
  destruct (negb _); [discriminate|].
  assert (V : forall s x, py_int s = Raise x ->
                          @Raise pystr x = Raise e ->
                          e = ValueError \/ e = OverflowError).
  { intros s x E X. injection X as <-. left.
    exact (py_int_raises_ValueError _ _ E). }
  destruct (py_int (nth 0 parts [])) as [h|x] eqn:E1; cbn [bind];
    [|exact (V _ _ E1)].
  destruct (py_int (nth 1 parts [])) as [m|x] eqn:E2; cbn [bind];
    [|exact (V _ _ E2)].
  destruct (py_int (nth 2 parts [])) as [s|x] eqn:E3; cbn [bind];
    [|exact (V _ _ E3)].
  destruct (py_int (nth 3 parts [])) as [f|x] eqn:E4; cbn [bind];
    [|exact (V _ _ E4)].
  destruct (frames_to_milliseconds f) as [ms|x] eqn:F; cbn [bind];
    [discriminate|].
  intros X. injection X as <-. exact (frames_to_milliseconds_raises _ _ F).
Qed.

Lemma seq_body_raises (ls : list pystr) (st : seq_state) (e : exn) :
  seq_body ls st = Raise e ->
  opens_cue (nth (cursor st) ls []) = true
  /\ (e = ValueError \/ e = OverflowError).
Proof.
  unfold seq_body, opens_cue.
  set (times := split (lit " - ") (strip (nth (cursor st) ls []))).
  destruct (is_timecode_line _).
  - destruct (length times =? 2); [|discriminate].
    destruct (convert_timecode (nth 0 times [])) as [s|x] eqn:E1; cbn [bind].
    + destruct (convert_timecode (nth 1 times [])) as [t|x] eqn:E2; cbn [bind];
        [discriminate|].
      intros X. injection X as <-.
      split; [reflexivity | exact (convert_timecode_raises _ _ E2)].
    + intros X. injection X as <-.
      split; [reflexivity | exact (convert_timecode_raises _ _ E1)].
  - destruct (is_tag_line _); [|discriminate].
    destruct (collect_text _ _ _). discriminate.
Qed.

Lemma nth_In_lines (ls : list pystr) (i : nat) :
  i < length ls -> In (nth i ls []) ls.
Proof. apply nth_In. Qed.

(** X11: Without a line that opens a cue nothing is emitted and nothing is
    raised: speaker blocks before the first marker are dropped. *)
Theorem parse_sequence_file_no_marker (ls : list pystr) (self : SBVConverter) :
  (forall l, In l ls -> opens_cue l = false) ->
  parse_sequence_file ls self = Some (self, Ok tt).
Proof.
  intros H. unfold parse_sequence_file.
  destruct (seq_loop_invariant ls
              (fun st => current_entry st = None
                         /\ emitted st = sequence_data self))
    with (fuel := length ls) (st := mk_seq_state 0 None (sequence_data self))
    as (st & r & L & [C E] & R).
  - intros st st' Hc [C E] B.
    pose proof (H _ (nth_In_lines ls (cursor st) Hc)) as M.
    unfold opens_cue in M. revert B. unfold seq_body.
    destruct (is_timecode_line _).
    + cbn [andb] in M. rewrite M. intros [= <-]. cbn. auto.
    + destruct (is_tag_line _).
      * destruct (collect_text _ _ _) as [j text_lines]. rewrite C.
        intros [= <-]. cbn. split; auto. destruct text_lines; reflexivity.
      * intros [= <-]. cbn. auto.
  - cbn. lia.
  - cbn. auto.
  - rewrite L. destruct r as [e|].
    + destruct R as [Hc B]. apply seq_body_raises in B as [M _].
      rewrite (H _ (nth_In_lines ls (cursor st) Hc)) in M. discriminate.
    + rewrite C, E. cbn [flush]. destruct self; reflexivity.
Qed.

Lemma parse_sequence_file_no_marker_witness :
  parse_sequence_file [lit "V5, 1"; lit "konnichiwa"; lit ""; lit "a - b"]
                      empty_converter
  = Some (empty_converter, Ok tt).
Proof.
  apply parse_sequence_file_no_marker.
  intros l [<-|[<-|[<-|[<-|[]]]]]; vm_compute; reflexivity.
Defined.

Lemma filter_firstn_step {A} (p : A -> bool) (d : A) (xs : list A) :
  forall i, i < length xs ->
    length (filter p (firstn (S i) xs))
    = length (filter p (firstn i xs)) + (if p (nth i xs d) then 1 else 0).
Proof.
  induction xs as [|x xs IH]; intros i H; [cbn in H; lia|].
  destruct i as [|i].
  - cbn. destruct (p x); reflexivity.
  - cbn in H. specialize (IH i ltac:(lia)).
    change (firstn (S (S i)) (x :: xs)) with (x :: firstn (S i) xs).
    change (firstn (S i) (x :: xs)) with (x :: firstn i xs).
    change (nth (S i) (x :: xs) d) with (nth i xs d).
    cbn [filter]. destruct (p x); cbn [length]; rewrite IH; lia.
Qed.

Lemma filter_firstn_mono {A} (p : A -> bool) (xs : list A) (i j : nat) :
  i <= j ->
  length (filter p (firstn i xs)) <= length (filter p (firstn j xs)).
Proof.
  revert i j; induction xs as [|x xs IH]; intros i j H.
  - rewrite !firstn_nil. lia.
  - destruct i as [|i]; [cbn; lia|]. destruct j as [|j]; [lia|].
    change (firstn (S i) (x :: xs)) with (x :: firstn i xs).
    change (firstn (S j) (x :: xs)) with (x :: firstn j xs).
    cbn [filter]. specialize (IH i j ltac:(lia)).
    destruct (p x); cbn [length]; lia.
Qed.

Lemma filter_firstn_le {A} (p : A -> bool) (xs : list A) (i : nat) :
  length (filter p (firstn i xs)) <= length (filter p xs).
Proof.
  rewrite <- (firstn_all xs) at 2.
  destruct (Nat.le_ge_cases i (length xs)).
  - apply filter_firstn_mono; assumption.
  - rewrite (firstn_all2 xs) by assumption. rewrite firstn_all. lia.
Qed.

Lemma flush_length (current : option entry) (data : list entry) :
  length (flush current data)
  <= length data + match current with Some _ => 1 | None => 0 end.
Proof.
  destruct current as [e|]; cbn; [|lia].
  destruct (texts e); [lia|]. rewrite length_app. cbn. lia.
Qed.

(** X12: There are never more cues than lines that open one. *)
Theorem parse_sequence_file_cue_count (ls : list pystr) (self : SBVConverter) :
  exists self' r,
    parse_sequence_file ls self = Some (self', r)
    /\ length (sequence_data self')
       <= length (sequence_data self) + length (filter opens_cue ls).
Proof.
  unfold parse_sequence_file.
  set (pending := fun st => match current_entry st with
                            | Some _ => 1 | None => 0 end).
  destruct (seq_loop_invariant ls
              (fun st => length (emitted st) + pending st
                         <= length (sequence_data self)
                            + length (filter opens_cue (firstn (cursor st) ls))))
    with (fuel := length ls) (st := mk_seq_state 0 None (sequence_data self))
    as (st & r & L & I & R).
  - intros st st' Hc I B.
    pose proof (filter_firstn_step opens_cue [] ls (cursor st) Hc) as St.
    pose proof (flush_length (current_entry st) (emitted st)) as FL.
    assert (Oc : opens_cue (nth (cursor st) ls [])
                 = is_timecode_line (strip (nth (cursor st) ls []))
                   && (length (split (lit " - ") (strip (nth (cursor st) ls [])))
                       =? 2)) by reflexivity.
    rewrite Oc in St. clear Oc.
    revert B. unfold seq_body.
    destruct (is_timecode_line (strip (nth (cursor st) ls []))) eqn:M;
      cbn [andb] in St.
    + destruct (length (split (lit " - ") (strip (nth (cursor st) ls []))) =? 2)
        eqn:T.
      * destruct (convert_timecode _); cbn [bind]; [|discriminate].
        destruct (convert_timecode _); cbn [bind]; [|discriminate].
        intros [= <-]. unfold pending in *. cbn [emitted cursor current_entry].
        replace (cursor st + 1) with (S (cursor st)) by lia. lia.
      * intros [= <-]. unfold pending in *. cbn [emitted cursor current_entry].
        replace (cursor st + 1) with (S (cursor st)) by lia. lia.
    + destruct (is_tag_line _).
      * pose proof (collect_text_cursor (skipn (cursor st + 1) ls)
                      (cursor st + 1) []) as C.
        destruct (collect_text _ _ _) as [j text_lines]. cbn [fst] in C.
        intros [= <-]. unfold pending in *. cbn [emitted cursor current_entry].
        pose proof (filter_firstn_mono opens_cue ls (cursor st) (j - 1 + 1)
                      ltac:(lia)) as Mo.
        destruct text_lines, (current_entry st); lia.
      * intros [= <-]. unfold pending in *. cbn [emitted cursor current_entry].
        replace (cursor st + 1) with (S (cursor st)) by lia. lia.
  - cbn. lia.
  - unfold pending. cbn. lia.
  - rewrite L.
    pose proof (filter_firstn_le opens_cue ls (cursor st)) as FT.
    pose proof (flush_length (current_entry st) (emitted st)) as FL.
    unfold pending in I.
    destruct r as [e|]; eexists _, _; (split; [reflexivity|]);
      cbn [sequence_data]; lia.
Qed.

Lemma blank_app (a b : pystr) : blank (a ++ b) = blank a && blank b.
Proof. apply forallb_app. Qed.

Lemma join_not_blank (sep x : pystr) (xs : list pystr) :
  blank x = false -> blank (join sep (x :: xs)) = false.
Proof.
  intros B. destruct xs; cbn [join]; [exact B|].
  rewrite blank_app, B. reflexivity.
Qed.

Lemma collect_text_not_blank (rest : list pystr) :
  forall j acc,
    Forall (fun s => blank s = false) acc ->
    Forall (fun s => blank s = false) (snd (collect_text rest j acc)).
Proof.
  induction rest as [|l rest IH]; intros j acc F; cbn [collect_text]; auto.
  destruct (truthy (strip l)) eqn:T; cbn [negb]; auto.
  destruct (is_tag_line _); auto. destruct (is_timecode_line _); auto.
  apply IH. apply Forall_app. split; auto. constructor; auto.
  apply strip_not_blank. destruct (strip l); [discriminate | congruence].
Qed.

Lemma parse_sequence_file_effects (ls : list pystr) (self : SBVConverter) :
  exists self' r new,
    parse_sequence_file ls self = Some (self', r)
    /\ sequence_data self' = sequence_data self ++ new
    /\ Forall cue_texts_ok new
    /\ dialogue_data self' = dialogue_data self
    /\ dialogue_index_map self' = dialogue_index_map self
    /\ missing_translations self' = missing_translations self
    /\ forall e, r = Raise e -> e = ValueError \/ e = OverflowError.
Proof.
  unfold parse_sequence_file.
  destruct (seq_loop_invariant ls
              (fun st => (exists new, emitted st = sequence_data self ++ new
                                      /\ Forall cue_texts_ok new)
                         /\ forall e, current_entry st = Some e -> cue_texts_ok e))
    with (fuel := length ls) (st := mk_seq_state 0 None (sequence_data self))
    as (st & r & L & [(new & E & F) C] & R).
  - intros st st' Hc [(new & E & F) C] B.
    assert (Fl : exists new', flush (current_entry st) (emitted st)
                              = sequence_data self ++ new'
                              /\ Forall cue_texts_ok new').
    { destruct (flush_only_with_texts (current_entry st) (emitted st))
        as (n1 & E1 & _ & [->|(e & Ce & ->)]).
      - exists new. rewrite E1, app_nil_r. auto.
      - exists (new ++ [e]). rewrite E1, E, app_assoc. split; auto.
        apply Forall_app. split; auto. }
    revert B. unfold seq_body.
    destruct (is_timecode_line _).
    + destruct (length _ =? 2).
      * destruct (convert_timecode _); cbn [bind]; [|discriminate].
        destruct (convert_timecode _); cbn [bind]; [|discriminate].
        intros [= <-]. cbn [emitted current_entry]. split; [exact Fl|].
        intros e [= <-]. constructor.
      * intros [= <-]. cbn [emitted current_entry]. eauto.
    + destruct (is_tag_line _).
      * pose proof (collect_text_not_blank (skipn (cursor st + 1) ls)
                      (cursor st + 1) [] (Forall_nil _)) as T.
        destruct (collect_text _ _ _) as [j text_lines]. cbn [snd] in T.
        intros [= <-]. cbn [emitted current_entry]. split; [eauto|].
        destruct text_lines as [|x xs]; [exact C|].
        destruct (current_entry st) as [e0|]; [|discriminate].
        intros e [= <-]. unfold cue_texts_ok. cbn [texts].
        apply Forall_app. split; [exact (C e0 eq_refl)|].
        constructor; [|constructor].
        change (blank (join (lit " ") (x :: xs)) = false).
        apply join_not_blank. inversion T; assumption.
      * intros [= <-]. cbn [emitted current_entry]. eauto.
  - cbn. lia.
  - cbn. split; [exists []; rewrite app_nil_r; auto | discriminate].
  - rewrite L. destruct r as [e|].
    + exists (mk_SBVConverter (dialogue_data self) (dialogue_index_map self)
                (emitted st) (missing_translations self)), (Raise e), new.
      cbn. repeat split; auto.
      intros e' [= <-]. destruct R as [_ B].
      exact (proj2 (seq_body_raises _ _ _ B)).
    + destruct (flush_only_with_texts (current_entry st) (emitted st))
        as (n1 & E1 & _ & [->|(e & Ce & ->)]).
      * eexists _, (Ok tt), new. split; [reflexivity|]. cbn.
        rewrite E1, app_nil_r. repeat split; auto. discriminate.
      * eexists _, (Ok tt), (new ++ [e]). split; [reflexivity|]. cbn.
        rewrite E1, E, app_assoc. repeat split; auto; [|discriminate].
        apply Forall_app. split; auto.
Qed.

(** ** More on rendering *)

Section Blocks.

Variables (data : list dialogue) (index : pydict nat) (language : pystr).
Hypothesis index_wf : index_ok data index.

Lemma caption_loop_closed (ts : list text_entry) :
  forall caption_texts missing_count,
  exists missing_count',
    for_each (caption_body data index language) ts (caption_texts, missing_count)
    = Ok (caption_texts ++ flat_map (captions_for data index language) ts,
          missing_count').
Proof.
  induction ts as [|t ts IH]; intros caption_texts missing_count;
    cbn [for_each flat_map].
  - exists missing_count. rewrite app_nil_r. reflexivity.
  - unfold captions_for at 1. unfold caption_body at 1.
    destruct (find_matching_dialogue_total data index index_wf (text t))
      as [[d|] E]; rewrite E; cbn [bind].
    + unfold dict_mem, dict_item.
      destruct (dict_get (lines d) language) as [v|]; cbn [bind].
      * destruct (IH (caption_texts ++ [v]) missing_count) as [n H].
        exists n. rewrite H, <- app_assoc. reflexivity.
      * destruct (IH caption_texts missing_count) as [n H].
        exists n. rewrite H. reflexivity.
    + destruct (pystr_eqb language (lit "ja")); cbn [bind].
      * destruct (IH (caption_texts ++ [text t]) missing_count) as [n H].
        exists n. rewrite H, <- app_assoc. reflexivity.
      * destruct (IH (caption_texts ++ [placeholder (text t)])
                     (missing_count + 1)) as [n H].
        exists n. rewrite H, <- app_assoc. reflexivity.
Qed.

Lemma entry_loop_closed (cues : list entry) :
  forall sbv_lines missing_count,
  exists missing_count',
    for_each (entry_body data index language) cues (sbv_lines, missing_count)
    = Ok (sbv_lines ++ flat_map (cue_block data index language) cues,
          missing_count').
Proof.
  induction cues as [|e cues IH]; intros sbv_lines missing_count;
    cbn [for_each flat_map].
  - exists missing_count. rewrite app_nil_r. reflexivity.
  - unfold entry_body at 1.
    destruct (caption_loop_closed (texts e) [] missing_count) as [n H].
    rewrite H. cbn [bind app].
    set (caps := flat_map (captions_for data index language) (texts e)).
    assert (J : match caps with
                | _ :: _ => (sbv_lines ++ [start e ++ lit "," ++ end_ e])
                            ++ [join newline caps]
                | [] => (sbv_lines ++ [start e ++ lit "," ++ end_ e]) ++ [[]]
                end
                = (sbv_lines ++ [start e ++ lit "," ++ end_ e])
                  ++ [join newline caps])
      by (destruct caps; reflexivity).
    rewrite J.
    destruct (IH (((sbv_lines ++ [start e ++ lit "," ++ end_ e])
                     ++ [join newline caps]) ++ [[]]) n) as [n' H'].
    exists n'. rewrite H'. unfold cue_block at 2. fold caps.
    rewrite <- !app_assoc. reflexivity.
Qed.

End Blocks.

(** X14: With a well-formed index a rendering does not raise, and the text is
    the cues in order, each as its timecode line, the captions of its
    texts joined by line breaks, and an empty line; a cue without captions
    keeps its timecode line and gets an empty caption line. The caption of
    a text is the line of the matching record in the language (nothing
    when the record lacks the language); without a matching record it is
    the text itself for [ja] and otherwise [[번역 없음: ], the first 30
    characters of the text and [...]]. *)
Theorem create_sbv_content_blocks (language : pystr) (self : SBVConverter) :
  index_ok (dialogue_data self) (dialogue_index_map self) ->
  snd (create_sbv_content language self)
  = Ok (join newline
          (flat_map (cue_block (dialogue_data self) (dialogue_index_map self)
                               language)
                    (sequence_data self))).
Proof.
  intros O. unfold create_sbv_content.
  destruct (entry_loop_closed _ _ language O (sequence_data self) [] 0) as [n H].
  rewrite H. reflexivity.
Qed.

Lemma create_sbv_content_blocks_witness :
  snd (create_sbv_content (lit "en") unmatched_converter)
  = Ok (lit "0:00:24.566,0:00:29.500" ++ newline
        ++ [0x5b; 0xbc88; 0xc5ed; 0x20; 0xc5c6; 0xc74c; 0x3a; 0x20]%N
        ++ lit "konnichiwa...]" ++ newline).
Proof.
  exact (create_sbv_content_blocks (lit "en") unmatched_converter
           ltac:(split; [constructor | intros ? ? []])).
Defined.

Lemma create_sbv_content_state (language : pystr) (self : SBVConverter) :
  exists counters,
    fst (create_sbv_content language self)
    = mk_SBVConverter (dialogue_data self) (dialogue_index_map self)
                      (sequence_data self) counters
    /\ forall other, other <> language ->
         dict_get counters other = dict_get (missing_translations self) other.
Proof.
  unfold create_sbv_content.
  destruct (for_each _ (sequence_data self) ([], 0)) as [[out n]|e]; cbn [fst].
  - eexists. split; [reflexivity|].
    intros other H. apply dict_get_set_other. congruence.
  - exists (missing_translations self). split; [destruct self|]; reflexivity.
Qed.

Lemma create_sbv_content_counters
      (language : pystr) (data : list dialogue) (index : pydict nat)
      (cues : list entry) (c1 c2 : pydict nat) :
  snd (create_sbv_content language (mk_SBVConverter data index cues c1))
  = snd (create_sbv_content language (mk_SBVConverter data index cues c2)).
Proof.
  unfold create_sbv_content. cbn [dialogue_data dialogue_index_map sequence_data].
  destruct (for_each _ cues ([], 0)) as [[out n]|e]; reflexivity.
Qed.

(** X15: A rendering changes nothing of the converter but the counter of the
    language rendered, and the text it returns does not depend on the
    counters: renderings can be made in any order and repeated. *)
Theorem create_sbv_content_frame (language : pystr) (self : SBVConverter) :
  let self' := fst (create_sbv_content language self) in
  dialogue_data self' = dialogue_data self
  /\ dialogue_index_map self' = dialogue_index_map self
  /\ sequence_data self' = sequence_data self
  /\ (forall other, other <> language ->
        dict_get (missing_translations self') other
        = dict_get (missing_translations self) other)
  /\ forall language2,
      snd (create_sbv_content language2 self')
      = snd (create_sbv_content language2 self).
Proof.
  intros self'. subst self'.
  destruct (create_sbv_content_state language self) as (counters & E & K).
  rewrite E. cbn [dialogue_data dialogue_index_map sequence_data
                  missing_translations].
  repeat split; auto.
  intros language2. destruct self. apply create_sbv_content_counters.
Qed.

(** X16: The rendering of phase02, which keeps no counters, returns the same
    text as the one of phase_main, or raises the same exception. *)
Theorem create_sbv_content_copies_agree
        (language : pystr) (data : list dialogue) (index : pydict nat)
        (cues : list entry) (counters : pydict nat) :
  Phase02.create_sbv_content language (Phase02.mk_SBVConverter cues data index)
  = snd (create_sbv_content language
           (mk_SBVConverter data index cues counters)).
Proof.
  assert (C : forall ts caps n,
    match for_each (caption_body data index language) ts (caps, n) with
    | Ok (caps', _) =>
        for_each (Phase02.caption_body data index language) ts caps = Ok caps'
    | Raise e =>
        for_each (Phase02.caption_body data index language) ts caps = Raise e
    end).
  { induction ts as [|t ts IH]; intros caps n; cbn [for_each]; auto.
    unfold caption_body at 1, Phase02.caption_body at 1 3.
    change (Phase02.find_matching_dialogue data index (text t))
      with (find_matching_dialogue data index (text t)).
    destruct (find_matching_dialogue data index (text t)) as [[d|]|e];
      cbn [bind]; auto.
    - destruct (dict_mem (lines d) language); [|apply IH].
      destruct (dict_item (lines d) language); cbn [bind]; [apply IH | auto].
    - destruct (pystr_eqb language (lit "ja")); cbn [bind]; apply IH. }
  assert (E : forall es out n,
    match for_each (entry_body data index language) es (out, n) with
    | Ok (out', _) =>
        for_each (Phase02.entry_body data index language) es out = Ok out'
    | Raise e =>
        for_each (Phase02.entry_body data index language) es out = Raise e
    end).
  { induction es as [|e es IH]; intros out n; cbn [for_each]; auto.
    unfold entry_body at 1, Phase02.entry_body at 1 3.
    specialize (C (texts e) [] n).
    destruct (for_each (caption_body data index language) (texts e) ([], n))
      as [[caps n']|x]; rewrite C; cbn [bind]; auto.
    apply IH. }
  unfold Phase02.create_sbv_content, create_sbv_content.
  cbn [Phase02.dialogue_data Phase02.dialogue_index_map Phase02.sequence_data
       dialogue_data dialogue_index_map sequence_data].
  specialize (E cues [] 0).
  destruct (for_each (entry_body data index language) cues ([], 0))
    as [[out n]|x]; rewrite E; reflexivity.
Qed.

(** X13: Every text of a cue that the parser adds has something to show, and
    the parser touches nothing but [sequence_data]; when it raises, the
    exception comes from a timecode and is [ValueError] or
    [OverflowError]. *)
Theorem parse_sequence_file_texts_and_errors
        (ls : list pystr) (self : SBVConverter) :
  exists self' r new,
    parse_sequence_file ls self = Some (self', r)
    /\ sequence_data self' = sequence_data self ++ new
    /\ Forall cue_texts_ok new
    /\ dialogue_data self' = dialogue_data self
    /\ dialogue_index_map self' = dialogue_index_map self
    /\ missing_translations self' = missing_translations self
    /\ forall e, r = Raise e -> e = ValueError \/ e = OverflowError.
Proof. exact (parse_sequence_file_effects ls self). Qed.

(** ** Statistics *)

Lemma character_eqb_eq (a b : option pystr) :
  character_eqb a b = true <-> a = b.
Proof.
  destruct a as [x|], b as [y|]; cbn; try (split; congruence).
  rewrite pystr_eqb_eq. split; congruence.
Qed.

Lemma counts_get_set (cs : list (option pystr * nat)) (k k' : option pystr)
      (v : nat) :
  counts_get (counts_set cs k v) k'
  = if character_eqb k k' then v else counts_get cs k'.
Proof.
  induction cs as [|[k0 v0] cs IH]; cbn [counts_set counts_get].
  - destruct (character_eqb k k'); reflexivity.
  - destruct (character_eqb k0 k) eqn:E; cbn [counts_get].
    + apply character_eqb_eq in E as ->.
      destruct (character_eqb k k'); reflexivity.
    + rewrite IH. destruct (character_eqb k0 k') eqn:E'; auto.
      destruct (character_eqb k k') eqn:E''; auto.
      apply character_eqb_eq in E' as ->. apply character_eqb_eq in E'' as ->.
      assert (character_eqb k' k' = true) by (apply character_eqb_eq; reflexivity).
      congruence.
Qed.

Lemma counts_sum_incr (cs : list (option pystr * nat)) (k : option pystr) :
  list_sum (map snd (counts_set cs k (counts_get cs k + 1)))
  = list_sum (map snd cs) + 1.
Proof.
  induction cs as [|[k0 v0] cs IH]; cbn [counts_set counts_get]; [reflexivity|].
  destruct (character_eqb k0 k);
    cbn [map snd]; unfold list_sum in *; cbn [fold_right].
  - lia.
  - rewrite IH. lia.
Qed.

Lemma counts_loop_get (ds : list dialogue) :
  forall cs c,
    counts_get
      (fold_left (fun counts d =>
                    let char_ := character d in
                    counts_set counts char_ (counts_get counts char_ + 1))
                 ds cs) c
    = counts_get cs c
      + length (filter (fun d => character_eqb (character d) c) ds).
Proof.
  induction ds as [|d ds IH]; intros cs c; cbn [fold_left filter length].
  - lia.
  - rewrite IH. cbv zeta. rewrite counts_get_set.
    destruct (character_eqb (character d) c) eqn:E; cbn [length]; [|lia].
    apply character_eqb_eq in E as ->. lia.
Qed.

Lemma counts_loop_sum (ds : list dialogue) :
  forall cs,
    list_sum (map snd
      (fold_left (fun counts d =>
                    let char_ := character d in
                    counts_set counts char_ (counts_get counts char_ + 1))
                 ds cs))
    = list_sum (map snd cs) + length ds.
Proof.
  induction ds as [|d ds IH]; intros cs; cbn [fold_left length].
  - lia.
  - rewrite IH. cbv zeta. rewrite counts_sum_incr. lia.
Qed.

(** X17: The statistics count every dialogue once: the number kept for a
    character is the number of its dialogues (0 for a character without
    dialogues), and the numbers add up to the number of dialogues; the loop
    of phase01 is the same. *)
Theorem character_counts_exact (ds : list dialogue) :
  (forall c, counts_get (character_counts ds) c
             = length (filter (fun d => character_eqb (character d) c) ds))
  /\ list_sum (map snd (character_counts ds)) = length ds
  /\ Phase01.character_counts ds = character_counts ds.
Proof.
  unfold character_counts. split; [|split].
  - intros c. rewrite counts_loop_get. reflexivity.
  - rewrite counts_loop_sum. reflexivity.
  - reflexivity.
Qed.

(** ** The whole run *)




Lemma parsed_index_empty_query_witness :
  let ds := [mk_dialogue (Some (lit "a"))
               [(lit "ko", lit "1"); (lit "ja", lit "2");
                (lit "ja_hiragana", lit "3"); (lit "en", lit "4")]] in
  exists d, nth_error ds 0 = Some d
    /\ find_matching_dialogue ds [(lit "2", 0)] (lit " ") = Ok (Some d).
Proof.
  exact (parsed_index_empty_query
           [lit "a : 1"; lit "a : 2"; lit "a : 3"; lit "a : 4"]
           _
           (mk_SBVConverter _ [(lit "2", 0)] []
              [(lit "ko", 0); (lit "en", 0); (lit "ja", 0)])
           (lit " ") (lit "2") 0 []
           ltac:(vm_compute; reflexivity) ltac:(vm_compute; reflexivity)
           eq_refl eq_refl).
Defined.

(** ** The other copies *)

(** X19: The remaining copies agree as well: [parse_file] of phase01 with the
    one of phase_main, and, of phase02, [parse_sequence_file] (cues and
    exception) and the index built by [load_dialogue_json] with those of
    phase_main. *)
Theorem other_copies_agree :
  (forall ls, Phase01.parse_file ls = parse_file ls)
  /\ (forall ls cues data index data' index' counters,
        match Phase02.parse_sequence_file ls
                (Phase02.mk_SBVConverter cues data index) with
        | Some (s, r) => Some (Phase02.sequence_data s, r)
        | None => None
        end
        = match parse_sequence_file ls
                  (mk_SBVConverter data' index' cues counters) with
          | Some (s, r) => Some (sequence_data s, r)
          | None => None
          end)
  /\ (forall data cues data0 index cues' counters,
        match Phase02.load_dialogue_json data
                (Phase02.mk_SBVConverter cues data0 index) with
        | Ok s => Ok (Phase02.dialogue_data s, Phase02.dialogue_index_map s)
        | Raise e => Raise e
        end
        = match _build_dialogue_index
                  (mk_SBVConverter data index cues' counters) with
          | Ok s => Ok (dialogue_data s, dialogue_index_map s)
          | Raise e => Raise e
          end).
Proof.
  split; [|split].
  - intros ls. reflexivity.
  - intros ls cues data index data' index' counters.
    unfold Phase02.parse_sequence_file, parse_sequence_file.
    cbn [Phase02.sequence_data sequence_data].
    change (Phase02.seq_loop (length ls) ls (mk_seq_state 0 None cues))
      with (seq_loop (length ls) ls (mk_seq_state 0 None cues)).
    destruct (seq_loop (length ls) ls (mk_seq_state 0 None cues))
      as [[st [e|]]|]; reflexivity.
  - intros data cues data0 index cues' counters.
    unfold Phase02.load_dialogue_json, _build_dialogue_index.
    cbn [Phase02.dialogue_index_map Phase02.sequence_data dialogue_data
         dialogue_index_map].
    change (Phase02.index_loop (enumerate data) index)
      with (build_index_loop (enumerate data) index).
    destruct (build_index_loop (enumerate data) index); reflexivity.
Qed.

(** ** Well-formed timeline exports *)

Lemma skipn_cons_facts {A} (xs : list A) (i : nat) (x d : A) (t : list A) :
  skipn i xs = x :: t ->
  i < length xs /\ nth i xs d = x /\ skipn (i + 1) xs = t.
Proof.
  revert i; induction xs as [|y xs IH]; intros i H.
  - rewrite skipn_nil in H. discriminate.
  - destruct i as [|i]; cbn in *.
    + injection H as -> ->. repeat split; auto. lia.
    + destruct (IH i H) as (L & N & S). repeat split; auto. lia.
Qed.

Lemma skipn_app_facts {A} (xs : list A) (i : nat) (a b : list A) :
  skipn i xs = a ++ b -> skipn (i + length a) xs = b.
Proof.
  intros H. rewrite Nat.add_comm, <- skipn_skipn, H.
  rewrite skipn_app, skipn_all, Nat.sub_diag. reflexivity.
Qed.

Lemma seq_loop_step (fuel : nat) (ls : list pystr) (st st' : seq_state) :
  cursor st < length ls -> seq_body ls st = Ok st' ->
  seq_loop (S fuel) ls st = seq_loop fuel ls st'.
Proof.
  intros H B. cbn [seq_loop]. apply Nat.ltb_lt in H. rewrite H, B. reflexivity.
Qed.

Lemma seq_loop_end (fuel : nat) (ls : list pystr) (st : seq_state) :
  length ls <= cursor st -> seq_loop fuel ls st = Some (st, None).
Proof.
  intros H. apply Nat.ltb_ge in H. destruct fuel; cbn [seq_loop]; rewrite H;
    reflexivity.
Qed.

Lemma blank_line_inert (l : pystr) : strip l = [] -> inert l.
Proof. intros E. unfold inert. rewrite E. split; reflexivity. Qed.

Lemma inert_step (ls : list pystr) (i : nat) (l : pystr) (rest : list pystr)
      (cur : option entry) (em : list entry) :
  skipn i ls = l :: rest -> inert l ->
  seq_body ls (mk_seq_state i cur em) = Ok (mk_seq_state (i + 1) cur em).
Proof.
  intros S [M T]. destruct (skipn_cons_facts ls i l [] rest S) as (_ & N & _).
  unfold seq_body. cbn [cursor current_entry emitted]. rewrite N, M, T.
  reflexivity.
Qed.

Lemma marker_step (ls : list pystr) (i : nat) (m : pystr) (rest : list pystr)
      (cur : option entry) (em : list entry) (s e : pystr) :
  skipn i ls = m :: rest ->
  is_timecode_line (strip m) = true ->
  marker_times m = Some (s, e) ->
  seq_body ls (mk_seq_state i cur em)
  = Ok (mk_seq_state (i + 1) (Some (mk_entry s e [])) (flush cur em)).
Proof.
  intros S M T. destruct (skipn_cons_facts ls i m [] rest S) as (_ & N & _).
  unfold seq_body. cbn [cursor current_entry emitted]. rewrite N, M.
  unfold marker_times in T.
  destruct (split (lit " - ") (strip m)) as [|a [|b [|c r]]]; try discriminate.
  cbn [length Nat.eqb nth].
  destruct (convert_timecode a); [|discriminate].
  destruct (convert_timecode b); [|discriminate].
  injection T as <- <-. reflexivity.
Qed.

Lemma collect_text_block (xs : list pystr) :
  forall rest j acc,
    Forall text_line_ok xs -> stops_text rest ->
    collect_text (xs ++ rest) j acc = (j + length xs, acc ++ map strip xs).
Proof.
  induction xs as [|x xs IH]; intros rest j acc F St.
  - cbn [app length map]. rewrite Nat.add_0_r, app_nil_r.
    destruct rest as [|l rest]; cbn [collect_text]; auto.
    cbn [stops_text] in St. destruct St as [St|[St|St]].
    + rewrite St. reflexivity.
    + destruct (negb _); auto. rewrite St. reflexivity.
    + destruct (negb _); auto. destruct (is_tag_line _); auto.
      rewrite St. reflexivity.
  - inversion F as [|? ? [Hx [M T]] F']; subst.
    cbn [app collect_text]. destruct (strip x) eqn:E; [congruence|].
    cbn [truthy negb]. rewrite T, M, IH by assumption.
    cbn [length map]. rewrite E, <- app_assoc. f_equal. lia.
Qed.

Lemma tag_step (ls : list pystr) (i : nat) (b : speaker_block)
      (rest : list pystr) (e0 : entry) (em : list entry) :
  skipn i ls = tag_line b :: block_texts b ++ rest ->
  is_timecode_line (strip (tag_line b)) = false ->
  is_tag_line (strip (tag_line b)) = true ->
  block_texts b <> [] ->
  Forall text_line_ok (block_texts b) ->
  stops_text rest ->
  seq_body ls (mk_seq_state i (Some e0) em)
  = Ok (mk_seq_state (i + 1 + length (block_texts b))
          (Some (mk_entry (start e0) (end_ e0) (texts e0 ++ [block_entry b])))
          em).
Proof.
  intros S M T Ne F St.
  destruct (skipn_cons_facts ls i _ [] _ S) as (_ & N & S1).
  unfold seq_body. cbn [cursor current_entry emitted].
  rewrite N, M, T, S1, collect_text_block by assumption.
  cbn [app]. f_equal. f_equal; [lia|].
  unfold block_entry, speaker_id.
  destruct (block_texts b) as [|x xs]; [congruence|]. reflexivity.
Qed.

(** A run of inert lines moves the cursor and nothing else. *)
Lemma inert_run (ls : list pystr) (xs : list pystr) :
  forall i rest cur em fuel,
    Forall inert xs ->
    skipn i ls = xs ++ rest ->
    length (xs ++ rest) <= fuel ->
    exists fuel',
      length rest <= fuel'
      /\ seq_loop fuel ls (mk_seq_state i cur em)
         = seq_loop fuel' ls (mk_seq_state (i + length xs) cur em).
Proof.
  induction xs as [|x xs IH]; intros i rest cur em fuel F Sk Hf.
  - exists fuel. cbn [length]. rewrite Nat.add_0_r. auto.
  - inversion F as [|? ? Hx F']; subst. cbn [app] in Sk.
    destruct (skipn_cons_facts ls i x [] _ Sk) as (L & _ & S1).
    cbn [app length] in Hf.
    destruct fuel as [|fuel]; [lia|].
    rewrite (seq_loop_step fuel ls (mk_seq_state i cur em) _ L
               (inert_step ls i x _ cur em Sk Hx)).
    destruct (IH (i + 1) rest cur em fuel F' S1 ltac:(lia))
      as (fuel' & Hf' & E).
    exists fuel'. split; auto.
    replace (i + length (x :: xs)) with (i + 1 + length xs)
      by (cbn [length]; lia).
    exact E.
Qed.

Lemma gap_inert (g : list pystr) : gap_ok g -> Forall inert g.
Proof.
  destruct g as [|l g]; cbn; [constructor|].
  intros [B F]. constructor; [apply blank_line_inert, B | exact F].
Qed.

Lemma gap_stops (g rest : list pystr) :
  gap_ok g -> stops_text rest -> stops_text (g ++ rest).
Proof. destruct g as [|l g]; cbn; [auto | intros [B _] _; auto]. Qed.

Lemma speaker_block_lines_length (b : speaker_block) :
  length (speaker_block_lines b)
  = 1 + length (block_texts b) + length (gap b).
Proof. unfold speaker_block_lines. cbn [length]. rewrite length_app. lia. Qed.

(** The speaker blocks of a cue add their text entries to the cue in
    progress, in order. *)
Lemma blocks_run (ls : list pystr) (bs : list speaker_block) :
  forall i rest e0 em fuel,
    Forall speaker_block_ok bs ->
    skipn i ls = flat_map speaker_block_lines bs ++ rest ->
    stops_text rest ->
    length (flat_map speaker_block_lines bs ++ rest) <= fuel ->
    exists fuel',
      length rest <= fuel'
      /\ seq_loop fuel ls (mk_seq_state i (Some e0) em)
         = seq_loop fuel' ls
             (mk_seq_state (i + length (flat_map speaker_block_lines bs))
                (Some (mk_entry (start e0) (end_ e0)
                         (texts e0 ++ map block_entry bs)))
                em).
Proof.
  induction bs as [|b bs IH]; intros i rest e0 em fuel F Sk St Hf.
  - exists fuel. cbn [flat_map length map]. rewrite Nat.add_0_r, app_nil_r.
    split; auto. destruct e0; reflexivity.
  - inversion F as [|? ? (M & T & Ne & Ft & G) F']; subst.
    cbn [flat_map] in *.
    unfold speaker_block_lines at 1 in Sk. unfold speaker_block_lines at 1 in Hf.
    cbn [app] in Sk, Hf. rewrite <- !app_assoc in Sk, Hf.
    assert (St' : stops_text (gap b ++ flat_map speaker_block_lines bs ++ rest)).
    { apply gap_stops; auto. destruct bs as [|b' bs']; [exact St|].
      cbn. inversion F' as [|? ? (_ & T' & _) _]; subst. auto. }
    destruct (skipn_cons_facts ls i _ [] _ Sk) as (L & _ & S1).
    cbn [length] in Hf. rewrite !length_app in Hf.
    destruct fuel as [|fuel]; [lia|].
    rewrite (seq_loop_step fuel ls (mk_seq_state i (Some e0) em) _ L
               (tag_step ls i b _ e0 em Sk M T Ne Ft St')).
    pose proof (skipn_app_facts ls (i + 1) _ _ S1) as S2.
    destruct (inert_run ls (gap b) (i + 1 + length (block_texts b))
                (flat_map speaker_block_lines bs ++ rest)
                (Some (mk_entry (start e0) (end_ e0) (texts e0 ++ [block_entry b])))
                em fuel (gap_inert _ G) S2
                ltac:(rewrite !length_app; lia))
      as (fuel1 & Hf1 & E1).
    rewrite E1.
    pose proof (skipn_app_facts ls _ _ _ S2) as S3.
    destruct (IH _ rest
                (mk_entry (start e0) (end_ e0) (texts e0 ++ [block_entry b]))
                em fuel1 F' S3 St Hf1)
      as (fuel2 & Hf2 & E2).
    exists fuel2. split; auto. rewrite E2. cbn [start end_ texts map].
    replace (i + length (speaker_block_lines b
                         ++ flat_map speaker_block_lines bs))
      with (i + 1 + length (block_texts b) + length (gap b)
            + length (flat_map speaker_block_lines bs))
      by (rewrite length_app, speaker_block_lines_length; lia).
    rewrite <- app_assoc. reflexivity.
Qed.

Lemma cue_entry_texts (c : cue_source) :
  texts (cue_entry c) = map block_entry (blocks c).
Proof.
  unfold cue_entry. destruct (marker_times (marker_line c)) as [[s e]|];
    reflexivity.
Qed.

Lemma flush_cue_entry (c : cue_source) (data : list entry) :
  flush (Some (cue_entry c)) data
  = data ++ (if match blocks c with [] => false | _ => true end
             then [cue_entry c] else []).
Proof.
  unfold flush, has_texts. rewrite cue_entry_texts.
  destruct (blocks c); cbn [map]; [rewrite app_nil_r|]; reflexivity.
Qed.

Lemma cue_stops (cues : list cue_source) :
  Forall cue_source_ok cues ->
  stops_text (flat_map cue_source_lines cues).
Proof.
  destruct cues as [|c cues]; cbn; auto.
  intros F. inversion F as [|? ? (M & _) _]; subst. auto.
Qed.

(** The cues of a well-formed export, from a position between two cues. *)
Lemma cues_run (ls : list pystr) (cues : list cue_source) :
  forall i cur em fuel,
    Forall cue_source_ok cues ->
    skipn i ls = flat_map cue_source_lines cues ->
    length (flat_map cue_source_lines cues) <= fuel ->
    exists st',
      seq_loop fuel ls (mk_seq_state i cur em) = Some (st', None)
      /\ flush (current_entry st') (emitted st')
         = flush cur em ++ export_cues cues.
Proof.
  induction cues as [|c cues IH]; intros i cur em fuel F Sk Hf.
  - cbn [flat_map] in Sk. exists (mk_seq_state i cur em). split.
    + apply seq_loop_end. cbn [cursor].
      pose proof (length_skipn i ls) as L. rewrite Sk in L. cbn in L. lia.
    + cbn. rewrite app_nil_r. reflexivity.
  - inversion F as [|? ? (M & T & Fl & Fb) F']; subst.
    cbn [flat_map] in Sk, Hf. unfold cue_source_lines at 1 in Sk.
    unfold cue_source_lines at 1 in Hf.
    cbn [app] in Sk, Hf. rewrite <- !app_assoc in Sk, Hf.
    destruct (marker_times (marker_line c)) as [[s e]|] eqn:Mt; [|congruence].
    destruct (skipn_cons_facts ls i _ [] _ Sk) as (L & _ & S1).
    cbn [length] in Hf. rewrite !length_app in Hf.
    destruct fuel as [|fuel]; [lia|].
    rewrite (seq_loop_step fuel ls (mk_seq_state i cur em) _ L
               (marker_step ls i _ _ cur em s e Sk M Mt)).
    destruct (inert_run ls (lead c) (i + 1) _ (Some (mk_entry s e []))
                (flush cur em) fuel Fl S1 ltac:(rewrite !length_app; lia))
      as (fuel1 & Hf1 & E1).
    rewrite E1.
    pose proof (skipn_app_facts ls _ _ _ S1) as S2.
    destruct (blocks_run ls (blocks c) _ _ (mk_entry s e []) (flush cur em)
                fuel1 Fb S2 (cue_stops cues F') Hf1)
      as (fuel2 & Hf2 & E2).
    rewrite E2.
    pose proof (skipn_app_facts ls _ _ _ S2) as S3.
    destruct (IH _ (Some (mk_entry s e (map block_entry (blocks c))))
                (flush cur em) fuel2 F' S3 Hf2) as (st' & E3 & R).
    exists st'. cbn [start end_ texts app]. split; [exact E3|].
    rewrite R.
    replace (mk_entry s e (map block_entry (blocks c))) with (cue_entry c)
      by (unfold cue_entry; rewrite Mt; reflexivity).
    rewrite flush_cue_entry, <- app_assoc. f_equal.
    unfold export_cues. cbn [filter].
    destruct (blocks c); reflexivity.
Qed.

(** X10: On a well-formed export (speaker blocks under timecode markers, each
    block a tag line and its lines of text) [parse_sequence_file] does not
    raise and adds exactly one cue for each marker that has a block, in
    order: the converted times of the marker, and for each block one text
    entry with the speaker of the tag and the stripped lines of the block
    joined by a space. Inert lines before the first marker, after a
    marker and between blocks change nothing. *)
Theorem parse_sequence_file_well_formed
        (preamble : list pystr) (cues : list cue_source) (self : SBVConverter) :
  Forall inert preamble ->
  Forall cue_source_ok cues ->
  parse_sequence_file (preamble ++ flat_map cue_source_lines cues) self
  = Some (mk_SBVConverter (dialogue_data self) (dialogue_index_map self)
            (sequence_data self ++ export_cues cues)
            (missing_translations self),
          Ok tt).
Proof.
  intros Fp Fc. unfold parse_sequence_file.
  set (ls := preamble ++ flat_map cue_source_lines cues).
  destruct (inert_run ls preamble 0 (flat_map cue_source_lines cues) None
              (sequence_data self) (length ls) Fp eq_refl (Nat.le_refl _))
    as (fuel1 & Hf1 & E1).
  rewrite E1.
  pose proof (skipn_app_facts ls 0 preamble _ eq_refl) as S1.
  destruct (cues_run ls cues _ None (sequence_data self) fuel1 Fc S1 Hf1)
    as (st' & E2 & R).
  rewrite E2, R. reflexivity.
Qed.

Lemma parse_sequence_file_well_formed_witness :
  parse_sequence_file (flat_map cue_source_lines sample_export) empty_converter
  = Some (mk_SBVConverter [] []
            [ mk_entry (lit "0:00:00.000") (lit "0:00:24.566")
                [mk_text_entry (lit "V7_1") (lit "ver 0.7.0 out!")];
              mk_entry (lit "0:00:24.566") (lit "0:00:29.500")
                [mk_text_entry (lit "V5_1") (lit "konnichiwa.")];
              mk_entry (lit "0:00:29.500") (lit "0:00:36.300")
                [mk_text_entry (lit "V5_1") (lit "konnichiwa.");
                 mk_text_entry (lit "V5_2") (lit "hajimemashite. yoroshiku.")] ]
            [(lit "ko", 0); (lit "en", 0); (lit "ja", 0)],
          Ok tt).
Proof.
  assert (Fc : Forall cue_source_ok sample_export).
  { repeat constructor; try discriminate; vm_compute;
      try reflexivity; try discriminate; intuition discriminate. }
  exact (parse_sequence_file_well_formed [] sample_export empty_converter
           (Forall_nil _) Fc).
Defined.

(** ** Soundness of the index and the way from script to match *)

Lemma remove_whitespace_idem (s : pystr) :
  remove_whitespace (remove_whitespace s) = remove_whitespace s.
Proof.
  unfold remove_whitespace. induction s as [|c s IH]; cbn [filter]; auto.
  destruct (isspace c) eqn:C; cbn [negb]; auto.
  cbn [filter]. rewrite C. cbn [negb]. f_equal. exact IH.
Qed.

(** X7: Every entry of a built index is sound: its position holds a record
    whose normalized Japanese line is the key, the key has no whitespace
    left, and a query equal to the key finds that record. *)
Theorem index_entries_sound
        (data : list dialogue) (self : SBVConverter) (k : pystr) (idx : nat) :
  __init__ data = Ok self ->
  In (k, idx) (dialogue_index_map self) ->
  exists d,
    nth_error data idx = Some d
    /\ ja_key d = Some k
    /\ remove_whitespace k = k
    /\ find_matching_dialogue (dialogue_data self) (dialogue_index_map self) k
       = Ok (Some d).
Proof.
  intros I H. destruct (init_index_ok data self I) as ((N & R) & D & _).
  pose proof (dict_get_NoDup _ _ _ N H) as G.
  unfold __init__, _build_dialogue_index in I.
  cbn [dialogue_data dialogue_index_map] in I.
  destruct (build_index_loop (enumerate data) []) as [index|] eqn:B;
    cbn [bind] in I; [|discriminate].
  injection I as <-. cbn [dialogue_index_map dialogue_data] in *.
  unfold enumerate in B. rewrite (build_index_loop_get data 0 [] index B k) in G.
  destruct (last_pos data k) as [p|] eqn:L; [|discriminate].
  injection G as <-. cbn [Nat.add].
  destruct (last_pos_Some data k p L) as (d & Nd & K & _).
  assert (E : remove_whitespace k = k).
  { unfold ja_key in K. destruct (dict_get (lines d) (lit "ja")) as [ja|];
      [|discriminate]. injection K as <-.
    apply remove_whitespace_idem. }
  exists d. repeat split; auto.
  unfold find_matching_dialogue, dict_mem, dict_item. rewrite E.
  rewrite (build_index_loop_get data 0 [] index B k), L. cbn [bind Nat.add].
  unfold list_item. rewrite Nd. reflexivity.
Qed.

Lemma index_entries_sound_witness :
  exists d,
    nth_error sample_dialogues 1 = Some d
    /\ ja_key d = Some hajimemashite
    /\ find_matching_dialogue sample_dialogues sample_index hajimemashite
       = Ok (Some d).
Proof.
  destruct (index_entries_sound sample_dialogues
              (mk_SBVConverter sample_dialogues sample_index []
                 [(lit "ko", 0); (lit "en", 0); (lit "ja", 0)])
              hajimemashite 1
              ltac:(vm_compute; reflexivity)
              ltac:(right; left; reflexivity))
    as (d & N & K & _ & F).
  exists d. auto.
Defined.

Lemma record_of_ja_key (g : group) :
  ja_key (record_of g) = Some (remove_whitespace (variant (line1 g))).
Proof. reflexivity. Qed.

Lemma script_records_In (doc : list item) (g : group) :
  In (Group g) doc -> In (record_of g) (script_records doc).
Proof.
  intros H. unfold script_records. apply in_flat_map.
  exists (Group g). split; [exact H | left; reflexivity].
Qed.

(** X9: From the script to a match: for a well-formed script the converter is
    always built, and a cue text that agrees with the Japanese line of a
    group up to whitespace finds a record of the script with that same
    Japanese line (the record of the group itself when no later group
    repeats the line). *)
Theorem script_line_is_found
        (doc : list item) (g : group) (japanese_text : pystr) :
  Forall item_ok doc ->
  In (Group g) doc ->
  remove_whitespace japanese_text = remove_whitespace (variant (line1 g)) ->
  exists self d,
    parse_file (script_lines doc) = Some (script_records doc)
    /\ __init__ (script_records doc) = Ok self
    /\ find_matching_dialogue (dialogue_data self) (dialogue_index_map self)
                              japanese_text = Ok (Some d)
    /\ In d (script_records doc)
    /\ ja_key d = Some (remove_whitespace (variant (line1 g))).
Proof.
  intros O H E.
  pose proof (parse_loop_script doc O [] [] _ (Nat.le_refl _)) as P.
  change (parse_file (script_lines doc) = Some (script_records doc)) in P.
  destruct (parsed_index_keys (script_lines doc)) as (ds & self & P' & I & _).
  rewrite P in P'. injection P' as <-.
  destruct (In_nth_error _ _ (script_records_In doc g H)) as [i N].
  destruct (index_lookup_last (script_records doc) self i (record_of g) _
              I N (record_of_ja_key g))
    as (j & d & _ & Nd & K & _ & _ & F).
  exists self, d. repeat split; auto.
  exact (nth_error_In _ _ Nd).
Qed.

Lemma script_line_is_found_witness :
  exists self d,
    parse_file (script_lines sample_script) = Some (script_records sample_script)
    /\ __init__ (script_records sample_script) = Ok self
    /\ find_matching_dialogue (dialogue_data self) (dialogue_index_map self)
                              (lit " hajime mashite. ") = Ok (Some d)
    /\ In d (script_records sample_script).
Proof.
  assert (O : Forall item_ok sample_script).
  { repeat constructor; try discriminate; vm_compute; reflexivity. }
  destruct (script_line_is_found sample_script
              (mk_group (lit "plana") (lit "annyeonghasimnikka." ++ newline)
                 (Tagged (lit "plana") (lit "hajimemashite." ++ newline))
                 (Tagged (lit "plana") (lit "hajimemashite, hiragana." ++ newline))
                 (Tagged (lit "plana") (lit "Nice to meet you.")))
              (lit " hajime mashite. ") O
              ltac:(right; right; left; reflexivity)
              ltac:(vm_compute; reflexivity))
    as (self & d & P & I & F & M & _).
  exists self, d. auto.
Defined.
